(** * tftaglint: extraction of tagged resources and the tag rule engine

    A shallow embedding of the Go packages [parser], [config] and
    [validator] of tftaglint, with the properties of the specification
    stated and settled on it.

    Conventions of the embedding:
    - a Go [string] is a [string] (a sequence of bytes), [==] is equality;
    - a Go [map[string]T] is a [gmap string T]; a nil map and an empty map
      are both [∅], which is sound because the code only reads them;
    - a Go slice is a [list]; [append] is [++];
    - a [for _, x := range slice] loop with an accumulator is a [fold_left];
    - a [for k := range m] loop over a map visits every key once in an
      order that Go leaves unspecified: the visiting order is an explicit
      argument, constrained by [is_range_order];
    - a Go name that Rocq reserves, or that names both a type and a field,
      gets a trailing underscore ([Type_], [Condition_], [Global_]). *)

From Stdlib Require PrimFloat.
From Stdlib Require Import Ascii.
From stdpp Require Import gmap strings list fin_maps sorting pretty.

Open Scope string_scope.
Open Scope list_scope.

(** ** Go built-ins used by the code *)

Module golang.

(** [for k, v := range m { acc = body k v acc }], the keys visited in the
    order [keys]; an entry of [keys] that is no key of [m] is passed over. *)
Definition rangeMap {V A : Type} (keys : list string) (m : gmap string V)
    (body : string → V → A → A) (acc : A) : A :=
  fold_left (λ acc k, match m !! k with
                      | Some v => body k v acc
                      | None => acc
                      end) keys acc.

(** The orders in which a range statement may visit the map [m]: every
    key of [m], each exactly once. *)
Definition is_range_order {V : Type} (m : gmap string V) (keys : list string) : Prop :=
  NoDup keys ∧ list_to_set keys = dom m.

#[global] Instance is_range_order_dec {V : Type} (m : gmap string V) keys :
  Decision (is_range_order m keys).
Proof. unfold is_range_order. apply _. Defined.

(** One admissible order, used where the order cannot be observed. *)
Definition some_range_order {V : Type} (m : gmap string V) : list string :=
  (map_to_list m).*1.

(** [s[i]] on a slice of strings, for an index in range; the code never
    indexes out of range, where Go would panic. *)
Definition index (s : list string) (i : nat) : string := nth i s "".

(** [strings.HasPrefix]. *)
Definition HasPrefix (s prefix : string) : bool := String.prefix prefix s.

(** [strings.HasSuffix]. *)
Definition HasSuffix (s suffix : string) : bool :=
  String.prefix (String.rev suffix) (String.rev s).

(** [strings.Split s sep] for a separator of one byte: the segments of
    [s] between the occurrences of [sep]; never empty, [Split "" sep] is
    [[""]]. *)
Fixpoint Split (s : string) (sep : Ascii.ascii) : list string :=
  match s with
  | EmptyString => [EmptyString]
  | String c rest =>
      if Ascii.eqb c sep then EmptyString :: Split rest sep
      else match Split rest sep with
           | seg :: segs => String c seg :: segs
           | [] => [String c EmptyString]
           end
  end.

(** [strings.Join]. *)
Fixpoint Join (elems : list string) (sep : string) : string :=
  match elems with
  | [] => ""
  | [e] => e
  | e :: rest => e +:+ sep +:+ Join rest sep
  end.

(** Go's [error] values as far as the code builds them: [fmt.Errorf]
    without [%w] gives a plain message, with [%w] it also keeps the
    wrapped cause. *)
Inductive error : Type :=
| errorString (msg : string)
| wrapError (msg : string) (cause : error).

Definition Error (e : error) : string :=
  match e with
  | errorString msg => msg
  | wrapError msg _ => msg
  end.

Definition Unwrap (e : error) : option error :=
  match e with
  | errorString _ => None
  | wrapError _ cause => Some cause
  end.

(** The line feed that ends a line of [Fprintln] and stands for the
    escape [\n] of a Go string literal. *)
Definition newline : string := String "010"%char EmptyString.

(** [strings.Repeat]. *)
Fixpoint Repeat (s : string) (count : nat) : string :=
  match count with
  | O => ""
  | S count => s +:+ Repeat s count
  end.

(** The order [<=] of Go on strings: byte by byte. *)
Definition string_le (a b : string) : Prop := String.leb a b = true.

#[global] Instance string_le_dec a b : Decision (string_le a b).
Proof. unfold string_le. apply _. Defined.

(** [sort.Strings]: the strings in increasing order. The order on strings
    is total and antisymmetric, so the sorted slice is determined by the
    elements; it is computed here by a merge sort. *)
Definition Strings (x : list string) : list string := merge_sort string_le x.

(** The verb [%d] of [fmt] on an [int]. *)
Definition itoa (n : Z) : string := pretty n.

End golang.

(** ** Package hcl: source positions *)

Module hcl.

Record Pos : Type := mkPos { Line : Z; Column : Z; Byte : Z }.

Record Range : Type := mkRange { Filename : string; Start : Pos; End_ : Pos }.

End hcl.

(** ** Package parser: the resource model *)

Module parser.

Record Resource : Type := mkResource {
  Type_ : string;
  Name : string;
  Tags : gmap string string;
  Location : hcl.Range;
  File : string
}.

Record ParseResult : Type := mkParseResult {
  Resources : list Resource;
  Errors : list golang.error
}.

End parser.

(** ** Package config: global policy and rules *)

Module config.

Record Condition : Type := mkCondition { Tag : string; Value : string }.

Record TagConstraint : Type := mkTagConstraint {
  ctTag : string;
  AllowedValues : list string
}.

(** [regex] is the compiled matcher, [None] for Go's nil: a compiled
    [*regexp.Regexp] is used only through [MatchString], so it is
    represented by that predicate. *)
Record TagPattern : Type := mkTagPattern {
  Pattern : string;
  Message : string;
  regex : option (string → bool)
}.

Record Rule : Type := mkRule {
  Name : string;
  Description : string;
  RequiredTags : list string;
  ForbiddenTags : list string;
  Condition_ : option Condition;
  ResourceTypes : list string;
  TagConstraints : list TagConstraint;
  TagPatterns : list TagPattern
}.

Record Global : Type := mkGlobal {
  AlwaysRequiredTags : list string;
  IgnoreResourceTypes : list string
}.

Record Config : Type := mkConfig {
  Rules : list Rule;
  Global_ : Global
}.

(** The method [Validate] of [TagPattern]. *)
Definition Validate (tp : TagPattern) (tagName : string) : bool :=
  match regex tp with
  | None => true
  | Some MatchString => MatchString tagName
  end.

(** What reading and decoding the configuration file gives: [os.ReadFile]
    fails, [yaml.Unmarshal] fails, or the decoded configuration. *)
Inductive ConfigFile : Type :=
| ReadFailed (err : golang.error)
| UnmarshalFailed (err : golang.error)
| Decoded (config : Config).

(** [regexp.Compile] on a pattern: an error, or the compiled expression,
    represented by its [MatchString]. *)
Definition Compiler : Type := string → golang.error + (string → bool).

(** The inner loop of [LoadConfig], [for j := range TagPatterns], on the
    patterns of the rule [ruleName]: each pattern gets its compiled
    expression; the first pattern that does not compile ends the load. *)
Fixpoint compilePatterns (Compile : Compiler) (ruleName : string)
    (patterns : list TagPattern) : golang.error + list TagPattern :=
  match patterns with
  | [] => inr []
  | pattern :: rest =>
      match Compile (Pattern pattern) with
      | inl err =>
          inl (golang.wrapError
                 ("invalid regex pattern in rule " +:+ ruleName +:+ ": " +:+ golang.Error err)
                 err)
      | inr compiled =>
          match compilePatterns Compile ruleName rest with
          | inl err => inl err
          | inr rest =>
              inr ({| Pattern := Pattern pattern;
                      Message := Message pattern;
                      regex := Some compiled |} :: rest)
          end
      end
  end.

(** The outer loop of [LoadConfig], [for i := range config.Rules]. *)
Fixpoint compileRules (Compile : Compiler) (rules : list Rule) : golang.error + list Rule :=
  match rules with
  | [] => inr []
  | rule :: rest =>
      match compilePatterns Compile (Name rule) (TagPatterns rule) with
      | inl err => inl err
      | inr patterns =>
          match compileRules Compile rest with
          | inl err => inl err
          | inr rest =>
              inr ({| Name := Name rule;
                      Description := Description rule;
                      RequiredTags := RequiredTags rule;
                      ForbiddenTags := ForbiddenTags rule;
                      Condition_ := Condition_ rule;
                      ResourceTypes := ResourceTypes rule;
                      TagConstraints := TagConstraints rule;
                      TagPatterns := patterns |} :: rest)
          end
      end
  end.

Definition LoadConfig (Compile : Compiler) (file : ConfigFile) : golang.error + Config :=
  match file with
  | ReadFailed err =>
      inl (golang.wrapError ("failed to read config file: " +:+ golang.Error err) err)
  | UnmarshalFailed err =>
      inl (golang.wrapError ("failed to parse config file: " +:+ golang.Error err) err)
  | Decoded config =>
      match compileRules Compile (Rules config) with
      | inl err => inl err
      | inr rules => inr {| Rules := rules; Global_ := Global_ config |}
      end
  end.

End config.

(** ** Package validator: the rule engine *)

Module validator.

Record Violation : Type := mkViolation {
  Rule : string;
  Description : string;
  Resource : parser.Resource;
  Message : string
}.

(** The loop shared in shape by [shouldIgnoreResource],
    [isResourceTypeInList] and [isValueAllowed]: return true at the first
    element equal to [x], false when the slice is exhausted. *)
Fixpoint shouldIgnoreResource_loop (ignoredTypes : list string) (resourceType : string) : bool :=
  match ignoredTypes with
  | [] => false
  | ignored :: rest =>
      if String.eqb resourceType ignored then true
      else shouldIgnoreResource_loop rest resourceType
  end.

Definition shouldIgnoreResource (cfg : config.Config) (resourceType : string) : bool :=
  shouldIgnoreResource_loop (config.IgnoreResourceTypes (config.Global_ cfg)) resourceType.

Fixpoint isResourceTypeInList (resourceType : string) (list : list string) : bool :=
  match list with
  | [] => false
  | t :: rest =>
      if String.eqb t resourceType then true
      else isResourceTypeInList resourceType rest
  end.

Definition checkCondition (resource : parser.Resource) (condition : config.Condition) : bool :=
  match parser.Tags resource !! config.Tag condition with
  | Some value => String.eqb value (config.Value condition)
  | None => false
  end.

Fixpoint isValueAllowed (value : string) (allowedValues : list string) : bool :=
  match allowedValues with
  | [] => false
  | allowed :: rest =>
      if String.eqb value allowed then true
      else isValueAllowed value rest
  end.

Definition checkGlobalRequiredTags (cfg : config.Config) (resource : parser.Resource) : list Violation :=
  fold_left
    (λ violations requiredTag,
       match parser.Tags resource !! requiredTag with
       | None =>
           violations ++ [ {| Rule := "global-required-tags";
                              Description := "Global required tags";
                              Resource := resource;
                              Message := "Missing required tag: " +:+ requiredTag |} ]
       | Some _ => violations
       end)
    (config.AlwaysRequiredTags (config.Global_ cfg)) [].

(** The four check loops of [checkRule], each continuing the slice
    [violations] built so far. *)
Definition checkRequiredTags (resource : parser.Resource) (rule : config.Rule)
    (violations : list Violation) : list Violation :=
  fold_left
    (λ violations requiredTag,
       match parser.Tags resource !! requiredTag with
       | None =>
           violations ++ [ {| Rule := config.Name rule;
                              Description := config.Description rule;
                              Resource := resource;
                              Message := "Missing required tag: " +:+ requiredTag |} ]
       | Some _ => violations
       end)
    (config.RequiredTags rule) violations.

Definition checkForbiddenTags (resource : parser.Resource) (rule : config.Rule)
    (violations : list Violation) : list Violation :=
  fold_left
    (λ violations forbiddenTag,
       match parser.Tags resource !! forbiddenTag with
       | Some _ =>
           violations ++ [ {| Rule := config.Name rule;
                              Description := config.Description rule;
                              Resource := resource;
                              Message := "Forbidden tag found: " +:+ forbiddenTag |} ]
       | None => violations
       end)
    (config.ForbiddenTags rule) violations.

Definition checkTagConstraints (resource : parser.Resource) (rule : config.Rule)
    (violations : list Violation) : list Violation :=
  fold_left
    (λ violations constraint,
       match parser.Tags resource !! config.ctTag constraint with
       | Some value =>
           if negb (isValueAllowed value (config.AllowedValues constraint)) then
             violations ++ [ {| Rule := config.Name rule;
                                Description := config.Description rule;
                                Resource := resource;
                                Message := "Invalid value for tag " +:+ config.ctTag constraint
                                           +:+ ": '" +:+ value +:+ "'. Allowed values: "
                                           +:+ golang.Join (config.AllowedValues constraint) ", " |} ]
           else violations
       | None => violations
       end)
    (config.TagConstraints rule) violations.

(** [for tagName := range resource.Tags], visiting the keys in the order
    [keys]. *)
Definition checkTagPatterns (keys : list string) (resource : parser.Resource) (rule : config.Rule)
    (violations : list Violation) : list Violation :=
  golang.rangeMap keys (parser.Tags resource)
    (λ tagName _ violations,
       fold_left
         (λ violations pattern,
            if negb (config.Validate pattern tagName) then
              violations ++ [ {| Rule := config.Name rule;
                                 Description := config.Description rule;
                                 Resource := resource;
                                 Message := "Tag name '" +:+ tagName
                                            +:+ "' does not match pattern: "
                                            +:+ config.Message pattern |} ]
            else violations)
         (config.TagPatterns rule) violations)
    violations.

(** [keys] is the order in which the range statement of the call visits
    the keys of [resource.Tags]. *)
Definition checkRule (keys : list string) (resource : parser.Resource) (rule : config.Rule) : list Violation :=
  let violations := [] in
  if (0 <? length (config.ResourceTypes rule))%nat
     && negb (isResourceTypeInList (parser.Type_ resource) (config.ResourceTypes rule))
  then violations
  else if match config.Condition_ rule with
          | Some condition => negb (checkCondition resource condition)
          | None => false
          end
  then violations
  else
    let violations := checkRequiredTags resource rule violations in
    let violations := checkForbiddenTags resource rule violations in
    let violations := checkTagConstraints resource rule violations in
    let violations := checkTagPatterns keys resource rule violations in
    violations.

(** The range orders of one run of [Validate]: [order i j] is the order
    in which the call of [checkRule] for the [i]-th resource and the
    [j]-th rule visits the keys of that resource's tags. *)
Definition RangeOrders : Type := nat → nat → list string.

Definition valid_orders (order : RangeOrders) (resources : list parser.Resource) : Prop :=
  ∀ i resource, resources !! i = Some resource →
    ∀ j, golang.is_range_order (parser.Tags resource) (order i j).

(** The inner loop of [Validate], [for _, rule := range v.config.Rules];
    the second component of the accumulator counts the rules. *)
Definition checkRules (order : nat → list string) (cfg : config.Config)
    (resource : parser.Resource) (violations : list Violation) : list Violation :=
  (fold_left
     (λ '(violations, j) rule,
        (violations ++ checkRule (order j) resource rule, S j))
     (config.Rules cfg) (violations, 0%nat)).1.

(** [Validate]; the second component of the accumulator counts the
    resources, to pick the range orders of the current one. *)
Definition Validate (order : RangeOrders) (cfg : config.Config)
    (resources : list parser.Resource) : list Violation :=
  (fold_left
     (λ '(violations, i) resource,
        if shouldIgnoreResource cfg (parser.Type_ resource) then (violations, S i)
        else
          let violations := violations ++ checkGlobalRequiredTags cfg resource in
          let violations := checkRules (order i) cfg resource violations in
          (violations, S i))
     resources ([], 0%nat)).1.

End validator.

(** ** Package parser: the plan extractor (plan_parser.go) *)

Module plan.

(** What [encoding/json] decodes into an [interface{}]: nil, bool,
    float64, string, []interface{} or map[string]interface{}. *)
#[local] Unset Elimination Schemes.

Inductive JSON : Type :=
| JNull
| JBool (b : bool)
| JNumber (f : PrimFloat.float)
| JString (s : string)
| JArray (elems : list JSON)
| JObject (fields : gmap string JSON).

Record PlannedResource : Type := mkPlannedResource {
  Address : string;
  Type_ : string;
  Name : string;
  Values : gmap string JSON;
  ModulePath : list string
}.

Inductive ChildModule : Type :=
  mkChildModule (Address : string) (Resources : list PlannedResource)
                (ChildModules : list ChildModule).

#[local] Set Elimination Schemes.

Record RootModule : Type := mkRootModule {
  Resources : list PlannedResource;
  ChildModules : list ChildModule
}.

Record PlannedValues : Type := mkPlannedValues { RootModule_ : RootModule }.

Record TerraformPlan : Type := mkTerraformPlan { PlannedValues_ : PlannedValues }.

Definition isResourceType (s : string) : bool :=
  let prefixes := ["aws_"; "google_"; "azurerm_"; "alicloud_"; "oci_"] in
  (fix loop (prefixes : list string) : bool :=
     match prefixes with
     | [] => false
     | prefix :: rest => if golang.HasPrefix s prefix then true else loop rest
     end) prefixes.

(** The body of both range loops of [extractTagsFromValues]:
    [if str, ok := v.(string); ok { tags[k] = str }]. *)
Definition keepString (k : string) (v : JSON) (tags : gmap string string) : gmap string string :=
  match v with
  | JString str => <[k := str]> tags
  | _ => tags
  end.

(** [extractTagsFromValues], its two range statements visiting the keys
    of the [tags] object in the order [keysTags] and those of the
    [tags_all] object in the order [keysAll]. *)
Definition extractTagsFromValuesIn (keysTags keysAll : list string)
    (values : gmap string JSON) : gmap string string :=
  let tags : gmap string string := ∅ in
  let tags :=
    match values !! "tags" with
    | Some (JObject t) => golang.rangeMap keysTags t keepString tags
    | _ => tags
    end in
  let tags :=
    match values !! "tags_all" with
    | Some (JObject t) => golang.rangeMap keysAll t keepString tags
    | _ => tags
    end in
  tags.

(** The keys of the object stored under [field], in one admissible range
    order; no keys when the field is absent or not an object. *)
Definition fieldKeys (values : gmap string JSON) (field : string) : list string :=
  match values !! field with
  | Some (JObject t) => golang.some_range_order t
  | _ => []
  end.

(** [extractTagsFromValues]: the result does not depend on the range
    orders (lemma [extractTagsFromValues_union]), so one is fixed. *)
Definition extractTagsFromValues (values : gmap string JSON) : gmap string string :=
  extractTagsFromValuesIn (fieldKeys values "tags") (fieldKeys values "tags_all") values.

(** The search loop of [convertPlannedResource],
    [for i := 0; i < len(parts)-1; i++], run over the remaining values
    [indices] of [i]; [break] ends it. *)
Fixpoint findResourceType (parts : list string) (indices : list nat)
    (resourceType resourceName : string) : string * string :=
  match indices with
  | [] => (resourceType, resourceName)
  | i :: rest =>
      if isResourceType (golang.index parts i) then
        let resourceType := golang.index parts i in
        let resourceName :=
          if (i + 1 <? length parts)%nat then golang.index parts (i + 1) else resourceName in
        (resourceType, resourceName)
      else findResourceType parts rest resourceType resourceName
  end.

Definition convertPlannedResource (planned : PlannedResource) (filename : string)
    : option parser.Resource :=
  let parts := golang.Split (Address planned) "."%char in
  if (length parts <? 2)%nat then None
  else
    let '(resourceType, resourceName) :=
      findResourceType parts (seq 0 (length parts - 1)) "" "" in
    let identity : option (string * string) :=
      if String.eqb resourceType "" || String.eqb resourceName "" then
        if (2 <=? length parts)%nat then
          Some (golang.index parts (length parts - 2), golang.index parts (length parts - 1))
        else None
      else Some (resourceType, resourceName) in
    match identity with
    | None => None
    | Some (resourceType, resourceName) =>
        Some {| parser.Type_ := resourceType;
                parser.Name := resourceName;
                parser.Tags := extractTagsFromValues (Values planned);
                parser.Location :=
                  {| hcl.Filename := filename;
                     hcl.Start := {| hcl.Line := 1; hcl.Column := 1; hcl.Byte := 0 |};
                     hcl.End_ := {| hcl.Line := 1; hcl.Column := 1; hcl.Byte := 0 |} |};
                parser.File := filename |}
    end.

(** The resource loop shared by [processModuleResources] and
    [processChildModule]; [result] is the [*ParseResult] both mutate. *)
Definition processResources (resources : list PlannedResource) (filename : string)
    (result : parser.ParseResult) : parser.ParseResult :=
  fold_left
    (λ result resource,
       match convertPlannedResource resource filename with
       | Some res =>
           {| parser.Resources := parser.Resources result ++ [res];
              parser.Errors := parser.Errors result |}
       | None => result
       end)
    resources result.

Fixpoint processChildModule (module : ChildModule) (filename : string)
    (result : parser.ParseResult) : parser.ParseResult :=
  match module with
  | mkChildModule _ resources childModules =>
      let result := processResources resources filename result in
      fold_left (λ result child, processChildModule child filename result)
                childModules result
  end.

Definition processModuleResources (module : RootModule) (filename : string)
    (result : parser.ParseResult) : parser.ParseResult :=
  let result := processResources (Resources module) filename result in
  fold_left (λ result child, processChildModule child filename result)
            (ChildModules module) result.

(** What reading and decoding the plan file gives: [os.ReadFile] fails,
    [json.Unmarshal] fails, or the decoded plan. *)
Inductive PlanFile : Type :=
| ReadFailed (err : golang.error)
| UnmarshalFailed (err : golang.error)
| Decoded (plan : TerraformPlan).

Definition ParseTerraformPlan (filename : string) (file : PlanFile)
    : golang.error + parser.ParseResult :=
  match file with
  | ReadFailed err =>
      inl (golang.wrapError ("failed to read plan file: " +:+ golang.Error err) err)
  | UnmarshalFailed err =>
      inl (golang.wrapError ("failed to parse plan JSON: " +:+ golang.Error err) err)
  | Decoded plan =>
      let result := {| parser.Resources := []; parser.Errors := [] |} in
      inr (processModuleResources (RootModule_ (PlannedValues_ plan)) filename result)
  end.

End plan.

(** ** The block tree of the HCL library, as far as the code inspects it *)

Module cty.

(** A [cty.Value]: a known string, or a value of any other type. *)
Inductive Value : Type :=
| StringVal (s : string)
| OtherVal.

End cty.

Module hclsyntax.

Inductive Traverser : Type :=
| TraverseRoot (Name : string)
| TraverseAttr (Name : string)
| TraverseOther.

#[local] Unset Elimination Schemes.

(** The expression kinds the code switches on; [OtherExpr] stands for
    every other kind (function calls, conditionals, operators, ...). *)
Inductive Expression : Type :=
| LiteralValueExpr (Val : cty.Value)
| TemplateExpr (Parts : list Expression)
| ScopeTraversalExpr (Traversal : list Traverser)
| ObjectConsKeyExpr (Wrapped : Expression)
| ObjectConsExpr (Items : list (Expression * Expression))
| OtherExpr.

Record Attribute : Type := mkAttribute { Name : string; Expr : Expression }.

Inductive Body : Type :=
  mkBody (Attributes : gmap string Attribute) (Blocks : list Block)
with Block : Type :=
  mkBlock (Type_ : string) (Labels : list string) (Body_ : Body) (DefRange : hcl.Range).

#[local] Set Elimination Schemes.

Definition Attributes (body : Body) : gmap string Attribute :=
  match body with mkBody attributes _ => attributes end.

Definition Blocks (body : Body) : list Block :=
  match body with mkBody _ blocks => blocks end.

Definition Type_ (block : Block) : string :=
  match block with mkBlock type _ _ _ => type end.

Definition Labels (block : Block) : list string :=
  match block with mkBlock _ labels _ _ => labels end.

Definition Body_ (block : Block) : Body :=
  match block with mkBlock _ _ body _ => body end.

Definition DefRange (block : Block) : hcl.Range :=
  match block with mkBlock _ _ _ defRange => defRange end.

(** The library's [TemplateExpr.IsStringLiteral]: exactly one part, and
    that part a literal. *)
Definition IsStringLiteral (Parts : list Expression) : bool :=
  match Parts with
  | [LiteralValueExpr _] => true
  | _ => false
  end.

(** The library's [TemplateExpr.Value(nil)] on a template that
    [IsStringLiteral]: the string of its literal part. The parser builds
    the literal parts of a template from strings only. *)
Definition TemplateValue (Parts : list Expression) : cty.Value :=
  match Parts with
  | [LiteralValueExpr Val] => Val
  | _ => cty.OtherVal
  end.

(** What [hclparse.Parser.ParseHCLFile] returns: the body of the file,
    of the native syntax or of another kind, and the diagnostics. *)
Inductive FileBody : Type :=
| SyntaxBody (body : Body)
| ForeignBody.

Record ParsedFile : Type := mkParsedFile {
  FileBody_ : FileBody;
  HasErrors : bool;
  DiagsError : string
}.

End hclsyntax.

(** ** Package parser: the source extractor (parser.go) *)

Module source.

Import hclsyntax.

Definition getStringValue (expr : Expression) : option string :=
  match expr with
  | LiteralValueExpr (cty.StringVal s) => Some s
  | TemplateExpr Parts =>
      if IsStringLiteral Parts then
        match TemplateValue Parts with
        | cty.StringVal s => Some s
        | _ => None
        end
      else None
  | _ => None
  end.

(** The name of a traversal that is a single root step. *)
Definition rootName (Traversal : list Traverser) : option string :=
  match Traversal with
  | [TraverseRoot name] => Some name
  | _ => None
  end.

(** The key switch of [extractTagsFromExpression]: [Some key] when
    [keyOk]. *)
Definition keyOf (KeyExpr : Expression) : option string :=
  match KeyExpr with
  | ObjectConsKeyExpr Wrapped =>
      match Wrapped with
      | ScopeTraversalExpr Traversal =>
          if (length Traversal =? 1)%nat then rootName Traversal
          else getStringValue Wrapped
      | _ => getStringValue Wrapped
      end
  | ScopeTraversalExpr Traversal =>
      if (length Traversal =? 1)%nat then rootName Traversal else None
  | LiteralValueExpr _ => getStringValue KeyExpr
  | TemplateExpr _ => getStringValue KeyExpr
  | _ => None
  end.

Definition extractTagsFromExpression (expr : Expression) (tags : gmap string string)
    : gmap string string :=
  match expr with
  | ObjectConsExpr Items =>
      fold_left
        (λ tags item,
           match keyOf item.1 with
           | Some key =>
               match getStringValue item.2 with
               | Some val => <[key := val]> tags
               | None => tags
               end
           | None => tags
           end)
        Items tags
  | _ => tags
  end.

(** [extractTags]. The first range statement over [Attributes] acts on
    the name "tags" alone, the second stores under each visited name what
    [getStringValue] keeps: neither depends on the order of the visit
    (lemma [extractTags_unordered]), so one admissible order is taken. *)
Definition extractTags (body : Body) : gmap string string :=
  let tags : gmap string string := ∅ in
  let tags :=
    golang.rangeMap (golang.some_range_order (Attributes body)) (Attributes body)
      (λ name attr tags,
         if String.eqb name "tags" then extractTagsFromExpression (Expr attr) tags
         else tags)
      tags in
  fold_left
    (λ tags block,
       if String.eqb (Type_ block) "tags" then
         golang.rangeMap (golang.some_range_order (Attributes (Body_ block)))
           (Attributes (Body_ block))
           (λ name attr tags,
              match getStringValue (Expr attr) with
              | Some val => <[name := val]> tags
              | None => tags
              end)
           tags
       else tags)
    (Blocks body) tags.

(** What [ParseHCLFile] returns for each path; a file that cannot be read
    comes back with error diagnostics. *)
Definition Files : Type := string → ParsedFile.

Definition parseFile (files : Files) (filename : string)
    : golang.error + list parser.Resource :=
  let file := files filename in
  if HasErrors file then
    inl (golang.errorString ("failed to parse HCL: " +:+ DiagsError file))
  else
    match FileBody_ file with
    | ForeignBody => inl (golang.errorString "unexpected body type")
    | SyntaxBody body =>
        inr (fold_left
               (λ resources block,
                  if String.eqb (Type_ block) "resource" && (2 <=? length (Labels block))%nat
                  then
                    resources ++
                      [ {| parser.Type_ := golang.index (Labels block) 0;
                           parser.Name := golang.index (Labels block) 1;
                           parser.Tags := extractTags (Body_ block);
                           parser.Location := DefRange block;
                           parser.File := filename |} ]
                  else resources)
               (Blocks body) [])
    end.

(** One call of the walk function by [filepath.Walk]: the path, whether
    it is a directory, and the error [Walk] met on it, if any. *)
Record WalkEntry : Type := mkWalkEntry {
  filePath : string;
  IsDir : bool;
  err : option golang.error
}.

(** The function literal passed to [filepath.Walk]; it updates the
    [result] it captures and returns an error or nil. *)
Definition walkFn (files : Files) (entry : WalkEntry) (result : parser.ParseResult)
    : golang.error + parser.ParseResult :=
  match err entry with
  | Some e => inl e
  | None =>
      if negb (golang.HasSuffix (filePath entry) ".tf") || IsDir entry then inr result
      else
        match parseFile files (filePath entry) with
        | inl e =>
            inr {| parser.Resources := parser.Resources result;
                   parser.Errors :=
                     parser.Errors result ++
                       [ golang.wrapError (filePath entry +:+ ": " +:+ golang.Error e) e ] |}
        | inr resources =>
            inr {| parser.Resources := parser.Resources result ++ resources;
                   parser.Errors := parser.Errors result |}
        end
  end.

(** [filepath.Walk]: [entries] are the calls it makes for one root as
    long as the walk function returns nil; the first error the function
    returns ends the walk and is returned. *)
Fixpoint Walk (files : Files) (entries : list WalkEntry) (result : parser.ParseResult)
    : golang.error + parser.ParseResult :=
  match entries with
  | [] => inr result
  | entry :: rest =>
      match walkFn files entry result with
      | inl e => inl e
      | inr result => Walk files rest result
      end
  end.

(** The loop [for _, path := range paths] of [ParseTerraformFiles];
    [walks] holds, for each path, the entries of its walk. *)
Fixpoint walkPaths (files : Files) (walks : list (list WalkEntry))
    (result : parser.ParseResult) : golang.error + parser.ParseResult :=
  match walks with
  | [] => inr result
  | entries :: rest =>
      match Walk files entries result with
      | inl e => inl e
      | inr result => walkPaths files rest result
      end
  end.

Definition ParseTerraformFiles (files : Files) (walks : list (list WalkEntry))
    : golang.error + parser.ParseResult :=
  walkPaths files walks {| parser.Resources := []; parser.Errors := [] |}.

End source.

(** ** Package reporter *)

Module reporter.

(** The [io.Writer] of a [Reporter], as the text written to it so far.
    The code ignores what its writes return, and both [Report] and
    [ReportSummary] return a nil error in every case: the functions below
    return the writer after the call. *)
Definition Writer : Type := string.

(** One call of [fmt.Fprintf], [fmt.Fprintln] or [fmt.Fprint] with the
    formatted text [text]. *)
Definition Fprint (w : Writer) (text : string) : Writer := w +:+ text.

Definition reportViolation (v : validator.Violation) (w : Writer) : Writer :=
  let location := hcl.Start (parser.Location (validator.Resource v)) in
  let w := Fprint w ("  Line " +:+ golang.itoa (hcl.Line location) +:+ ": "
                     +:+ parser.Type_ (validator.Resource v) +:+ "."
                     +:+ parser.Name (validator.Resource v) +:+ golang.newline) in
  let w := Fprint w ("    Rule: " +:+ validator.Rule v +:+ golang.newline) in
  let w := Fprint w ("    Message: " +:+ validator.Message v +:+ golang.newline) in
  if negb (String.eqb (validator.Description v) "") then
    Fprint w ("    Description: " +:+ validator.Description v +:+ golang.newline)
  else w.

(** The map [violationsByFile] of [Report] after its first loop. *)
Definition violationsByFile (violations : list validator.Violation)
    : gmap string (list validator.Violation) :=
  fold_left
    (λ violationsByFile v,
       let file := parser.File (validator.Resource v) in
       <[file := default [] (violationsByFile !! file) ++ [v]]> violationsByFile)
    violations ∅.

(** The comparison passed to [sort.Slice]: by the line of the start of
    the resource's location. *)
Definition less (a b : validator.Violation) : Prop :=
  (hcl.Line (hcl.Start (parser.Location (validator.Resource a)))
   < hcl.Line (hcl.Start (parser.Location (validator.Resource b))))%Z.

(** [Report]. [keys] is the order in which the range statement visits
    the files of [violationsByFile]; [Slice] is [sort.Slice] with the
    comparison [less], which is not guaranteed to be stable. *)
Definition Report (keys : list string)
    (Slice : list validator.Violation → list validator.Violation)
    (violations : list validator.Violation) (w : Writer) : Writer :=
  if (length violations =? 0)%nat then
    Fprint w ("✅ No tag violations found!" +:+ golang.newline)
  else
    let violationsByFile := violationsByFile violations in
    let files :=
      golang.rangeMap keys violationsByFile (λ file _ files, files ++ [file]) [] in
    let files := golang.Strings files in
    let w := Fprint w ("❌ Found " +:+ golang.itoa (Z.of_nat (length violations))
                       +:+ " tag violation(s):" +:+ golang.newline +:+ golang.newline) in
    fold_left
      (λ w file,
         let fileViolations := default [] (violationsByFile !! file) in
         let w := Fprint w ("📄 " +:+ file +:+ golang.newline) in
         let fileViolations := Slice fileViolations in
         let w := fold_left (λ w v, reportViolation v w) fileViolations w in
         Fprint w golang.newline)
      files w.

(** The map [violationsByRule] of [ReportSummary] after its first loop. *)
Definition violationsByRule (violations : list validator.Violation) : gmap string Z :=
  fold_left
    (λ violationsByRule v,
       <[validator.Rule v := (default 0 (violationsByRule !! validator.Rule v) + 1)%Z]>
         violationsByRule)
    violations ∅.

(** [ReportSummary]; [keys] is the order in which the range statement
    visits the rules of [violationsByRule]. *)
Definition ReportSummary (keys : list string) (violations : list validator.Violation)
    (w : Writer) : Writer :=
  if (length violations =? 0)%nat then w
  else
    let violationsByRule := violationsByRule violations in
    let w := Fprint w (golang.Repeat "-" 50 +:+ golang.newline) in
    let w := Fprint w ("Summary:" +:+ golang.newline) in
    let w := Fprint w ("Total violations: " +:+ golang.itoa (Z.of_nat (length violations))
                       +:+ golang.newline) in
    let w := Fprint w (golang.newline +:+ "Violations by rule:" +:+ golang.newline) in
    let rules :=
      golang.rangeMap keys violationsByRule (λ rule _ rules, rules ++ [rule]) [] in
    let rules := golang.Strings rules in
    fold_left
      (λ w rule,
         Fprint w ("  " +:+ rule +:+ ": "
                   +:+ golang.itoa (default 0%Z (violationsByRule !! rule))
                   +:+ golang.newline))
      rules w.

End reporter.

(** ** Package main: the validate command *)

Module main.

(** The flags of the command: [--config], [--summary] and [--plan]. *)
Record Flags : Type := mkFlags {
  configFile : string;
  showSummary : bool;
  planFile : string
}.

(** What a run takes from outside the program: the files it reads, the
    compiler of regular expressions, the walks of the file system, and
    the choices the Go runtime and library leave open (the orders of the
    range statements over maps, and [sort.Slice]). *)
Record World : Type := mkWorld {
  readConfig : string → config.ConfigFile;
  Compile : config.Compiler;
  readPlan : string → plan.PlanFile;
  files : source.Files;
  walk : string → list source.WalkEntry;
  tagOrders : validator.RangeOrders;
  fileOrder : list string;
  ruleOrder : list string;
  Slice : list validator.Violation → list validator.Violation
}.

(** What a run leaves: the text written to the standard output and to
    the standard error, and the error [runValidate] returns, if any. *)
Record Outcome : Type := mkOutcome {
  stdout : string;
  stderr : string;
  err : option golang.error
}.

(** The extraction step of [runValidate]: from the plan when [--plan] is
    given, else from the paths, the current directory by default. *)
Definition parse (flags : Flags) (world : World) (args : list string)
    : golang.error + parser.ParseResult :=
  if negb (String.eqb (planFile flags) "") then
    match plan.ParseTerraformPlan (planFile flags) (readPlan world (planFile flags)) with
    | inl e =>
        inl (golang.wrapError ("failed to parse terraform plan: " +:+ golang.Error e) e)
    | inr parseResult => inr parseResult
    end
  else
    let paths := args in
    let paths := if (length paths =? 0)%nat then ["."] else paths in
    match source.ParseTerraformFiles (files world) (walk world <$> paths) with
    | inl e =>
        inl (golang.wrapError ("failed to parse Terraform files: " +:+ golang.Error e) e)
    | inr parseResult => inr parseResult
    end.

Definition runValidate (flags : Flags) (world : World) (args : list string) : Outcome :=
  match config.LoadConfig (Compile world) (readConfig world (configFile flags)) with
  | inl e =>
      {| stdout := ""; stderr := "";
         err := Some (golang.wrapError ("failed to load config: " +:+ golang.Error e) e) |}
  | inr cfg =>
      match parse flags world args with
      | inl e => {| stdout := ""; stderr := ""; err := Some e |}
      | inr parseResult =>
          let stderr :=
            if (0 <? length (parser.Errors parseResult))%nat then
              let stderr := reporter.Fprint "" ("⚠️  Parsing errors encountered:" +:+ golang.newline) in
              let stderr :=
                fold_left
                  (λ stderr e,
                     reporter.Fprint stderr ("  - " +:+ golang.Error e +:+ golang.newline))
                  (parser.Errors parseResult) stderr in
              reporter.Fprint stderr golang.newline
            else "" in
          let violations :=
            validator.Validate (tagOrders world) cfg (parser.Resources parseResult) in
          let stdout :=
            reporter.Report (fileOrder world) (Slice world) violations "" in
          let stdout :=
            if showSummary flags && (0 <? length violations)%nat then
              reporter.ReportSummary (ruleOrder world) violations stdout
            else stdout in
          if (0 <? length violations)%nat then
            {| stdout := stdout; stderr := stderr;
               err := Some (golang.errorString
                              ("found " +:+ golang.itoa (Z.of_nat (length violations))
                               +:+ " tag violations")) |}
          else {| stdout := stdout; stderr := stderr; err := None |}
      end
  end.

End main.

(** ** Vocabulary of the specification *)

Module spec.

(** The violation [checkGlobalRequiredTags] reports for a missing name. *)
Definition globalViolation (resource : parser.Resource) (name : string) : validator.Violation :=
  {| validator.Rule := "global-required-tags";
     validator.Description := "Global required tags";
     validator.Resource := resource;
     validator.Message := "Missing required tag: " +:+ name |}.

(** A violation of [rule] on [resource] with the message [message]. *)
Definition ruleViolation (resource : parser.Resource) (rule : config.Rule)
    (message : string) : validator.Violation :=
  {| validator.Rule := config.Name rule;
     validator.Description := config.Description rule;
     validator.Resource := resource;
     validator.Message := message |}.

Definition constraintMessage (constraint : config.TagConstraint) (value : string) : string :=
  "Invalid value for tag " +:+ config.ctTag constraint +:+ ": '" +:+ value
  +:+ "'. Allowed values: " +:+ golang.Join (config.AllowedValues constraint) ", ".

Definition patternMessage (tagName : string) (pattern : config.TagPattern) : string :=
  "Tag name '" +:+ tagName +:+ "' does not match pattern: " +:+ config.Message pattern.

(** Gate (i): the rule names no resource types, or names the type of the
    resource. *)
Definition type_gate (resource : parser.Resource) (rule : config.Rule) : Prop :=
  config.ResourceTypes rule = [] ∨ parser.Type_ resource ∈ config.ResourceTypes rule.

(** Gate (ii): the rule has no condition, or the resource carries the
    condition's tag with exactly the condition's value. *)
Definition condition_gate (resource : parser.Resource) (rule : config.Rule) : Prop :=
  match config.Condition_ rule with
  | None => True
  | Some condition =>
      parser.Tags resource !! config.Tag condition = Some (config.Value condition)
  end.

Definition applicable (resource : parser.Resource) (rule : config.Rule) : Prop :=
  type_gate resource rule ∧ condition_gate resource rule.

#[global] Instance applicable_dec resource rule : Decision (applicable resource rule).
Proof.
  unfold applicable, type_gate, condition_gate.
  destruct (config.Condition_ rule); apply _.
Defined.

(** The constraint is violated with [value]: its tag is present with
    that value, which is none of the allowed ones. *)
Definition constraint_violated (resource : parser.Resource)
    (constraint : config.TagConstraint) (value : string) : Prop :=
  parser.Tags resource !! config.ctTag constraint = Some value
  ∧ value ∉ config.AllowedValues constraint.

(** The pairs of the cross product of tag names and patterns that fail:
    the pattern does not match the name. *)
Definition failing_pairs (names : list string) (patterns : list config.TagPattern)
    : list (string * config.TagPattern) :=
  filter (λ pair, config.Validate pair.2 pair.1 = false) (list_prod names patterns).

(** What one constraint contributes to the constraint check. *)
Definition constraintViolations (resource : parser.Resource) (rule : config.Rule)
    (constraint : config.TagConstraint) : list validator.Violation :=
  match parser.Tags resource !! config.ctTag constraint with
  | Some value =>
      if validator.isValueAllowed value (config.AllowedValues constraint) then []
      else [ruleViolation resource rule (constraintMessage constraint value)]
  | None => []
  end.

(** What one visited tag name contributes to the pattern check. *)
Definition patternViolations (resource : parser.Resource) (rule : config.Rule)
    (tagName : string) : list validator.Violation :=
  (λ pattern, ruleViolation resource rule (patternMessage tagName pattern)) <$>
    filter (λ pattern, config.Validate pattern tagName = false) (config.TagPatterns rule).

(** The violation reported for a failing pair. *)
Definition pairViolation (resource : parser.Resource) (rule : config.Rule)
    (pair : string * config.TagPattern) : validator.Violation :=
  ruleViolation resource rule (patternMessage pair.1 pair.2).

(** The violations of the three checks that precede the pattern check. *)
Definition beforePatterns (resource : parser.Resource) (rule : config.Rule)
    : list validator.Violation :=
  validator.checkTagConstraints resource rule
    (validator.checkForbiddenTags resource rule
       (validator.checkRequiredTags resource rule [])).

(** What one resource contributes to the output of [Validate], the
    [i]-th of the run. *)
Definition resourceViolations (order : nat → list string) (cfg : config.Config)
    (resource : parser.Resource) : list validator.Violation :=
  if decide (parser.Type_ resource ∈ config.IgnoreResourceTypes (config.Global_ cfg)) then []
  else
    (globalViolation resource <$>
       filter (λ name, parser.Tags resource !! name = None)
              (config.AlwaysRequiredTags (config.Global_ cfg)))
    ++ concat (imap (λ j rule, validator.checkRule (order j) resource rule) (config.Rules cfg)).

(** *** Plan extractor *)

(** The identity (Type, Name) of the resource extracted from a planned
    resource, if one is extracted. *)
Definition identity (planned : plan.PlannedResource) (filename : string)
    : option (string * string) :=
  (λ resource, (parser.Type_ resource, parser.Name resource)) <$>
    plan.convertPlannedResource planned filename.

Definition noMatch (segment : string) : Prop := plan.isResourceType segment = false.

(** The search loop of [convertPlannedResource] read on the list of
    segments: the first segment, other than the last, that is a resource
    type, with the segment after it. *)
Fixpoint firstTypeAndName (segments : list string) : option (string * string) :=
  match segments with
  | segment :: (name :: _) as rest =>
      if plan.isResourceType segment then Some (segment, name)
      else firstTypeAndName rest
  | _ => None
  end.

(** The final two segments. *)
Definition lastTwo (segments : list string) : string * string :=
  (golang.index segments (length segments - 2), golang.index segments (length segments - 1)).

(** The identity [convertPlannedResource] settles on for a list of at
    least two segments. *)
Definition chosenIdentity (segments : list string) : string * string :=
  match firstTypeAndName segments with
  | Some (type, name) =>
      if String.eqb type "" || String.eqb name "" then lastTwo segments
      else (type, name)
  | None => lastTwo segments
  end.

(** The identity derivation in the words of the specification: the
    first segment that matches the allow-list, scanning left to right,
    is the type and the segment that follows it the name; when no
    segment matches, the final two segments; nothing for fewer than two
    segments. *)
Fixpoint firstMatching (segments : list string) : option (string * string) :=
  match segments with
  | [] => None
  | segment :: rest =>
      if plan.isResourceType segment then Some (segment, hd "" rest)
      else firstMatching rest
  end.

Definition identity_as_specified (address : string) : option (string * string) :=
  let segments := golang.Split address "."%char in
  if (length segments <? 2)%nat then None
  else
    match firstMatching segments with
    | Some found => Some found
    | None => Some (lastTwo segments)
    end.

(** The string-valued entries of the object under a field of the value
    map; none when the field is absent or not an object. *)
Definition asString (v : plan.JSON) : option string :=
  match v with
  | plan.JString s => Some s
  | _ => None
  end.

Definition stringEntries (field : option plan.JSON) : gmap string string :=
  match field with
  | Some (plan.JObject t) => omap asString t
  | _ => ∅
  end.

(** The range order given for a field is one of the object under it. *)
Definition field_order (field : option plan.JSON) (keys : list string) : Prop :=
  match field with
  | Some (plan.JObject t) => golang.is_range_order t keys
  | _ => True
  end.

#[global] Instance field_order_dec field keys : Decision (field_order field keys).
Proof. destruct field as [[]|]; apply _. Defined.

(** The synthetic location of a resource of the plan [filename]. *)
Definition planLocation (filename : string) : hcl.Range :=
  {| hcl.Filename := filename;
     hcl.Start := {| hcl.Line := 1; hcl.Column := 1; hcl.Byte := 0 |};
     hcl.End_ := {| hcl.Line := 1; hcl.Column := 1; hcl.Byte := 0 |} |}.

(** What processing the modules of a plan preserves of the result:
    every resource satisfies [P] and the errors are [errors]. *)
Definition kept (P : parser.Resource → Prop) (errors : list golang.error)
    (result : parser.ParseResult) : Prop :=
  Forall P (parser.Resources result) ∧ parser.Errors result = errors.

(** *** Source extractor *)

(** The blocks of a body that [parseFile] turns into resources. *)
Definition resource_block (block : hclsyntax.Block) : Prop :=
  hclsyntax.Type_ block = "resource" ∧ (2 ≤ length (hclsyntax.Labels block))%nat.

#[global] Instance resource_block_dec block : Decision (resource_block block).
Proof. unfold resource_block. apply _. Defined.

(** The resource [parseFile] builds from a block of the file. *)
Definition blockResource (filename : string) (block : hclsyntax.Block) : parser.Resource :=
  {| parser.Type_ := golang.index (hclsyntax.Labels block) 0;
     parser.Name := golang.index (hclsyntax.Labels block) 1;
     parser.Tags := source.extractTags (hclsyntax.Body_ block);
     parser.Location := hclsyntax.DefRange block;
     parser.File := filename |}.

(** The entries of all walks that are handed to [parseFile]: the paths
    ending in ".tf" that are not directories. *)
Definition tf_file (entry : source.WalkEntry) : Prop :=
  golang.HasSuffix (source.filePath entry) ".tf" = true ∧ source.IsDir entry = false.

#[global] Instance tf_file_dec entry : Decision (tf_file entry).
Proof. unfold tf_file. apply _. Defined.

Definition tfFiles (walks : list (list source.WalkEntry)) : list string :=
  source.filePath <$> filter tf_file (concat walks).

(** What one file contributes to the resources and to the errors. *)
Definition fileResources (files : source.Files) (path : string) : list parser.Resource :=
  match source.parseFile files path with
  | inr resources => resources
  | inl _ => []
  end.

Definition fileErrors (files : source.Files) (path : string) : list golang.error :=
  match source.parseFile files path with
  | inr _ => []
  | inl cause => [golang.wrapError (path +:+ ": " +:+ golang.Error cause) cause]
  end.

End spec.

(** ** Further vocabulary: compliance, traversal, reports *)

Module props.

(** The resource passes every check of the rule: the required tags are
    keys of its tags, the forbidden tags are not, every constraint whose
    tag is present has an allowed value, and every pattern matches every
    tag name. *)
Definition compliant (resource : parser.Resource) (rule : config.Rule) : Prop :=
  (∀ name, name ∈ config.RequiredTags rule → is_Some (parser.Tags resource !! name))
  ∧ (∀ name, name ∈ config.ForbiddenTags rule → parser.Tags resource !! name = None)
  ∧ (∀ constraint value,
       constraint ∈ config.TagConstraints rule →
       parser.Tags resource !! config.ctTag constraint = Some value →
       value ∈ config.AllowedValues constraint)
  ∧ (∀ name pattern,
       is_Some (parser.Tags resource !! name) →
       pattern ∈ config.TagPatterns rule →
       config.Validate pattern name = true).

(** The resource passes the global policy and every rule that applies to
    it, or its type is exempt. *)
Definition passes (cfg : config.Config) (resource : parser.Resource) : Prop :=
  parser.Type_ resource ∈ config.IgnoreResourceTypes (config.Global_ cfg)
  ∨ ((∀ name, name ∈ config.AlwaysRequiredTags (config.Global_ cfg) →
              is_Some (parser.Tags resource !! name))
     ∧ (∀ rule, rule ∈ config.Rules cfg →
                spec.applicable resource rule → compliant resource rule)).


(** *** Plan extractor *)

(** The planned resources of a child module in the order of the
    traversal: its own, then those of its child modules, each in turn. *)
Fixpoint moduleResources (module : plan.ChildModule) : list plan.PlannedResource :=
  match module with
  | plan.mkChildModule _ resources childModules =>
      resources ++ concat (moduleResources <$> childModules)
  end.

Definition planResources (root : plan.RootModule) : list plan.PlannedResource :=
  plan.Resources root ++ concat (moduleResources <$> plan.ChildModules root).

(** The planned resource with another address. *)
Definition withAddress (address : string) (planned : plan.PlannedResource)
    : plan.PlannedResource :=
  {| plan.Address := address;
     plan.Type_ := plan.Type_ planned;
     plan.Name := plan.Name planned;
     plan.Values := plan.Values planned;
     plan.ModulePath := plan.ModulePath planned |}.

(** The byte [c] occurs in [s]. *)
Fixpoint occurs (c : ascii) (s : string) : Prop :=
  match s with
  | EmptyString => False
  | String c' rest => c' = c ∨ occurs c rest
  end.

(** *** Source extractor *)

(** The entries of an object constructor that [extractTagsFromExpression]
    keeps, in source order: those with a static key and a literal string
    value. *)
Definition staticEntry (item : hclsyntax.Expression * hclsyntax.Expression)
    : option (string * string) :=
  match source.keyOf item.1, source.getStringValue item.2 with
  | Some key, Some val => Some (key, val)
  | _, _ => None
  end.

Definition staticEntries (Items : list (hclsyntax.Expression * hclsyntax.Expression))
    : list (string * string) :=
  omap staticEntry Items.



(** The parse of the file at [path] fails. *)
Definition parseFails (files : source.Files) (path : string) : bool :=
  match source.parseFile files path with
  | inl _ => true
  | inr _ => false
  end.

(** *** Configuration *)

(** The pattern compiles. *)
Definition compiles (Compile : config.Compiler) (pattern : config.TagPattern) : Prop :=
  ∃ compiled, Compile (config.Pattern pattern) = inr compiled.

(** [loaded] is [pattern] with its compiled expression. *)
Definition compiled (Compile : config.Compiler) (pattern loaded : config.TagPattern) : Prop :=
  config.Pattern loaded = config.Pattern pattern
  ∧ config.Message loaded = config.Message pattern
  ∧ ∃ matcher,
      Compile (config.Pattern pattern) = inr matcher
      ∧ config.regex loaded = Some matcher
      ∧ ∀ tagName, config.Validate loaded tagName = matcher tagName.

(** [loaded] is [rule] with its patterns compiled. *)
Definition loadedRule (Compile : config.Compiler) (rule loaded : config.Rule) : Prop :=
  config.Name loaded = config.Name rule
  ∧ config.Description loaded = config.Description rule
  ∧ config.RequiredTags loaded = config.RequiredTags rule
  ∧ config.ForbiddenTags loaded = config.ForbiddenTags rule
  ∧ config.Condition_ loaded = config.Condition_ rule
  ∧ config.ResourceTypes loaded = config.ResourceTypes rule
  ∧ config.TagConstraints loaded = config.TagConstraints rule
  ∧ Forall2 (compiled Compile) (config.TagPatterns rule) (config.TagPatterns loaded).

(** *** Reports *)

(** The texts written one after the other. *)
Definition joined (texts : list string) : string := fold_right String.append "" texts.

(** The number of violations of the rule named [rule]. *)
Definition ruleCount (violations : list validator.Violation) (rule : string) : Z :=
  Z.of_nat (length (filter (λ v, validator.Rule v = rule) violations)).

(** The head of the summary, and its line for a rule. *)
Definition summaryHeader (violations : list validator.Violation) : string :=
  joined [ golang.Repeat "-" 50 +:+ golang.newline;
           "Summary:" +:+ golang.newline;
           "Total violations: " +:+ golang.itoa (Z.of_nat (length violations))
             +:+ golang.newline;
           golang.newline +:+ "Violations by rule:" +:+ golang.newline ].

Definition summaryLine (violations : list validator.Violation) (rule : string) : string :=
  "  " +:+ rule +:+ ": " +:+ golang.itoa (ruleCount violations rule) +:+ golang.newline.

(** The line of a violation's resource. *)
Definition line (v : validator.Violation) : Z :=
  hcl.Line (hcl.Start (parser.Location (validator.Resource v))).

(** The text [reportViolation] writes for a violation. *)
Definition violationText (v : validator.Violation) : string :=
  joined
    ([ "  Line " +:+ golang.itoa (line v) +:+ ": "
         +:+ parser.Type_ (validator.Resource v) +:+ "."
         +:+ parser.Name (validator.Resource v) +:+ golang.newline;
       "    Rule: " +:+ validator.Rule v +:+ golang.newline;
       "    Message: " +:+ validator.Message v +:+ golang.newline ]
     ++ if decide (validator.Description v = "") then []
        else ["    Description: " +:+ validator.Description v +:+ golang.newline]).

(** The violations of the input whose resource is in [file], in input
    order. *)
Definition inFile (violations : list validator.Violation) (file : string)
    : list validator.Violation :=
  filter (λ v, parser.File (validator.Resource v) = file) violations.

(** The head of the report, and its block for a file whose violations
    are listed in the order [group]. *)
Definition reportHeader (violations : list validator.Violation) : string :=
  "❌ Found " +:+ golang.itoa (Z.of_nat (length violations))
  +:+ " tag violation(s):" +:+ golang.newline +:+ golang.newline.

Definition fileBlock (file : string) (group : list validator.Violation) : string :=
  joined ([ "📄 " +:+ file +:+ golang.newline ] ++ (violationText <$> group)
          ++ [ golang.newline ]).

(** The contract of [sort.Slice] with the comparison [less]: the slice
    is rearranged so that no element is less than an earlier one. *)
Definition sorts_by_line (Slice : list validator.Violation → list validator.Violation)
    : Prop :=
  ∀ l, Slice l ≡ₚ l ∧ StronglySorted (λ a b, ¬ reporter.less b a) (Slice l).

(** *** The command *)

(** Two worlds that differ at most in the source files and the walks. *)
Definition same_but_sources (world1 world2 : main.World) : Prop :=
  main.readConfig world1 = main.readConfig world2
  ∧ main.Compile world1 = main.Compile world2
  ∧ main.readPlan world1 = main.readPlan world2
  ∧ main.tagOrders world1 = main.tagOrders world2
  ∧ main.fileOrder world1 = main.fileOrder world2
  ∧ main.ruleOrder world1 = main.ruleOrder world2
  ∧ main.Slice world1 = main.Slice world2.

(** The text written to the standard error for the recorded errors. *)
Definition errorsText (errors : list golang.error) : string :=
  joined ([ "⚠️  Parsing errors encountered:" +:+ golang.newline ]
          ++ ((λ e, "  - " +:+ golang.Error e +:+ golang.newline) <$> errors)
          ++ [ golang.newline ]).

(** The text [Report] writes when there is no violation. *)
Definition allClear : string := "✅ No tag violations found!" +:+ golang.newline.

End props.

(** ** The scenarios of the specification and of the repository's tests *)

Module examples.

(** Go's zero value of [hcl.Range]. *)
Definition zeroRange : hcl.Range :=
  {| hcl.Filename := "";
     hcl.Start := {| hcl.Line := 0; hcl.Column := 0; hcl.Byte := 0 |};
     hcl.End_ := {| hcl.Line := 0; hcl.Column := 0; hcl.Byte := 0 |} |}.

(** [parser.Resource{Tags: tags}]. *)
Definition tagged (tags : gmap string string) : parser.Resource :=
  {| parser.Type_ := ""; parser.Name := ""; parser.Tags := tags;
     parser.Location := zeroRange; parser.File := "" |}.

Definition noGlobal : config.Global :=
  {| config.AlwaysRequiredTags := []; config.IgnoreResourceTypes := [] |}.

(** Combined scenario. *)
Definition combinedResource : parser.Resource := tagged {["Test" := "true"]}.

Definition combinedConfig : config.Config :=
  {| config.Rules :=
       [ {| config.Name := ""; config.Description := "";
            config.RequiredTags := ["Name"]; config.ForbiddenTags := [];
            config.Condition_ := None; config.ResourceTypes := [];
            config.TagConstraints := []; config.TagPatterns := [] |};
         {| config.Name := ""; config.Description := "";
            config.RequiredTags := []; config.ForbiddenTags := ["Test"];
            config.Condition_ := None; config.ResourceTypes := [];
            config.TagConstraints := []; config.TagPatterns := [] |} ];
     config.Global_ :=
       {| config.AlwaysRequiredTags := ["Owner"]; config.IgnoreResourceTypes := [] |} |}.

(** Condition gating. *)
Definition devResource : parser.Resource := tagged {["Environment" := "dev"]}.

Definition prodOwnerRule : config.Rule :=
  {| config.Name := ""; config.Description := "";
     config.RequiredTags := ["Owner"]; config.ForbiddenTags := [];
     config.Condition_ := Some {| config.Tag := "Environment"; config.Value := "prod" |};
     config.ResourceTypes := [];
     config.TagConstraints := []; config.TagPatterns := [] |}.

(** Value constraint exactness. *)
Definition environmentConstraint : config.TagConstraint :=
  {| config.ctTag := "Environment"; config.AllowedValues := ["dev"; "staging"; "prod"] |}.

Definition constraintRule (constraint : config.TagConstraint) : config.Rule :=
  {| config.Name := "env-values"; config.Description := "Allowed environments";
     config.RequiredTags := []; config.ForbiddenTags := [];
     config.Condition_ := None; config.ResourceTypes := [];
     config.TagConstraints := [constraint]; config.TagPatterns := [] |}.

(** The matcher compiled from the pattern [^[A-Z][a-zA-Z0-9]*$] of the
    validator's test "tag name patterns". *)
Definition isUpper (c : ascii) : bool := Ascii.leb "A" c && Ascii.leb c "Z".

Definition isAlnum (c : ascii) : bool :=
  isUpper c || (Ascii.leb "a" c && Ascii.leb c "z") || (Ascii.leb "0" c && Ascii.leb c "9").

Fixpoint allAlnum (s : string) : bool :=
  match s with
  | EmptyString => true
  | String c rest => isAlnum c && allAlnum rest
  end.

Definition matchUpperCamel (s : string) : bool :=
  match s with
  | EmptyString => false
  | String c rest => isUpper c && allAlnum rest
  end.

Definition uppercasePattern : config.TagPattern :=
  {| config.Pattern := "^[A-Z][a-zA-Z0-9]*$";
     config.Message := "Tag names must start with uppercase";
     config.regex := Some matchUpperCamel |}.

Definition namingRule : config.Rule :=
  {| config.Name := "Tag Naming Convention";
     config.Description := "Tags must follow naming convention";
     config.RequiredTags := []; config.ForbiddenTags := [];
     config.Condition_ := None; config.ResourceTypes := [];
     config.TagConstraints := []; config.TagPatterns := [uppercasePattern] |}.

(** Pattern cross product. *)
Definition mixedCaseResource : parser.Resource :=
  tagged {["Name" := "x"; "environment" := "prod"]}.

(** A resource with two tag names that both fail the naming rule, and
    the two orders in which a range statement may visit them. *)
Definition lowercaseResource : parser.Resource :=
  tagged {["env" := "prod"; "owner" := "team-a"]}.

Definition namingConfig : config.Config :=
  {| config.Rules := [namingRule]; config.Global_ := noGlobal |}.

Definition envFirst : validator.RangeOrders := λ _ _, ["env"; "owner"].

Definition ownerFirst : validator.RangeOrders := λ _ _, ["owner"; "env"].

(** [PlannedResource{Address: address, Values: map[string]interface{}{}}]. *)
Definition planned (address : string) : plan.PlannedResource :=
  {| plan.Address := address; plan.Type_ := ""; plan.Name := "";
     plan.Values := ∅; plan.ModulePath := [] |}.

(** A decoded plan whose root module holds the resources with the given
    addresses and no child module. *)
Definition flatPlan (addresses : list string) : plan.PlanFile :=
  plan.Decoded
    {| plan.PlannedValues_ :=
         {| plan.RootModule_ :=
              {| plan.Resources := planned <$> addresses;
                 plan.ChildModules := [] |} |} |}.

(** A decoded plan with nested child modules. *)
Definition nestedPlan : plan.PlanFile :=
  plan.Decoded
    {| plan.PlannedValues_ :=
         {| plan.RootModule_ :=
              {| plan.Resources := [planned "aws_instance.web"; planned "invalid"];
                 plan.ChildModules :=
                   [ plan.mkChildModule "module.network"
                       [planned "module.network.aws_vpc.main"]
                       [ plan.mkChildModule "module.network.module.subnets"
                           [planned "module.network.module.subnets.aws_subnet.private"]
                           [] ];
                     plan.mkChildModule "module.data"
                       [planned "module.data.data.aws_ami.ubuntu"] [] ] |} |} |}.

(** The value maps of the test [TestExtractTagsFromValues] with both
    fields, and with a non-object [tags] field. *)
Definition bothFields : gmap string plan.JSON :=
  {[ "tags" := plan.JObject {[ "Name" := plan.JString "a";
                               "Count" := plan.JBool true ]};
     "tags_all" := plan.JObject {[ "Name" := plan.JString "b";
                                   "Environment" := plan.JString "dev" ]} ]}.

Definition scalarTags : gmap string plan.JSON :=
  {[ "tags" := plan.JString "invalid";
     "tags_all" := plan.JObject {[ "Owner" := plan.JString "team-a" ]} ]}.

(** Per-file isolation: a directory with two well-formed files, one
    malformed file and a file of another kind. *)
Definition tagsAttribute (name value : string) : gmap string hclsyntax.Attribute :=
  {[ "tags" :=
       {| hclsyntax.Name := "tags";
          hclsyntax.Expr :=
            hclsyntax.ObjectConsExpr
              [ (hclsyntax.ObjectConsKeyExpr
                   (hclsyntax.ScopeTraversalExpr [hclsyntax.TraverseRoot name]),
                 hclsyntax.TemplateExpr
                   [hclsyntax.LiteralValueExpr (cty.StringVal value)]) ] |} ]}.

Definition blockRange (filename : string) : hcl.Range :=
  {| hcl.Filename := filename;
     hcl.Start := {| hcl.Line := 2; hcl.Column := 1; hcl.Byte := 1 |};
     hcl.End_ := {| hcl.Line := 2; hcl.Column := 30; hcl.Byte := 30 |} |}.

Definition resourceFile (filename type name tag value : string) : hclsyntax.ParsedFile :=
  {| hclsyntax.FileBody_ :=
       hclsyntax.SyntaxBody
         (hclsyntax.mkBody ∅
            [ hclsyntax.mkBlock "resource" [type; name]
                (hclsyntax.mkBody (tagsAttribute tag value) []) (blockRange filename);
              hclsyntax.mkBlock "variable" ["region"] (hclsyntax.mkBody ∅ []) 
                (blockRange filename) ]);
     hclsyntax.HasErrors := false;
     hclsyntax.DiagsError := "" |}.

Definition malformedFile : hclsyntax.ParsedFile :=
  {| hclsyntax.FileBody_ := hclsyntax.SyntaxBody (hclsyntax.mkBody ∅ []);
     hclsyntax.HasErrors := true;
     hclsyntax.DiagsError := "invalid.tf:3,3-4: Invalid expression" |}.

Definition threeFiles : source.Files :=
  λ path,
    if String.eqb path "dir/a.tf" then
      resourceFile "dir/a.tf" "aws_instance" "good" "Name" "valid"
    else if String.eqb path "dir/z.tf" then
      resourceFile "dir/z.tf" "aws_vpc" "main" "Level" "module"
    else malformedFile.

Definition threeFilesWalk : list (list source.WalkEntry) :=
  [ [ {| source.filePath := "dir"; source.IsDir := true; source.err := None |};
      {| source.filePath := "dir/README.md"; source.IsDir := false; source.err := None |};
      {| source.filePath := "dir/a.tf"; source.IsDir := false; source.err := None |};
      {| source.filePath := "dir/invalid.tf"; source.IsDir := false; source.err := None |};
      {| source.filePath := "dir/z.tf"; source.IsDir := false; source.err := None |} ] ].

(** The same directory seen with another content of the file that is not
    a source file. *)
Definition threeFilesOther : source.Files :=
  λ path,
    if String.eqb path "dir/README.md" then
      resourceFile "dir/README.md" "aws_instance" "hidden" "Name" "none"
    else threeFiles path.

(** A walk that meets an unreadable directory after the first file. *)
Definition permissionDenied : golang.error :=
  golang.errorString "open dir/private: permission denied".

Definition brokenWalk : list (list source.WalkEntry) :=
  [ [ {| source.filePath := "dir"; source.IsDir := true; source.err := None |};
      {| source.filePath := "dir/a.tf"; source.IsDir := false; source.err := None |};
      {| source.filePath := "dir/private"; source.IsDir := true;
         source.err := Some permissionDenied |};
      {| source.filePath := "dir/z.tf"; source.IsDir := false; source.err := None |} ];
    [ {| source.filePath := "other/z.tf"; source.IsDir := false; source.err := None |} ] ].

(** A compiler that knows the pattern of the naming rule and rejects an
    unbalanced bracket. *)
Definition sampleCompile : config.Compiler :=
  λ pattern,
    if String.eqb pattern "^[A-Z][a-zA-Z0-9]*$" then inr matchUpperCamel
    else if String.eqb pattern "[" then
      inl (golang.errorString "error parsing regexp: missing closing ]: `[`")
    else inr (λ _, true).

(** The naming rule as decoded from the file, before compilation. *)
Definition decodedNamingRule : config.Rule :=
  {| config.Name := "Tag Naming Convention";
     config.Description := "Tags must follow naming convention";
     config.RequiredTags := []; config.ForbiddenTags := [];
     config.Condition_ := None; config.ResourceTypes := [];
     config.TagConstraints := [];
     config.TagPatterns :=
       [ {| config.Pattern := "^[A-Z][a-zA-Z0-9]*$";
            config.Message := "Tag names must start with uppercase";
            config.regex := None |} ] |}.

(** A rule with a pattern that does not compile, after one that does. *)
Definition brokenRule : config.Rule :=
  {| config.Name := "broken"; config.Description := "";
     config.RequiredTags := []; config.ForbiddenTags := [];
     config.Condition_ := None; config.ResourceTypes := [];
     config.TagConstraints := [];
     config.TagPatterns :=
       [ {| config.Pattern := "^x"; config.Message := "first"; config.regex := None |};
         {| config.Pattern := "["; config.Message := "second"; config.regex := None |};
         {| config.Pattern := "^y"; config.Message := "third"; config.regex := None |} ] |}.

(** A sort by line that meets the contract of [sort.Slice]. *)
Definition lineSort : list validator.Violation → list validator.Violation :=
  merge_sort (λ a b, Is_true (props.line a <=? props.line b)%Z).

(** Violations of three rules in two files. *)
Definition violationAt (rule file : string) (line : Z) : validator.Violation :=
  {| validator.Rule := rule;
     validator.Description := "";
     validator.Resource :=
       {| parser.Type_ := "aws_instance"; parser.Name := "web"; parser.Tags := ∅;
          parser.Location :=
            {| hcl.Filename := file;
               hcl.Start := {| hcl.Line := line; hcl.Column := 1; hcl.Byte := 0 |};
               hcl.End_ := {| hcl.Line := line; hcl.Column := 1; hcl.Byte := 0 |} |};
          parser.File := file |};
     validator.Message := "Missing required tag: Owner" |}.

Definition sampleViolations : list validator.Violation :=
  [ violationAt "z-rule" "b.tf" 5; violationAt "a-rule" "a.tf" 9;
    violationAt "z-rule" "b.tf" 2 ].

(** Runs of the command: on the directory with one malformed file and a
    configuration without rules, and on the nested plan. *)
Definition emptyConfig : config.Config :=
  {| config.Rules := []; config.Global_ := noGlobal |}.

Definition sourceWorld : main.World :=
  {| main.readConfig := λ _, config.Decoded emptyConfig;
     main.Compile := sampleCompile;
     main.readPlan := λ _, plan.ReadFailed (golang.errorString "no such file");
     main.files := threeFiles;
     main.walk := λ _, concat threeFilesWalk;
     main.tagOrders := λ _ _, [];
     main.fileOrder := [];
     main.ruleOrder := [];
     main.Slice := lineSort |}.

Definition planWorld : main.World :=
  {| main.readConfig := λ _, config.Decoded combinedConfig;
     main.Compile := sampleCompile;
     main.readPlan := λ _, nestedPlan;
     main.files := threeFiles;
     main.walk := λ _, concat threeFilesWalk;
     main.tagOrders := λ _ _, [];
     main.fileOrder := ["plan.json"];
     main.ruleOrder := ["global-required-tags"; ""];
     main.Slice := lineSort |}.

Definition otherPlanWorld : main.World :=
  {| main.readConfig := λ _, config.Decoded combinedConfig;
     main.Compile := sampleCompile;
     main.readPlan := λ _, nestedPlan;
     main.files := threeFilesOther;
     main.walk := λ _, concat brokenWalk;
     main.tagOrders := λ _ _, [];
     main.fileOrder := ["plan.json"];
     main.ruleOrder := ["global-required-tags"; ""];
     main.Slice := lineSort |}.

Definition sourceFlags : main.Flags :=
  {| main.configFile := "tag-rules.yaml"; main.showSummary := false; main.planFile := "" |}.

Definition planFlags : main.Flags :=
  {| main.configFile := "tag-rules.yaml"; main.showSummary := true;
     main.planFile := "plan.json" |}.

End examples.

(** * Properties *)

(** ** Loops that append to an accumulator *)

Section loops.
Context {A B : Type}.

Lemma fold_left_pointwise (f g : B → A → B) :
  (∀ acc x, f acc x = g acc x) → ∀ l acc, fold_left f l acc = fold_left g l acc.
Proof.
  intros Hfg l. induction l as [|x l IH]; intros acc; simpl; [done|].
  by rewrite Hfg, IH.
Qed.

Lemma fold_left_append (f : list B → A → list B) (g : A → list B) :
  (∀ acc x, f acc x = acc ++ g x) →
  ∀ l acc, fold_left f l acc = acc ++ concat (g <$> l).
Proof.
  intros Hf l. induction l as [|x l IH]; intros acc; simpl.
  - by rewrite app_nil_r.
  - rewrite IH, Hf. by rewrite <- app_assoc.
Qed.

Lemma fold_left_append_indexed (g : nat → A → list B) :
  ∀ l acc n,
    fold_left (λ '(acc, i) x, (acc ++ g i x, S i)) l (acc, n)
    = (acc ++ concat (imap (λ i, g (n + i)) l), n + length l).
Proof.
  intros l. induction l as [|x l IH]; intros acc n; simpl.
  - by rewrite app_nil_r, Nat.add_0_r.
  - rewrite IH. rewrite Nat.add_0_r, <- app_assoc. f_equal; [|lia].
    do 3 f_equal. apply imap_ext. intros i y _. simpl. f_equal. lia.
Qed.
End loops.

(** ** The membership loops *)

Lemma shouldIgnoreResource_loop_elem_of ignoredTypes resourceType :
  validator.shouldIgnoreResource_loop ignoredTypes resourceType = true
  ↔ resourceType ∈ ignoredTypes.
Proof.
  induction ignoredTypes as [|ignored rest IH]; simpl.
  - split; [done | by intros ?%elem_of_nil].
  - rewrite elem_of_cons. destruct (String.eqb_spec resourceType ignored) as [->|Hne].
    + split; [by left | done].
    + rewrite IH. split; [by right | by intros [?|?]; [congruence|]].
Qed.

Lemma isResourceTypeInList_elem_of resourceType list :
  validator.isResourceTypeInList resourceType list = true ↔ resourceType ∈ list.
Proof.
  induction list as [|t rest IH]; simpl.
  - split; [done | by intros ?%elem_of_nil].
  - rewrite elem_of_cons. destruct (String.eqb_spec t resourceType) as [->|Hne].
    + split; [by left | done].
    + rewrite IH. split; [by right | by intros [?|?]; [congruence|]].
Qed.

Lemma isValueAllowed_elem_of value allowedValues :
  validator.isValueAllowed value allowedValues = true ↔ value ∈ allowedValues.
Proof.
  induction allowedValues as [|allowed rest IH]; simpl.
  - split; [done | by intros ?%elem_of_nil].
  - rewrite elem_of_cons. destruct (String.eqb_spec value allowed) as [->|Hne].
    + split; [by left | done].
    + rewrite IH. split; [by right | by intros [?|?]; [congruence|]].
Qed.

Lemma isValueAllowed_false value allowedValues :
  validator.isValueAllowed value allowedValues = false ↔ value ∉ allowedValues.
Proof.
  rewrite <- isValueAllowed_elem_of. by destruct (validator.isValueAllowed _ _).
Qed.

Lemma checkCondition_true resource condition :
  validator.checkCondition resource condition = true
  ↔ parser.Tags resource !! config.Tag condition = Some (config.Value condition).
Proof.
  unfold validator.checkCondition.
  destruct (parser.Tags resource !! config.Tag condition) as [value|]; [|done].
  destruct (String.eqb_spec value (config.Value condition)) as [->|Hne]; [done|].
  split; [done | congruence].
Qed.

(** ** The check loops as contributions appended in order *)

Lemma concat_guarded_singletons {A B : Type} (P : A → Prop) `{!∀ x, Decision (P x)}
    (f : A → B) (l : list A) :
  concat ((λ x, if decide (P x) then [f x] else []) <$> l) = f <$> filter P l.
Proof.
  induction l as [|x l IH]; [done|].
  rewrite filter_cons. csimpl. case_decide; csimpl; by rewrite IH.
Qed.

Lemma checkGlobalRequiredTags_filter cfg resource :
  validator.checkGlobalRequiredTags cfg resource
  = spec.globalViolation resource <$>
      filter (λ name, parser.Tags resource !! name = None)
             (config.AlwaysRequiredTags (config.Global_ cfg)).
Proof.
  unfold validator.checkGlobalRequiredTags.
  rewrite (fold_left_append _
    (λ name, if decide (parser.Tags resource !! name = None)
             then [spec.globalViolation resource name] else [])).
  - simpl. apply (concat_guarded_singletons _ (spec.globalViolation resource)).
  - intros acc name. case_decide as Hname.
    + by rewrite Hname.
    + destruct (parser.Tags resource !! name); [by rewrite app_nil_r | done].
Qed.

Lemma checkRequiredTags_filter resource rule violations :
  validator.checkRequiredTags resource rule violations
  = violations ++
    ((λ name, spec.ruleViolation resource rule ("Missing required tag: " +:+ name)) <$>
       filter (λ name, parser.Tags resource !! name = None) (config.RequiredTags rule)).
Proof.
  unfold validator.checkRequiredTags.
  rewrite (fold_left_append _
    (λ name, if decide (parser.Tags resource !! name = None)
             then [spec.ruleViolation resource rule ("Missing required tag: " +:+ name)]
             else [])).
  - f_equal. apply (concat_guarded_singletons _
      (λ name, spec.ruleViolation resource rule ("Missing required tag: " +:+ name))).
  - intros acc name. case_decide as Hname.
    + by rewrite Hname.
    + destruct (parser.Tags resource !! name); [by rewrite app_nil_r | done].
Qed.

Lemma checkForbiddenTags_filter resource rule violations :
  validator.checkForbiddenTags resource rule violations
  = violations ++
    ((λ name, spec.ruleViolation resource rule ("Forbidden tag found: " +:+ name)) <$>
       filter (λ name, is_Some (parser.Tags resource !! name)) (config.ForbiddenTags rule)).
Proof.
  unfold validator.checkForbiddenTags.
  rewrite (fold_left_append _
    (λ name, if decide (is_Some (parser.Tags resource !! name))
             then [spec.ruleViolation resource rule ("Forbidden tag found: " +:+ name)]
             else [])).
  - f_equal. apply (concat_guarded_singletons _
      (λ name, spec.ruleViolation resource rule ("Forbidden tag found: " +:+ name))).
  - intros acc name. case_decide as Hname.
    + by destruct Hname as [value ->].
    + destruct (parser.Tags resource !! name) eqn:E; [|by rewrite app_nil_r].
      by destruct Hname.
Qed.

Lemma checkTagConstraints_concat resource rule violations :
  validator.checkTagConstraints resource rule violations
  = violations ++ concat (spec.constraintViolations resource rule <$> config.TagConstraints rule).
Proof.
  unfold validator.checkTagConstraints.
  apply fold_left_append. intros acc constraint. unfold spec.constraintViolations.
  destruct (parser.Tags resource !! config.ctTag constraint) as [value|];
    [|by rewrite app_nil_r].
  destruct (validator.isValueAllowed value _); simpl; [by rewrite app_nil_r | done].
Qed.

Lemma rangeMap_append {V B : Type} (m : gmap string V) (g : string → list B) keys :
  ∀ acc,
    golang.rangeMap keys m (λ k _ acc, acc ++ g k) acc
    = acc ++ concat (g <$> filter (λ k, is_Some (m !! k)) keys).
Proof.
  unfold golang.rangeMap. induction keys as [|k keys IH]; intros acc; simpl.
  - by rewrite app_nil_r.
  - rewrite IH, filter_cons. case_decide as Hk.
    + destruct Hk as [v ->]. simpl. by rewrite <- app_assoc.
    + destruct (m !! k) eqn:E; [by destruct Hk|]. done.
Qed.

Lemma checkTagPatterns_concat keys resource rule violations :
  validator.checkTagPatterns keys resource rule violations
  = violations ++
    concat (spec.patternViolations resource rule <$>
              filter (λ k, is_Some (parser.Tags resource !! k)) keys).
Proof.
  unfold validator.checkTagPatterns. rewrite <- rangeMap_append.
  unfold golang.rangeMap. revert violations.
  induction keys as [|k keys IH]; intros violations; [done|]. simpl.
  destruct (parser.Tags resource !! k) as [value|]; [|apply IH].
  rewrite <- IH. f_equal.
  rewrite (fold_left_append _
    (λ pattern, if decide (config.Validate pattern k = false)
                then [spec.ruleViolation resource rule (spec.patternMessage k pattern)]
                else [])).
  - f_equal. apply (concat_guarded_singletons _
      (λ pattern, spec.ruleViolation resource rule (spec.patternMessage k pattern))).
  - intros acc pattern. case_decide as Hp.
    + by rewrite Hp.
    + destruct (config.Validate pattern k); [by rewrite app_nil_r | done].
Qed.

(** ** The applicability gates of [checkRule] *)

Lemma checkRule_applicable keys resource rule :
  spec.applicable resource rule →
  validator.checkRule keys resource rule
  = spec.beforePatterns resource rule
    ++ concat (spec.patternViolations resource rule <$>
                 filter (λ k, is_Some (parser.Tags resource !! k)) keys).
Proof.
  intros [Htype Hcond]. unfold validator.checkRule.
  assert ((0 <? length (config.ResourceTypes rule))%nat
          && negb (validator.isResourceTypeInList (parser.Type_ resource)
                     (config.ResourceTypes rule)) = false) as ->.
  { destruct Htype as [-> | Hin]; [done|].
    apply isResourceTypeInList_elem_of in Hin. rewrite Hin. apply andb_false_r. }
  unfold spec.condition_gate in Hcond.
  destruct (config.Condition_ rule) as [condition|].
  - apply checkCondition_true in Hcond. rewrite Hcond. simpl.
    apply checkTagPatterns_concat.
  - apply checkTagPatterns_concat.
Qed.

Lemma checkRule_not_applicable keys resource rule :
  ¬ spec.applicable resource rule → validator.checkRule keys resource rule = [].
Proof.
  intros Hnot. unfold validator.checkRule.
  destruct (config.ResourceTypes rule) as [|t types] eqn:Htypes; simpl.
  - destruct (config.Condition_ rule) as [condition|] eqn:Hc.
    + destruct (validator.checkCondition resource condition) eqn:Hcheck; [|done].
      destruct Hnot. split; [by left|].
      unfold spec.condition_gate. rewrite Hc. by apply checkCondition_true.
    + destruct Hnot. split; [by left|]. unfold spec.condition_gate. by rewrite Hc.
  - destruct (if String.eqb t (parser.Type_ resource) then true
              else validator.isResourceTypeInList (parser.Type_ resource) types)
      eqn:Hin; [|done]. simpl.
    assert (spec.type_gate resource rule) as Htype.
    { right. rewrite Htypes. by apply isResourceTypeInList_elem_of. }
    destruct (config.Condition_ rule) as [condition|] eqn:Hc.
    + destruct (validator.checkCondition resource condition) eqn:Hcheck; [|done].
      destruct Hnot. split; [done|].
      unfold spec.condition_gate. rewrite Hc. by apply checkCondition_true.
    + destruct Hnot. split; [done|]. unfold spec.condition_gate. by rewrite Hc.
Qed.

Lemma checkRule_no_patterns keys resource rule :
  config.TagPatterns rule = [] →
  validator.checkRule keys resource rule = validator.checkRule [] resource rule.
Proof.
  intros Hnone. destruct (decide (spec.applicable resource rule)) as [Happ|Hnot].
  - rewrite !checkRule_applicable by done. f_equal.
    unfold spec.patternViolations. rewrite Hnone. simpl.
    induction (filter _ keys) as [|k ks IH]; [done | apply IH].
  - by rewrite !checkRule_not_applicable.
Qed.

(** ** [Validate] as the contributions of the resources in input order *)

Lemma checkRules_concat order cfg resource violations :
  validator.checkRules order cfg resource violations
  = violations
    ++ concat (imap (λ j rule, validator.checkRule (order j) resource rule) (config.Rules cfg)).
Proof.
  unfold validator.checkRules.
  rewrite (fold_left_append_indexed (λ j rule, validator.checkRule (order j) resource rule)).
  done.
Qed.

Lemma Validate_concat order cfg resources :
  validator.Validate order cfg resources
  = concat (imap (λ i, spec.resourceViolations (order i) cfg) resources).
Proof.
  unfold validator.Validate.
  rewrite (fold_left_pointwise _
    (λ '(acc, i) resource, (acc ++ spec.resourceViolations (order i) cfg resource, S i))).
  - by rewrite fold_left_append_indexed.
  - intros [acc i] resource. unfold spec.resourceViolations.
    destruct (validator.shouldIgnoreResource cfg (parser.Type_ resource)) eqn:Hignore.
    + apply shouldIgnoreResource_loop_elem_of in Hignore.
      rewrite decide_True by done. by rewrite app_nil_r.
    + rewrite decide_False.
      2:{ intros Hin%shouldIgnoreResource_loop_elem_of.
          unfold validator.shouldIgnoreResource in Hignore. congruence. }
      by rewrite checkRules_concat, checkGlobalRequiredTags_filter, app_assoc.
Qed.

(** ** The pattern check as a cross product *)

Lemma filter_all {A : Type} (P : A → Prop) `{!∀ x, Decision (P x)} (l : list A) :
  Forall P l → filter P l = l.
Proof.
  induction 1 as [|x l Hx _ IH]; [done|]. by rewrite filter_cons_True, IH.
Qed.

Lemma concat_fmap_Permutation {A B : Type} (f : A → list B) (l k : list A) :
  l ≡ₚ k → concat (f <$> l) ≡ₚ concat (f <$> k).
Proof.
  induction 1 as [|x l k _ IH|x y l|l k1 k2 _ IH1 _ IH2]; csimpl.
  - done.
  - by rewrite IH.
  - rewrite !app_assoc. f_equiv. apply Permutation_app_comm.
  - by rewrite IH1.
Qed.

Lemma range_order_elements {V : Type} (m : gmap string V) keys :
  golang.is_range_order m keys → keys ≡ₚ elements (dom m).
Proof.
  intros [Hnodup Hset]. apply NoDup_Permutation; [done | apply NoDup_elements |].
  intros k. by rewrite elem_of_elements, <- Hset, elem_of_list_to_set.
Qed.

Lemma range_order_present {V : Type} (m : gmap string V) keys :
  golang.is_range_order m keys → filter (λ k, is_Some (m !! k)) keys = keys.
Proof.
  intros [_ Hset]. apply filter_all, Forall_forall. intros k Hk.
  apply elem_of_dom. rewrite <- Hset. by apply elem_of_list_to_set.
Qed.

Lemma patternViolations_failing_pairs resource rule names :
  concat (spec.patternViolations resource rule <$> names)
  = spec.pairViolation resource rule <$> spec.failing_pairs names (config.TagPatterns rule).
Proof.
  unfold spec.failing_pairs.
  induction names as [|name names IH]; [done|]. csimpl.
  rewrite filter_app, fmap_app, <- IH. f_equal.
  unfold spec.patternViolations. clear IH.
  induction (config.TagPatterns rule) as [|pattern patterns IHp]; [done|].
  csimpl. rewrite !filter_cons. simpl.
  case_decide; csimpl; by rewrite IHp.
Qed.

Lemma checkRule_pattern_block keys resource rule :
  spec.applicable resource rule →
  golang.is_range_order (parser.Tags resource) keys →
  validator.checkRule keys resource rule
  = spec.beforePatterns resource rule
    ++ (spec.pairViolation resource rule <$>
          spec.failing_pairs keys (config.TagPatterns rule)).
Proof.
  intros Happ Hkeys. rewrite checkRule_applicable by done.
  by rewrite range_order_present, patternViolations_failing_pairs.
Qed.

Lemma failing_pairs_Permutation names1 names2 patterns :
  names1 ≡ₚ names2 →
  spec.failing_pairs names1 patterns ≡ₚ spec.failing_pairs names2 patterns.
Proof.
  intros Hperm. unfold spec.failing_pairs.
  induction Hperm as [|x l k _ IH|x y l|l k1 k2 _ IH1 _ IH2]; simpl.
  - done.
  - rewrite !filter_app. by rewrite IH.
  - rewrite !filter_app, !app_assoc. f_equiv. apply Permutation_app_comm.
  - by rewrite IH1.
Qed.

(** C7. For an applicable rule, and whatever order the range statement
    visits the tag names in, the pattern check appends, after the
    violations of the three earlier checks, exactly one violation "Tag
    name '<name>' does not match pattern: <message>" for every pair of a
    tag name of the resource and a pattern of the rule that does not match
    it: the block lists the failing pairs of the visiting order, it is a
    permutation of the failing pairs of the cross product of the
    resource's tag names and the rule's patterns, and so has as many
    violations as that cross product has failing pairs. *)
Theorem TagPatterns_cross_product keys resource rule :
  spec.applicable resource rule →
  golang.is_range_order (parser.Tags resource) keys →
  ∃ block,
    validator.checkRule keys resource rule = spec.beforePatterns resource rule ++ block
    ∧ block = spec.pairViolation resource rule <$>
                spec.failing_pairs keys (config.TagPatterns rule)
    ∧ block ≡ₚ spec.pairViolation resource rule <$>
                 spec.failing_pairs (elements (dom (parser.Tags resource)))
                   (config.TagPatterns rule)
    ∧ length block
      = length (spec.failing_pairs (elements (dom (parser.Tags resource)))
                  (config.TagPatterns rule)).
Proof.
  intros Happ Hkeys. eexists. split; [by apply checkRule_pattern_block|].
  split; [done|].
  assert (spec.failing_pairs keys (config.TagPatterns rule)
          ≡ₚ spec.failing_pairs (elements (dom (parser.Tags resource)))
               (config.TagPatterns rule)) as Hperm
    by by apply failing_pairs_Permutation, range_order_elements.
  split; [by rewrite Hperm|].
  by rewrite length_fmap, Hperm.
Qed.

Lemma TagPatterns_cross_product_witness :
  spec.applicable examples.mixedCaseResource examples.namingRule
  ∧ golang.is_range_order (parser.Tags examples.mixedCaseResource) ["Name"; "environment"]
  ∧ ∃ block,
      validator.checkRule ["Name"; "environment"] examples.mixedCaseResource examples.namingRule
      = spec.beforePatterns examples.mixedCaseResource examples.namingRule ++ block
      ∧ block = spec.pairViolation examples.mixedCaseResource examples.namingRule <$>
                  spec.failing_pairs ["Name"; "environment"]
                    (config.TagPatterns examples.namingRule)
      ∧ block ≡ₚ spec.pairViolation examples.mixedCaseResource examples.namingRule <$>
                   spec.failing_pairs
                     (elements (dom (parser.Tags examples.mixedCaseResource)))
                     (config.TagPatterns examples.namingRule)
      ∧ length block
        = length (spec.failing_pairs
                    (elements (dom (parser.Tags examples.mixedCaseResource)))
                    (config.TagPatterns examples.namingRule)).
Proof.
  assert (spec.applicable examples.mixedCaseResource examples.namingRule) as Happ
    by (vm_compute; auto).
  assert (golang.is_range_order (parser.Tags examples.mixedCaseResource)
            ["Name"; "environment"]) as Hkeys
    by (apply (bool_decide_unpack _); vm_compute; exact I).
  split; [exact Happ|]. split; [exact Hkeys|].
  exact (TagPatterns_cross_product _ _ _ Happ Hkeys).
Defined.

(** The scenario "pattern cross product" of the specification: in either
    visiting order, exactly one violation, for "environment". *)
Lemma TagPatterns_mixed_case keys :
  golang.is_range_order (parser.Tags examples.mixedCaseResource) keys →
  validator.Message <$>
    validator.checkRule keys examples.mixedCaseResource examples.namingRule
  = ["Tag name 'environment' does not match pattern: Tag names must start with uppercase"].
Proof.
  intros Hkeys.
  rewrite checkRule_pattern_block; [|vm_compute; auto|done].
  assert (spec.failing_pairs keys (config.TagPatterns examples.namingRule)
          ≡ₚ [("environment", examples.uppercasePattern)]) as Hperm.
  { rewrite (failing_pairs_Permutation _ _ _ (range_order_elements _ _ Hkeys)).
    vm_compute. done. }
  apply Permutation_singleton_r in Hperm. rewrite Hperm. by vm_compute.
Qed.

(** ** The rule engine: ordering, constraints and gates *)

(** C1. [Validate] handles the resources in input order. A resource whose
    type is listed in [Global.IgnoreResourceTypes] contributes nothing;
    any other resource contributes first one "Missing required tag:
    <name>" violation of the rule "global-required-tags" for each name of
    [Global.AlwaysRequiredTags] that is not a key of its tags, in the
    configured order, and then the violations of each rule in configured
    order. In the combined scenario of the specification the output is the
    three violations "Missing required tag: Owner", "Missing required tag:
    Name" and "Forbidden tag found: Test", in this order. *)
Theorem Validate_pipeline :
  (∀ order cfg resources,
     validator.Validate order cfg resources
     = concat (imap (λ i, spec.resourceViolations (order i) cfg) resources))
  ∧ (∀ order cfg resource,
       parser.Type_ resource ∈ config.IgnoreResourceTypes (config.Global_ cfg) →
       spec.resourceViolations order cfg resource = [])
  ∧ (∀ order cfg resource,
       parser.Type_ resource ∉ config.IgnoreResourceTypes (config.Global_ cfg) →
       spec.resourceViolations order cfg resource
       = validator.checkGlobalRequiredTags cfg resource
         ++ concat (imap (λ j rule, validator.checkRule (order j) resource rule)
                      (config.Rules cfg))
       ∧ validator.checkGlobalRequiredTags cfg resource
         = spec.globalViolation resource <$>
             filter (λ name, parser.Tags resource !! name = None)
                    (config.AlwaysRequiredTags (config.Global_ cfg)))
  ∧ (∀ order,
       validator.Message <$>
         validator.Validate order examples.combinedConfig [examples.combinedResource]
       = [ "Missing required tag: Owner";
           "Missing required tag: Name";
           "Forbidden tag found: Test" ]).
Proof.
  split; [exact Validate_concat|].
  split; [intros order cfg resource Hin; unfold spec.resourceViolations;
          by rewrite decide_True|].
  split.
  - intros order cfg resource Hnot. unfold spec.resourceViolations.
    rewrite decide_False by done.
    by rewrite checkGlobalRequiredTags_filter.
  - intros order. rewrite Validate_concat. simpl.
    unfold spec.resourceViolations. simpl.
    rewrite (checkRule_no_patterns (order 0%nat 0%nat)) by done.
    rewrite (checkRule_no_patterns (order 0%nat 1%nat)) by done.
    by vm_compute.
Qed.

(** C2. The order of the output depends on the order in which the range
    statement of the pattern check visits the tag names, which Go leaves
    unspecified: on a resource with the two lowercase tag names "env" and
    "owner" and one rule with an uppercase-initial pattern, the run that
    visits "env" first and the run that visits "owner" first both visit
    every tag name once, and return different violation sequences. *)
Theorem Validate_depends_on_range_order :
  validator.valid_orders examples.envFirst [examples.lowercaseResource]
  ∧ validator.valid_orders examples.ownerFirst [examples.lowercaseResource]
  ∧ validator.Message <$>
      validator.Validate examples.envFirst examples.namingConfig [examples.lowercaseResource]
    = [ "Tag name 'env' does not match pattern: Tag names must start with uppercase";
        "Tag name 'owner' does not match pattern: Tag names must start with uppercase" ]
  ∧ validator.Message <$>
      validator.Validate examples.ownerFirst examples.namingConfig [examples.lowercaseResource]
    = [ "Tag name 'owner' does not match pattern: Tag names must start with uppercase";
        "Tag name 'env' does not match pattern: Tag names must start with uppercase" ]
  ∧ validator.Validate examples.envFirst examples.namingConfig [examples.lowercaseResource]
    ≠ validator.Validate examples.ownerFirst examples.namingConfig [examples.lowercaseResource].
Proof.
  assert (∀ order,
            (∀ i j, golang.is_range_order (parser.Tags examples.lowercaseResource) (order i j)) →
            validator.valid_orders order [examples.lowercaseResource]) as Hvalid.
  { intros order Horder i resource Hlookup j.
    destruct i as [|i]; simpl in Hlookup; [|done].
    injection Hlookup as Heq. rewrite <- Heq. apply Horder. }
  split; [apply Hvalid; intros i j; apply (bool_decide_unpack _); vm_compute; exact I|].
  split; [apply Hvalid; intros i j; apply (bool_decide_unpack _); vm_compute; exact I|].
  split; [by vm_compute|]. split; [by vm_compute|].
  intros Heq. apply (f_equal (fmap validator.Message)) in Heq.
  vm_compute in Heq. discriminate Heq.
Qed.

(** Two runs on the same input may still only differ in order. *)
Lemma checkRules_Permutation resource rules :
  ∀ order1 order2 : nat → list string,
    (∀ j, golang.is_range_order (parser.Tags resource) (order1 j)) →
    (∀ j, golang.is_range_order (parser.Tags resource) (order2 j)) →
    concat (imap (λ j rule, validator.checkRule (order1 j) resource rule) rules)
    ≡ₚ concat (imap (λ j rule, validator.checkRule (order2 j) resource rule) rules).
Proof.
  induction rules as [|rule rules IH]; intros order1 order2 H1 H2; [done|].
  rewrite !imap_cons. csimpl. f_equiv.
  - destruct (decide (spec.applicable resource rule)) as [Happ|Hnot].
    + rewrite !checkRule_pattern_block by done. f_equiv.
      apply fmap_Permutation, failing_pairs_Permutation.
      by rewrite (range_order_elements _ _ (H1 0%nat)), (range_order_elements _ _ (H2 0%nat)).
    + by rewrite !checkRule_not_applicable.
  - apply (IH (λ j, order1 (S j)) (λ j, order2 (S j))); intros j; [apply H1 | apply H2].
Qed.

Lemma Validate_Permutation cfg resources :
  ∀ order1 order2,
    validator.valid_orders order1 resources →
    validator.valid_orders order2 resources →
    validator.Validate order1 cfg resources ≡ₚ validator.Validate order2 cfg resources.
Proof.
  intros order1 order2. rewrite !Validate_concat. revert order1 order2.
  induction resources as [|resource resources IH]; intros order1 order2 H1 H2; [done|].
  rewrite !imap_cons. csimpl. f_equiv.
  - unfold spec.resourceViolations. case_decide; [done|]. f_equiv.
    apply checkRules_Permutation; intros j; [by apply (H1 0%nat) | by apply (H2 0%nat)].
  - apply (IH (λ i, order1 (S i)) (λ i, order2 (S i))); intros i r Hr j;
      [by apply (H1 (S i)) | by apply (H2 (S i))].
Qed.

Lemma constraintViolations_spec resource rule constraint :
  let block := spec.constraintViolations resource rule constraint in
  (∀ value, spec.constraint_violated resource constraint value →
     block = [spec.ruleViolation resource rule (spec.constraintMessage constraint value)])
  ∧ ((∀ value, ¬ spec.constraint_violated resource constraint value) → block = [])
  ∧ (block ≠ [] ↔ ∃ value, spec.constraint_violated resource constraint value).
Proof.
  unfold spec.constraintViolations, spec.constraint_violated. simpl.
  destruct (parser.Tags resource !! config.ctTag constraint) as [value|].
  - destruct (validator.isValueAllowed value (config.AllowedValues constraint)) eqn:Hallowed.
    + apply isValueAllowed_elem_of in Hallowed.
      split; [by intros ? [[= <-] ?]|]. split; [done|].
      split; [done | by intros (? & [= <-] & ?)].
    + apply isValueAllowed_false in Hallowed.
      split; [by intros ? [[= <-] ?]|].
      split; [by intros Hnone; destruct (Hnone value)|].
      split; [by exists value | done].
  - split; [by intros ? [? ?]|]. split; [done|].
    split; [done | by intros (? & ? & ?)].
Qed.

(** C6. For an applicable rule the constraint check contributes, between
    the violations of the required and forbidden checks and those of the
    pattern check, one block per constraint in configured order. The block
    of a constraint is the single violation "Invalid value for tag <tag>:
    '<value>'. Allowed values: <allowed values joined by ", ">" when the
    constraint's tag is a key of the resource's tags and its value is not
    among the allowed values, and is empty otherwise; so it is non-empty
    exactly when the tag is present with a value that is not allowed. *)
Theorem TagConstraints_check keys resource rule :
  spec.applicable resource rule →
  ∃ blocks,
    validator.checkRule keys resource rule
    = validator.checkForbiddenTags resource rule
        (validator.checkRequiredTags resource rule [])
      ++ concat blocks
      ++ concat (spec.patternViolations resource rule <$>
                   filter (λ k, is_Some (parser.Tags resource !! k)) keys)
    ∧ Forall2
        (λ constraint block,
           (∀ value, spec.constraint_violated resource constraint value →
              block = [spec.ruleViolation resource rule
                         (spec.constraintMessage constraint value)])
           ∧ ((∀ value, ¬ spec.constraint_violated resource constraint value) → block = [])
           ∧ (block ≠ [] ↔ ∃ value, spec.constraint_violated resource constraint value))
        (config.TagConstraints rule) blocks.
Proof.
  intros Happ. exists (spec.constraintViolations resource rule <$> config.TagConstraints rule).
  split.
  - rewrite checkRule_applicable by done. unfold spec.beforePatterns.
    by rewrite checkTagConstraints_concat, <- app_assoc.
  - apply Forall2_fmap_r, Forall_Forall2_diag, Forall_forall.
    intros constraint _. apply constraintViolations_spec.
Qed.

Lemma TagConstraints_check_witness :
  spec.applicable (examples.tagged {["Environment" := "production"]})
    (examples.constraintRule examples.environmentConstraint)
  ∧ ∃ blocks,
      validator.checkRule ["Environment"] (examples.tagged {["Environment" := "production"]})
        (examples.constraintRule examples.environmentConstraint)
      = validator.checkForbiddenTags (examples.tagged {["Environment" := "production"]})
          (examples.constraintRule examples.environmentConstraint)
          (validator.checkRequiredTags (examples.tagged {["Environment" := "production"]})
             (examples.constraintRule examples.environmentConstraint) [])
        ++ concat blocks
        ++ concat (spec.patternViolations (examples.tagged {["Environment" := "production"]})
                     (examples.constraintRule examples.environmentConstraint) <$>
                     filter (λ k, is_Some (parser.Tags
                                (examples.tagged {["Environment" := "production"]}) !! k))
                            ["Environment"])
      ∧ Forall2
          (λ constraint block,
             (∀ value,
                spec.constraint_violated (examples.tagged {["Environment" := "production"]})
                  constraint value →
                block = [spec.ruleViolation (examples.tagged {["Environment" := "production"]})
                           (examples.constraintRule examples.environmentConstraint)
                           (spec.constraintMessage constraint value)])
             ∧ ((∀ value,
                   ¬ spec.constraint_violated
                       (examples.tagged {["Environment" := "production"]}) constraint value) →
                block = [])
             ∧ (block ≠ [] ↔
                ∃ value,
                  spec.constraint_violated (examples.tagged {["Environment" := "production"]})
                    constraint value))
          (config.TagConstraints (examples.constraintRule examples.environmentConstraint))
          blocks.
Proof.
  assert (spec.applicable (examples.tagged {["Environment" := "production"]})
            (examples.constraintRule examples.environmentConstraint)) as Happ
    by (vm_compute; auto).
  split; [exact Happ|].
  exact (TagConstraints_check ["Environment"] _ _ Happ).
Defined.

(** The scenario "value constraint exactness" of the specification. *)
Lemma TagConstraints_exactness :
  validator.Message <$>
    validator.checkRule ["Environment"] (examples.tagged {["Environment" := "production"]})
      (examples.constraintRule examples.environmentConstraint)
  = ["Invalid value for tag Environment: 'production'. Allowed values: dev, staging, prod"]
  ∧ validator.checkRule ["Environment"] (examples.tagged {["Environment" := "prod"]})
      (examples.constraintRule examples.environmentConstraint) = []
  ∧ validator.checkRule ["Environment"] (examples.tagged {["Environment" := "Prod"]})
      (examples.constraintRule examples.environmentConstraint) ≠ []
  ∧ validator.checkRule [] (examples.tagged ∅)
      (examples.constraintRule examples.environmentConstraint) = []
  ∧ ∀ value,
      validator.Message <$>
        validator.checkRule ["Environment"] (examples.tagged {["Environment" := value]})
          (examples.constraintRule {| config.ctTag := "Environment";
                                      config.AllowedValues := [] |})
      = ["Invalid value for tag Environment: '" +:+ value +:+ "'. Allowed values: "].
Proof.
  split; [by vm_compute|]. split; [by vm_compute|]. split; [by vm_compute|].
  split; [by vm_compute|].
  intros value. unfold validator.checkRule. simpl.
  unfold validator.checkTagConstraints, validator.checkTagPatterns, golang.rangeMap. simpl.
  rewrite lookup_singleton_eq. done.
Qed.

(** C8. A rule contributes no violation to a resource unless both gates
    hold: the rule names no resource types or names the resource's type,
    and the rule has no condition or the resource carries the condition's
    tag with exactly the condition's value. *)
Theorem checkRule_gated keys resource rule :
  ¬ (spec.type_gate resource rule ∧ spec.condition_gate resource rule) →
  validator.checkRule keys resource rule = [].
Proof. apply checkRule_not_applicable. Qed.

Lemma checkRule_gated_witness :
  ¬ (spec.type_gate examples.devResource examples.prodOwnerRule
     ∧ spec.condition_gate examples.devResource examples.prodOwnerRule)
  ∧ validator.checkRule ["Environment"] examples.devResource examples.prodOwnerRule = [].
Proof.
  assert (¬ (spec.type_gate examples.devResource examples.prodOwnerRule
             ∧ spec.condition_gate examples.devResource examples.prodOwnerRule)) as Hnot.
  { intros [_ Hcond]. vm_compute in Hcond. discriminate Hcond. }
  split; [exact Hnot|].
  exact (checkRule_gated ["Environment"] _ _ Hnot).
Defined.

(** The gates are each necessary: a missing condition tag, a value of
    which the condition's value is only a prefix, and a resource type the
    rule does not list all close the rule; with both gates open the rule
    reports. *)
Lemma checkRule_gates_examples :
  validator.checkRule [] (examples.tagged ∅) examples.prodOwnerRule = []
  ∧ validator.checkRule ["Environment"] (examples.tagged {["Environment" := "production"]})
      examples.prodOwnerRule = []
  ∧ validator.Message <$>
      validator.checkRule ["Environment"] (examples.tagged {["Environment" := "prod"]})
        examples.prodOwnerRule
    = ["Missing required tag: Owner"].
Proof. split; [by vm_compute|]. split; by vm_compute. Qed.

(** ** The plan extractor: identity derivation *)

Lemma Split_length s sep : (1 ≤ length (golang.Split s sep))%nat.
Proof.
  induction s as [|c rest IH]; simpl; [lia|].
  destruct (Ascii.eqb c sep); simpl; [lia|].
  destruct (golang.Split rest sep); simpl; lia.
Qed.

Lemma findResourceType_structural rest :
  ∀ pre,
    plan.findResourceType (pre ++ rest) (seq (length pre) (length rest - 1)) "" ""
    = default ("", "") (spec.firstTypeAndName rest).
Proof.
  induction rest as [|segment rest IH]; intros pre; [done|].
  destruct rest as [|name rest]; [done|].
  replace (length (segment :: name :: rest) - 1)%nat with (S (length rest)) by (simpl; lia).
  simpl seq. simpl plan.findResourceType. unfold golang.index at 1 2.
  rewrite nth_middle.
  simpl spec.firstTypeAndName.
  destruct (plan.isResourceType segment).
  - replace (length pre + 1 <? length (pre ++ segment :: name :: rest))%nat with true
      by (symmetry; apply Nat.ltb_lt; rewrite length_app; simpl; lia).
    simpl. unfold golang.index.
    replace (length pre + 1)%nat with (length (pre ++ [segment]))
      by (rewrite length_app; simpl; lia).
    replace (pre ++ segment :: name :: rest) with ((pre ++ [segment]) ++ name :: rest)
      by (by rewrite <- app_assoc).
    by rewrite nth_middle.
  - specialize (IH (pre ++ [segment])).
    rewrite <- app_assoc, length_app in IH. simpl in IH.
    rewrite Nat.sub_0_r, Nat.add_1_r in IH. exact IH.
Qed.

Lemma convertPlannedResource_identity planned filename :
  let segments := golang.Split (plan.Address planned) "."%char in
  plan.convertPlannedResource planned filename
  = if (length segments <? 2)%nat then None
    else Some {| parser.Type_ := (spec.chosenIdentity segments).1;
                 parser.Name := (spec.chosenIdentity segments).2;
                 parser.Tags := plan.extractTagsFromValues (plan.Values planned);
                 parser.Location := spec.planLocation filename;
                 parser.File := filename |}.
Proof.
  intros segments. unfold plan.convertPlannedResource. fold segments.
  destruct (length segments <? 2)%nat eqn:Hshort; [done|].
  apply Nat.ltb_ge in Hshort.
  pose proof (findResourceType_structural segments []) as Hscan.
  simpl in Hscan. rewrite Hscan. clear Hscan.
  unfold spec.chosenIdentity.
  replace (2 <=? length segments)%nat with true by (symmetry; by apply Nat.leb_le).
  destruct (spec.firstTypeAndName segments) as [[type name]|]; simpl.
  - by destruct (String.eqb type "" || String.eqb name "").
  - done.
Qed.

Lemma isResourceType_nonempty segment : plan.isResourceType segment = true → segment ≠ "".
Proof. by intros Htype ->. Qed.

Lemma firstTypeAndName_match before type name after :
  Forall spec.noMatch before →
  plan.isResourceType type = true →
  spec.firstTypeAndName (before ++ type :: name :: after) = Some (type, name).
Proof.
  intros Hbefore Htype. induction Hbefore as [|segment before Hsegment _ IH]; simpl.
  - by rewrite Htype.
  - rewrite Hsegment. by destruct (before ++ type :: name :: after) eqn:E;
      [destruct before; done|].
Qed.

Lemma firstTypeAndName_none segments :
  Forall spec.noMatch (removelast segments) → spec.firstTypeAndName segments = None.
Proof.
  induction segments as [|segment rest IH]; [done|]. simpl.
  destruct rest as [|name rest]; [done|].
  intros Hno. apply Forall_cons in Hno as [Hsegment Hrest].
  rewrite Hsegment. by apply IH.
Qed.

Lemma firstTypeAndName_adjacent segments type name :
  spec.firstTypeAndName segments = Some (type, name) →
  ∃ before after, segments = before ++ type :: name :: after.
Proof.
  induction segments as [|segment rest IH]; [done|]. simpl.
  destruct rest as [|next rest]; [done|].
  destruct (plan.isResourceType segment).
  - intros [= <- <-]. by exists [], rest.
  - intros Hrest. destruct (IH Hrest) as (before & after & ->).
    by exists (segment :: before), after.
Qed.

Lemma lastTwo_adjacent segments :
  (2 ≤ length segments)%nat →
  ∃ before, segments = before ++ [(spec.lastTwo segments).1; (spec.lastTwo segments).2].
Proof.
  intros Hlen. unfold spec.lastTwo, golang.index. simpl.
  destruct (rev segments) as [|name [|type tail]] eqn:Hrev.
  - apply (f_equal length) in Hrev. rewrite length_rev in Hrev. simpl in Hrev. lia.
  - apply (f_equal length) in Hrev. rewrite length_rev in Hrev. simpl in Hrev. lia.
  - apply (f_equal (@rev string)) in Hrev. rewrite rev_involutive in Hrev. simpl in Hrev.
    rewrite <- app_assoc in Hrev. simpl in Hrev. subst segments.
    exists (rev tail). f_equal.
    rewrite length_app. simpl.
    replace (length (rev tail) + 2 - 2)%nat with (length (rev tail)) by lia.
    replace (length (rev tail) + 2 - 1)%nat with (length (rev tail ++ [type])) by
      (rewrite length_app; simpl; lia).
    rewrite nth_middle.
    replace (rev tail ++ [type; name]) with ((rev tail ++ [type]) ++ [name])
      by (by rewrite <- app_assoc).
    by rewrite nth_middle.
Qed.

Lemma chosenIdentity_adjacent segments :
  (2 ≤ length segments)%nat →
  ∃ before after,
    segments = before ++ (spec.chosenIdentity segments).1
                         :: (spec.chosenIdentity segments).2 :: after.
Proof.
  intros Hlen. unfold spec.chosenIdentity.
  destruct (spec.firstTypeAndName segments) as [[type name]|] eqn:Hfirst.
  - destruct (String.eqb type "" || String.eqb name "").
    + destruct (lastTwo_adjacent segments Hlen) as [before Heq]. by exists before, [].
    + by apply firstTypeAndName_adjacent.
  - destruct (lastTwo_adjacent segments Hlen) as [before Heq]. by exists before, [].
Qed.

(** ** The plan extractor: what reaches the result *)

Lemma ChildModule_nested_ind (P : plan.ChildModule → Prop) :
  (∀ address resources childModules,
     Forall P childModules → P (plan.mkChildModule address resources childModules)) →
  ∀ module, P module.
Proof.
  intros Hstep. fix IH 1. intros [address resources childModules].
  apply Hstep. induction childModules as [|child rest IHrest]; constructor.
  - apply IH.
  - apply IHrest.
Qed.

Section processed.
Variable filename : string.
Variable P : parser.Resource → Prop.
Hypothesis converted :
  ∀ planned resource, plan.convertPlannedResource planned filename = Some resource → P resource.

Lemma processResources_kept errors resources :
  ∀ result, spec.kept P errors result →
            spec.kept P errors (plan.processResources resources filename result).
Proof.
  unfold plan.processResources.
  induction resources as [|planned rest IH]; intros result Hresult; [done|]. simpl.
  apply IH. destruct (plan.convertPlannedResource planned filename) as [resource|] eqn:Hconv;
    [|done].
  destruct Hresult as [Hall Herrors]. split; [|done]. simpl.
  apply Forall_app. split; [done|]. constructor; [by eapply converted | done].
Qed.

Lemma processChildModule_kept errors module :
  ∀ result, spec.kept P errors result →
            spec.kept P errors (plan.processChildModule module filename result).
Proof.
  induction module as [address resources childModules IH] using ChildModule_nested_ind.
  intros result Hresult. simpl.
  apply (processResources_kept errors resources) in Hresult.
  revert Hresult. generalize (plan.processResources resources filename result).
  induction IH as [|child rest Hchild _ IHrest]; intros acc Hacc; [done|]. simpl.
  by apply IHrest, Hchild.
Qed.

Lemma processModuleResources_kept errors module :
  ∀ result, spec.kept P errors result →
            spec.kept P errors (plan.processModuleResources module filename result).
Proof.
  intros result Hresult. unfold plan.processModuleResources.
  apply (processResources_kept errors (plan.Resources module)) in Hresult.
  revert Hresult. generalize (plan.processResources (plan.Resources module) filename result).
  induction (plan.ChildModules module) as [|child rest IH]; intros acc Hacc; [done|]. simpl.
  by apply IH, processChildModule_kept.
Qed.

Lemma ParseTerraformPlan_kept file result :
  plan.ParseTerraformPlan filename file = inr result → spec.kept P [] result.
Proof.
  destruct file as [e|e|decoded]; simpl; [done..|]. intros [= <-].
  by apply processModuleResources_kept.
Qed.
End processed.

(** ** The plan extractor: identity and location *)

(** C4, as the code has it. With the address split at its dots:
    an address of fewer than two segments yields no resource, and no
    error is ever recorded; otherwise the segments other than the last
    are scanned left to right, and when the first one that matches the
    provider prefixes is followed by a non-empty segment, these two are
    Type and Name; when it is followed by an empty segment, or when no
    segment other than the last matches, the final two segments are Type
    and Name. So "module.vpc.aws_vpc.main" gives (aws_vpc, main),
    "data.aws_ami.ubuntu" gives (aws_ami, ubuntu), and "invalid" is
    dropped without an error. *)
Theorem identity_derivation :
  (∀ planned filename,
     let segments := golang.Split (plan.Address planned) "."%char in
     ((length segments < 2)%nat ↔ plan.convertPlannedResource planned filename = None)
     ∧ (∀ before type name after,
          segments = before ++ type :: name :: after →
          Forall spec.noMatch before → plan.isResourceType type = true → name ≠ "" →
          spec.identity planned filename = Some (type, name))
     ∧ (∀ before type after,
          segments = before ++ type :: "" :: after →
          Forall spec.noMatch before → plan.isResourceType type = true →
          spec.identity planned filename = Some (spec.lastTwo segments))
     ∧ ((2 ≤ length segments)%nat → Forall spec.noMatch (removelast segments) →
        spec.identity planned filename = Some (spec.lastTwo segments)))
  ∧ (∀ filename file result,
       plan.ParseTerraformPlan filename file = inr result → parser.Errors result = [])
  ∧ spec.identity (examples.planned "module.vpc.aws_vpc.main") "plan.json"
    = Some ("aws_vpc", "main")
  ∧ spec.identity (examples.planned "data.aws_ami.ubuntu") "plan.json"
    = Some ("aws_ami", "ubuntu")
  ∧ spec.identity (examples.planned "module.a.module.b.aws_subnet.private") "plan.json"
    = Some ("aws_subnet", "private")
  ∧ plan.convertPlannedResource (examples.planned "invalid") "plan.json" = None
  ∧ plan.ParseTerraformPlan "plan.json" (examples.flatPlan ["invalid"])
    = inr {| parser.Resources := []; parser.Errors := [] |}.
Proof.
  split.
  { intros planned filename segments. unfold spec.identity.
    rewrite convertPlannedResource_identity. fold segments.
    destruct (length segments <? 2)%nat eqn:Hshort.
    - apply Nat.ltb_lt in Hshort. split; [done|].
      split; [|split].
      + intros before type name after Heq. apply (f_equal length) in Heq.
        rewrite length_app in Heq. simpl in Heq. lia.
      + intros before type after Heq. apply (f_equal length) in Heq.
        rewrite length_app in Heq. simpl in Heq. lia.
      + lia.
    - apply Nat.ltb_ge in Hshort. split; [split; [lia | done]|]. simpl.
      unfold spec.chosenIdentity. split; [|split].
      + intros before type name after -> Hbefore Htype Hname.
        rewrite firstTypeAndName_match by done.
        apply isResourceType_nonempty in Htype.
        apply String.eqb_neq in Htype, Hname. by rewrite Htype, Hname.
      + intros before type after -> Hbefore Htype.
        rewrite firstTypeAndName_match by done. simpl.
        rewrite orb_true_r. by destruct (spec.lastTwo _).
      + intros _ Hnone. rewrite firstTypeAndName_none by done.
        by destruct (spec.lastTwo _). }
  split.
  { intros filename file result Hresult.
    by destruct (ParseTerraformPlan_kept filename (λ _, True) (λ _ _ _, I) file result Hresult). }
  repeat split; by vm_compute.
Qed.

(** C4, as the specification words it, fails on the code: in
    "aws_a..b.c" the first matching segment is followed by an empty one
    and the code falls back to the final two segments; in "x.aws_y" the
    only matching segment is the last, which the code never tests. *)
Lemma identity_as_specified_fails :
  spec.identity (examples.planned "aws_a..b.c") "plan.json" = Some ("b", "c")
  ∧ spec.identity_as_specified "aws_a..b.c" = Some ("aws_a", "")
  ∧ spec.identity (examples.planned "x.aws_y") "plan.json" = Some ("x", "aws_y")
  ∧ fst <$> spec.identity_as_specified "x.aws_y" = Some "aws_y"
  ∧ spec.identity (examples.planned "aws_a..b.c") "plan.json"
    ≠ spec.identity_as_specified "aws_a..b.c"
  ∧ spec.identity (examples.planned "x.aws_y") "plan.json"
    ≠ spec.identity_as_specified "x.aws_y".
Proof. repeat split; by vm_compute. Qed.

(** C10. Every resource in the result of [ParseTerraformPlan] carries the
    synthetic location of the plan: [Location.Filename] and [File] are the
    path of the plan file, and start and end are line 1, column 1, byte 0;
    so all resources of one plan report the same position. *)
Theorem plan_location filename file result :
  plan.ParseTerraformPlan filename file = inr result →
  Forall (λ resource,
            parser.Location resource = spec.planLocation filename
            ∧ hcl.Filename (parser.Location resource) = filename
            ∧ parser.File resource = filename
            ∧ hcl.Start (parser.Location resource)
              = {| hcl.Line := 1; hcl.Column := 1; hcl.Byte := 0 |}
            ∧ hcl.End_ (parser.Location resource)
              = {| hcl.Line := 1; hcl.Column := 1; hcl.Byte := 0 |})
         (parser.Resources result).
Proof.
  intros Hresult.
  refine (proj1 (ParseTerraformPlan_kept filename _ _ file result Hresult)).
  intros planned resource. rewrite convertPlannedResource_identity.
  by destruct (_ <? 2)%nat; [|intros [= <-]].
Qed.

Lemma plan_location_witness :
  let result :=
    {| parser.Resources :=
         (λ identity, {| parser.Type_ := identity.1; parser.Name := identity.2;
                         parser.Tags := ∅;
                         parser.Location := spec.planLocation "plan.json";
                         parser.File := "plan.json" |}) <$>
           [ ("aws_instance", "web"); ("aws_vpc", "main");
             ("aws_subnet", "private"); ("aws_ami", "ubuntu") ];
       parser.Errors := [] |} in
  plan.ParseTerraformPlan "plan.json" examples.nestedPlan = inr result
  ∧ Forall (λ resource,
              parser.Location resource = spec.planLocation "plan.json"
              ∧ hcl.Filename (parser.Location resource) = "plan.json"
              ∧ parser.File resource = "plan.json"
              ∧ hcl.Start (parser.Location resource)
                = {| hcl.Line := 1; hcl.Column := 1; hcl.Byte := 0 |}
              ∧ hcl.End_ (parser.Location resource)
                = {| hcl.Line := 1; hcl.Column := 1; hcl.Byte := 0 |})
           (parser.Resources result).
Proof.
  intros result.
  assert (plan.ParseTerraformPlan "plan.json" examples.nestedPlan = inr result) as Hresult
    by (vm_compute; reflexivity).
  split; [exact Hresult|].
  exact (plan_location "plan.json" examples.nestedPlan result Hresult).
Defined.

(** ** Range statements whose result does not depend on the order *)

Lemma rangeMap_pointwise {V A : Type} (m : gmap string V) (body1 body2 : string → V → A → A) :
  (∀ k v acc, body1 k v acc = body2 k v acc) →
  ∀ keys acc, golang.rangeMap keys m body1 acc = golang.rangeMap keys m body2 acc.
Proof.
  intros Hbody keys acc. unfold golang.rangeMap. apply fold_left_pointwise.
  intros acc' k. destruct (m !! k); [apply Hbody | done].
Qed.

(** A range statement that stores, under the visited key, what [f] keeps
    of the value. *)
Lemma rangeMap_collect_lookup {V : Type} (f : V → option string) (m : gmap string V) keys :
  ∀ (acc : gmap string string) k,
    golang.rangeMap keys m
      (λ k v acc, match f v with Some str => <[k := str]> acc | None => acc end) acc !! k
    = if decide (k ∈ keys) then
        match m !! k ≫= f with
        | Some str => Some str
        | None => acc !! k
        end
      else acc !! k.
Proof.
  unfold golang.rangeMap. induction keys as [|key keys IH]; intros acc k.
  - case_decide as Hin; [by apply elem_of_nil in Hin | done].
  - cbn [fold_left]. rewrite IH. clear IH.
    assert (∀ j, (match m !! key with
                  | Some v => match f v with Some str => <[key := str]> acc | None => acc end
                  | None => acc
                  end) !! j
                 = if decide (j = key) then
                     match m !! j ≫= f with
                     | Some str => Some str
                     | None => acc !! j
                     end
                   else acc !! j) as Hstep.
    { intros j. case_decide as Hj.
      - subst j. destruct (m !! key) as [v|]; [|done]. simpl.
        destruct (f v); [by rewrite lookup_insert_eq | done].
      - destruct (m !! key) as [v|]; [|done].
        destruct (f v); [by rewrite lookup_insert_ne | done]. }
    rewrite Hstep. clear Hstep.
    destruct (decide (k ∈ keys)) as [Hin|Hnotin].
    + rewrite (decide_True (P := k ∈ key :: keys)) by (by right).
      destruct (m !! k ≫= f); [done|]. by case_decide.
    + destruct (decide (k = key)) as [->|Hne].
      * by rewrite (decide_True (P := key ∈ key :: keys)) by (by left).
      * rewrite (decide_False (P := k ∈ key :: keys)); [done|].
        by intros [?|?]%elem_of_cons.
Qed.

(** In whatever order the keys are visited, the result is the kept
    entries of the map laid over the accumulator. *)
Lemma rangeMap_collect {V : Type} (f : V → option string) (m : gmap string V) keys
    (acc : gmap string string) :
  golang.is_range_order m keys →
  golang.rangeMap keys m
    (λ k v acc, match f v with Some str => <[k := str]> acc | None => acc end) acc
  = omap f m ∪ acc.
Proof.
  intros [_ Hset]. apply map_eq. intros k.
  rewrite rangeMap_collect_lookup, lookup_union, lookup_omap.
  case_decide as Hin.
  - by destruct (m !! k ≫= f), (acc !! k).
  - assert (m !! k = None) as ->.
    { apply not_elem_of_dom. rewrite <- Hset. by rewrite elem_of_list_to_set. }
    simpl. by destruct (acc !! k).
Qed.


Lemma rangeMap_keepString (t : gmap string plan.JSON) keys (tags : gmap string string) :
  golang.is_range_order t keys →
  golang.rangeMap keys t plan.keepString tags = omap spec.asString t ∪ tags.
Proof.
  intros Hkeys. rewrite <- (rangeMap_collect spec.asString t keys tags Hkeys).
  apply rangeMap_pointwise. by intros k [] acc.
Qed.

(** ** The plan extractor: tags *)

Lemma some_range_order_valid {V : Type} (m : gmap string V) :
  golang.is_range_order m (golang.some_range_order m).
Proof.
  unfold golang.some_range_order. split.
  - apply NoDup_fst_map_to_list.
  - apply set_eq. intros k. rewrite elem_of_list_to_set, elem_of_dom.
    rewrite list_elem_of_fmap. split.
    + intros ([k' v] & -> & Hin%elem_of_map_to_list). by exists v.
    + intros [v Hv]. exists (k, v). split; [done|]. by apply elem_of_map_to_list.
Qed.

Lemma fieldKeys_order values field :
  spec.field_order (values !! field) (plan.fieldKeys values field).
Proof.
  unfold spec.field_order, plan.fieldKeys.
  destruct (values !! field) as [[]|]; try done. apply some_range_order_valid.
Qed.

Lemma extractTagsFromValuesIn_union keysTags keysAll values :
  spec.field_order (values !! "tags") keysTags →
  spec.field_order (values !! "tags_all") keysAll →
  plan.extractTagsFromValuesIn keysTags keysAll values
  = spec.stringEntries (values !! "tags_all") ∪ spec.stringEntries (values !! "tags").
Proof.
  intros Htags Hall.
  unfold plan.extractTagsFromValuesIn, spec.stringEntries, spec.field_order in *.
  assert (match values !! "tags" with
          | Some (plan.JObject t) => golang.rangeMap keysTags t plan.keepString ∅
          | _ => ∅
          end
          = match values !! "tags" with
            | Some (plan.JObject t) => omap spec.asString t
            | _ => ∅
            end) as ->.
  { destruct (values !! "tags") as [[]|]; try done.
    rewrite rangeMap_keepString by done. by rewrite (right_id_L ∅ (∪)). }
  destruct (values !! "tags_all") as [[]|]; try (by rewrite (left_id_L ∅ (∪))).
  by rewrite rangeMap_keepString.
Qed.

(** [extractTagsFromValues] is the merge, the range orders being
    immaterial. *)
Lemma extractTagsFromValues_union values :
  plan.extractTagsFromValues values
  = spec.stringEntries (values !! "tags_all") ∪ spec.stringEntries (values !! "tags").
Proof. apply extractTagsFromValuesIn_union; apply fieldKeys_order. Qed.

(** C5. Whatever orders the two range statements visit the keys in, the
    extracted tags are the string-valued entries of the object under
    [tags] overlaid with the string-valued entries of the object under
    [tags_all], the latter winning where a key is in both; entries that
    are not strings are dropped, and a field that is absent or not an
    object contributes nothing. The function is total: nothing fails. *)
Theorem extractTagsFromValues_merge keysTags keysAll values :
  spec.field_order (values !! "tags") keysTags →
  spec.field_order (values !! "tags_all") keysAll →
  plan.extractTagsFromValuesIn keysTags keysAll values
  = spec.stringEntries (values !! "tags_all") ∪ spec.stringEntries (values !! "tags")
  ∧ ∀ k,
      plan.extractTagsFromValuesIn keysTags keysAll values !! k
      = match (values !! "tags_all") with
        | Some (plan.JObject all) =>
            match all !! k with
            | Some (plan.JString str) => Some str
            | _ => spec.stringEntries (values !! "tags") !! k
            end
        | _ => spec.stringEntries (values !! "tags") !! k
        end.
Proof.
  intros Htags Hall.
  pose proof (extractTagsFromValuesIn_union _ _ _ Htags Hall) as Hmerge.
  split; [done|]. intros k. rewrite Hmerge, lookup_union.
  unfold spec.stringEntries at 1.
  destruct (values !! "tags_all") as [[| | | | |all]|];
    try (by rewrite lookup_empty, (left_id_L None _)).
  rewrite lookup_omap. destruct (all !! k) as [[]|]; simpl;
    try (by rewrite (left_id_L None _)).
  by destruct (spec.stringEntries (values !! "tags") !! k).
Qed.

Lemma extractTagsFromValues_merge_witness :
  spec.field_order (examples.bothFields !! "tags") ["Name"; "Count"]
  ∧ spec.field_order (examples.bothFields !! "tags_all") ["Environment"; "Name"]
  ∧ plan.extractTagsFromValuesIn ["Name"; "Count"] ["Environment"; "Name"] examples.bothFields
    = spec.stringEntries (examples.bothFields !! "tags_all")
      ∪ spec.stringEntries (examples.bothFields !! "tags")
  ∧ ∀ k,
      plan.extractTagsFromValuesIn ["Name"; "Count"] ["Environment"; "Name"]
        examples.bothFields !! k
      = match (examples.bothFields !! "tags_all") with
        | Some (plan.JObject all) =>
            match all !! k with
            | Some (plan.JString str) => Some str
            | _ => spec.stringEntries (examples.bothFields !! "tags") !! k
            end
        | _ => spec.stringEntries (examples.bothFields !! "tags") !! k
        end.
Proof.
  assert (spec.field_order (examples.bothFields !! "tags") ["Name"; "Count"]) as Htags
    by (apply (bool_decide_unpack _); vm_compute; exact I).
  assert (spec.field_order (examples.bothFields !! "tags_all") ["Environment"; "Name"]) as Hall
    by (apply (bool_decide_unpack _); vm_compute; exact I).
  split; [exact Htags|]. split; [exact Hall|].
  exact (extractTagsFromValues_merge _ _ _ Htags Hall).
Defined.

(** The scenarios of the specification and of the test
    [TestExtractTagsFromValues]: [tags_all] wins on a collision, entries
    that are not strings are dropped, a scalar [tags] field contributes
    nothing. *)
Lemma extractTagsFromValues_examples :
  plan.extractTagsFromValues examples.bothFields
  = {[ "Name" := "b"; "Environment" := "dev" ]}
  ∧ plan.extractTagsFromValues examples.scalarTags = {[ "Owner" := "team-a" ]}
  ∧ plan.extractTagsFromValues ∅ = ∅.
Proof. repeat split; by vm_compute. Qed.

(** ** The source extractor *)


Lemma parseFile_blocks files filename :
  source.parseFile files filename
  = if hclsyntax.HasErrors (files filename) then
      inl (golang.errorString
             ("failed to parse HCL: " +:+ hclsyntax.DiagsError (files filename)))
    else
      match hclsyntax.FileBody_ (files filename) with
      | hclsyntax.ForeignBody => inl (golang.errorString "unexpected body type")
      | hclsyntax.SyntaxBody body =>
          inr (spec.blockResource filename <$>
                 filter spec.resource_block (hclsyntax.Blocks body))
      end.
Proof.
  unfold source.parseFile.
  destruct (hclsyntax.HasErrors (files filename)); [done|].
  destruct (hclsyntax.FileBody_ (files filename)) as [body|]; [|done]. f_equal.
  rewrite (fold_left_append _
    (λ block, if decide (spec.resource_block block)
              then [spec.blockResource filename block] else [])).
  - simpl. apply (concat_guarded_singletons _ (spec.blockResource filename)).
  - intros acc block. unfold spec.resource_block.
    destruct (String.eqb_spec (hclsyntax.Type_ block) "resource") as [Htype|Htype];
      destruct (2 <=? length (hclsyntax.Labels block))%nat eqn:Hlabels; simpl.
    + apply Nat.leb_le in Hlabels. by rewrite decide_True.
    + apply Nat.leb_gt in Hlabels. rewrite decide_False by lia. by rewrite app_nil_r.
    + rewrite decide_False by (by intros [? ?]). by rewrite app_nil_r.
    + rewrite decide_False by (by intros [? ?]). by rewrite app_nil_r.
Qed.

Lemma walkFn_file files entry result :
  source.err entry = None →
  source.walkFn files entry result
  = inr (if decide (spec.tf_file entry) then
           {| parser.Resources :=
                parser.Resources result ++ spec.fileResources files (source.filePath entry);
              parser.Errors :=
                parser.Errors result ++ spec.fileErrors files (source.filePath entry) |}
         else result).
Proof.
  intros Herr. unfold source.walkFn. rewrite Herr.
  case_decide as Htf.
  - destruct Htf as [Hsuffix Hdir]. rewrite Hsuffix, Hdir. simpl.
    unfold spec.fileResources, spec.fileErrors.
    destruct (source.parseFile files (source.filePath entry)); by rewrite app_nil_r.
  - destruct (golang.HasSuffix (source.filePath entry) ".tf") eqn:Hsuffix;
      destruct (source.IsDir entry) eqn:Hdir; simpl; try done.
    by destruct Htf.
Qed.

Lemma Walk_files files entries :
  Forall (λ entry, source.err entry = None) entries →
  ∀ result,
    source.Walk files entries result
    = inr {| parser.Resources :=
               parser.Resources result
               ++ concat (spec.fileResources files <$>
                            (source.filePath <$> filter spec.tf_file entries));
             parser.Errors :=
               parser.Errors result
               ++ concat (spec.fileErrors files <$>
                            (source.filePath <$> filter spec.tf_file entries)) |}.
Proof.
  induction 1 as [|entry entries Hentry _ IH]; intros result; simpl.
  - rewrite !app_nil_r. by destruct result.
  - rewrite walkFn_file by done. rewrite IH, filter_cons.
    case_decide; csimpl; by rewrite ?app_assoc.
Qed.

Lemma walkPaths_files files walks :
  Forall (λ entry, source.err entry = None) (concat walks) →
  ∀ result,
    source.walkPaths files walks result
    = inr {| parser.Resources :=
               parser.Resources result ++ concat (spec.fileResources files <$> spec.tfFiles walks);
             parser.Errors :=
               parser.Errors result ++ concat (spec.fileErrors files <$> spec.tfFiles walks) |}.
Proof.
  unfold spec.tfFiles.
  induction walks as [|entries walks IH]; intros Hwalks result; simpl.
  - rewrite !app_nil_r. by destruct result.
  - simpl in Hwalks. apply Forall_app in Hwalks as [Hentries Hwalks].
    rewrite Walk_files by done. rewrite IH by done. simpl.
    by rewrite filter_app, !fmap_app, !concat_app, !app_assoc.
Qed.

(** An error the walk itself meets is the one failure that ends the run. *)
Lemma Walk_error files entries :
  Exists (λ entry, is_Some (source.err entry)) entries →
  ∀ result, ∃ e, source.Walk files entries result = inl e.
Proof.
  induction entries as [|entry entries IH]; intros Hexists result.
  - by apply Exists_nil in Hexists.
  - simpl. destruct (source.err entry) as [e|] eqn:Herr.
    + exists e. unfold source.walkFn. by rewrite Herr.
    + rewrite walkFn_file by done.
      apply Exists_cons in Hexists as [[e He]|Hrest]; [congruence|]. by apply IH.
Qed.

(** ** The extractors: isolation of failures and emitted identities *)

(** C9. When the walk itself meets no error, [ParseTerraformFiles]
    returns a result, whatever files fail to parse: its resources are the
    resources of the files ending in ".tf", in walk order, and its errors
    the errors of those files. A file whose parse fails contributes no
    resource and exactly one error, which carries the path followed by
    the message of the cause and wraps the cause; a file that parses
    contributes its resources and no error. *)
Theorem parse_failures_isolated files walks :
  Forall (λ entry, source.err entry = None) (concat walks) →
  ∃ result,
    source.ParseTerraformFiles files walks = inr result
    ∧ parser.Resources result = concat (spec.fileResources files <$> spec.tfFiles walks)
    ∧ parser.Errors result = concat (spec.fileErrors files <$> spec.tfFiles walks)
    ∧ (∀ path,
         hclsyntax.HasErrors (files path) = true →
         spec.fileResources files path = []
         ∧ ∃ cause,
             source.parseFile files path = inl cause
             ∧ golang.Error cause
               = "failed to parse HCL: " +:+ hclsyntax.DiagsError (files path)
             ∧ spec.fileErrors files path
               = [golang.wrapError (path +:+ ": " +:+ golang.Error cause) cause])
    ∧ (∀ path resources,
         source.parseFile files path = inr resources →
         spec.fileResources files path = resources ∧ spec.fileErrors files path = []).
Proof.
  intros Hwalks. eexists. split; [by apply walkPaths_files|].
  split; [done|]. split; [done|]. split.
  - intros path Herrors. unfold spec.fileResources, spec.fileErrors.
    rewrite parseFile_blocks, Herrors. split; [done|]. by eexists.
  - intros path resources Hparse. unfold spec.fileResources, spec.fileErrors.
    by rewrite Hparse.
Qed.

Lemma parse_failures_isolated_witness :
  Forall (λ entry, source.err entry = None) (concat examples.threeFilesWalk)
  ∧ ∃ result,
      source.ParseTerraformFiles examples.threeFiles examples.threeFilesWalk = inr result
      ∧ parser.Resources result
        = concat (spec.fileResources examples.threeFiles <$>
                    spec.tfFiles examples.threeFilesWalk)
      ∧ parser.Errors result
        = concat (spec.fileErrors examples.threeFiles <$>
                    spec.tfFiles examples.threeFilesWalk)
      ∧ (∀ path,
           hclsyntax.HasErrors (examples.threeFiles path) = true →
           spec.fileResources examples.threeFiles path = []
           ∧ ∃ cause,
               source.parseFile examples.threeFiles path = inl cause
               ∧ golang.Error cause
                 = "failed to parse HCL: "
                   +:+ hclsyntax.DiagsError (examples.threeFiles path)
               ∧ spec.fileErrors examples.threeFiles path
                 = [golang.wrapError (path +:+ ": " +:+ golang.Error cause) cause])
      ∧ (∀ path resources,
           source.parseFile examples.threeFiles path = inr resources →
           spec.fileResources examples.threeFiles path = resources
           ∧ spec.fileErrors examples.threeFiles path = []).
Proof.
  assert (Forall (λ entry, source.err entry = None) (concat examples.threeFilesWalk))
    as Hwalks by (repeat constructor).
  split; [exact Hwalks|].
  exact (parse_failures_isolated examples.threeFiles examples.threeFilesWalk Hwalks).
Defined.

(** The scenario "per-file isolation": one malformed file between two
    well-formed ones gives exactly one error, and the resources of the
    other two files with their tags. *)
Lemma three_files_isolated :
  ∃ result,
    source.ParseTerraformFiles examples.threeFiles examples.threeFilesWalk = inr result
    ∧ (λ resource, (parser.File resource, parser.Type_ resource, parser.Name resource,
                    map_to_list (parser.Tags resource))) <$> parser.Resources result
      = [ ("dir/a.tf", "aws_instance", "good", [("Name", "valid")]);
          ("dir/z.tf", "aws_vpc", "main", [("Level", "module")]) ]
    ∧ golang.Error <$> parser.Errors result
      = ["dir/invalid.tf: failed to parse HCL: invalid.tf:3,3-4: Invalid expression"]
    ∧ (golang.Unwrap <$> parser.Errors result)
      = [Some (golang.errorString
                 "failed to parse HCL: invalid.tf:3,3-4: Invalid expression")].
Proof. eexists. split; [by vm_compute|]. repeat split; by vm_compute. Qed.

(** C3, as the code has it. A planned resource is dropped exactly when
    its address has fewer than two segments, and a block is turned into a
    resource exactly when it is a "resource" block with at least two
    labels. The Type and Name of an emitted resource are two consecutive
    segments of the address, respectively the first two labels of the
    block; they are non-empty whenever all segments, respectively these
    labels, are non-empty. *)
Theorem emitted_identity :
  (∀ planned filename resource,
     plan.convertPlannedResource planned filename = Some resource →
     (2 ≤ length (golang.Split (plan.Address planned) "."%char))%nat
     ∧ (∃ before after,
          golang.Split (plan.Address planned) "."%char
          = before ++ parser.Type_ resource :: parser.Name resource :: after)
     ∧ (Forall (λ segment, segment ≠ "") (golang.Split (plan.Address planned) "."%char) →
        parser.Type_ resource ≠ "" ∧ parser.Name resource ≠ ""))
  ∧ (∀ planned filename,
       (length (golang.Split (plan.Address planned) "."%char) < 2)%nat →
       plan.convertPlannedResource planned filename = None)
  ∧ (∀ files filename resources,
       source.parseFile files filename = inr resources →
       ∃ body,
         hclsyntax.FileBody_ (files filename) = hclsyntax.SyntaxBody body
         ∧ Forall2
             (λ block resource,
                hclsyntax.Type_ block = "resource"
                ∧ (∃ rest, hclsyntax.Labels block
                           = parser.Type_ resource :: parser.Name resource :: rest)
                ∧ (Forall (λ label, label ≠ "") (hclsyntax.Labels block) →
                   parser.Type_ resource ≠ "" ∧ parser.Name resource ≠ ""))
             (filter spec.resource_block (hclsyntax.Blocks body)) resources).
Proof.
  split; [|split].
  - intros planned filename resource. rewrite convertPlannedResource_identity.
    destruct (_ <? 2)%nat eqn:Hshort; [done|]. apply Nat.ltb_ge in Hshort.
    intros [= <-]. simpl. split; [done|].
    destruct (chosenIdentity_adjacent _ Hshort) as (before & after & Heq).
    split; [by exists before, after|].
    rewrite Heq at 1. intros Hall.
    apply Forall_app in Hall as [_ Hall].
    apply Forall_cons in Hall as [Htype Hall].
    by apply Forall_cons in Hall as [Hname _].
  - intros planned filename Hshort. rewrite convertPlannedResource_identity.
    apply Nat.ltb_lt in Hshort. by rewrite Hshort.
  - intros files filename resources. rewrite parseFile_blocks.
    destruct (hclsyntax.HasErrors (files filename)); [done|].
    destruct (hclsyntax.FileBody_ (files filename)) as [body|]; [|done].
    intros [= <-]. exists body. split; [done|].
    apply Forall2_fmap_r, Forall_Forall2_diag, Forall_forall.
    intros block [[Htype Hlabels] _]%list_elem_of_filter.
    split; [done|]. simpl. unfold golang.index.
    destruct (hclsyntax.Labels block) as [|type [|name rest]]; simpl in *; [lia..|].
    split; [by exists rest|].
    intros Hall. apply Forall_cons in Hall as [Htype' Hall].
    by apply Forall_cons in Hall as [Hname _].
Qed.

(** C3, as the specification words it, fails on the code: the address "."
    has two segments, both empty, and the resource extracted from it has
    an empty Type and an empty Name; the address "aws_instance." gives an
    empty Name. *)
Lemma empty_identity_emitted :
  plan.ParseTerraformPlan "plan.json" (examples.flatPlan ["."])
  = inr {| parser.Resources :=
             [ {| parser.Type_ := ""; parser.Name := ""; parser.Tags := ∅;
                  parser.Location := spec.planLocation "plan.json";
                  parser.File := "plan.json" |} ];
           parser.Errors := [] |}
  ∧ spec.identity (examples.planned ".") "plan.json" = Some ("", "")
  ∧ spec.identity (examples.planned "aws_instance.") "plan.json" = Some ("aws_instance", "").
Proof. repeat split; by vm_compute. Qed.

(** * Further properties *)

(** ** The rule engine: order of the checks, compliance, provenance *)

(** X1. For an applicable rule the four checks report in a fixed order:
    first the required tags that are missing, in configured order, then
    the forbidden tags that are present, in configured order, then the
    violated constraints, in configured order, and last the pattern
    mismatches, tag name by tag name in the order of the visit. *)
Theorem checkRule_check_order keys resource rule :
  spec.applicable resource rule →
  golang.is_range_order (parser.Tags resource) keys →
  validator.checkRule keys resource rule
  = ((λ name, spec.ruleViolation resource rule ("Missing required tag: " +:+ name)) <$>
       filter (λ name, parser.Tags resource !! name = None) (config.RequiredTags rule))
    ++ ((λ name, spec.ruleViolation resource rule ("Forbidden tag found: " +:+ name)) <$>
          filter (λ name, is_Some (parser.Tags resource !! name)) (config.ForbiddenTags rule))
    ++ concat (spec.constraintViolations resource rule <$> config.TagConstraints rule)
    ++ concat (spec.patternViolations resource rule <$> keys).
Proof.
  intros Happ Hkeys. rewrite checkRule_applicable by done.
  unfold spec.beforePatterns.
  rewrite checkTagConstraints_concat, checkForbiddenTags_filter, checkRequiredTags_filter.
  rewrite (range_order_present _ keys) by done. by rewrite app_nil_l, <- !app_assoc.
Qed.

Lemma checkRule_check_order_witness :
  spec.applicable examples.mixedCaseResource examples.namingRule
  ∧ golang.is_range_order (parser.Tags examples.mixedCaseResource) ["environment"; "Name"]
  ∧ validator.checkRule ["environment"; "Name"] examples.mixedCaseResource examples.namingRule
    = ((λ name, spec.ruleViolation examples.mixedCaseResource examples.namingRule
                  ("Missing required tag: " +:+ name)) <$>
         filter (λ name, parser.Tags examples.mixedCaseResource !! name = None)
                (config.RequiredTags examples.namingRule))
      ++ ((λ name, spec.ruleViolation examples.mixedCaseResource examples.namingRule
                     ("Forbidden tag found: " +:+ name)) <$>
            filter (λ name, is_Some (parser.Tags examples.mixedCaseResource !! name))
                   (config.ForbiddenTags examples.namingRule))
      ++ concat (spec.constraintViolations examples.mixedCaseResource examples.namingRule <$>
                   config.TagConstraints examples.namingRule)
      ++ concat (spec.patternViolations examples.mixedCaseResource examples.namingRule <$>
                   ["environment"; "Name"]).
Proof.
  assert (spec.applicable examples.mixedCaseResource examples.namingRule) as Happ
    by (vm_compute; auto).
  assert (golang.is_range_order (parser.Tags examples.mixedCaseResource)
            ["environment"; "Name"]) as Hkeys
    by (apply (bool_decide_unpack _); vm_compute; exact I).
  split; [exact Happ|]. split; [exact Hkeys|].
  exact (checkRule_check_order _ _ _ Happ Hkeys).
Defined.

Lemma fmap_nil_iff {A B : Type} (f : A → B) (l : list A) : f <$> l = [] ↔ l = [].
Proof. split; [apply fmap_nil_inv | by intros ->]. Qed.

Lemma filter_nil_iff {A : Type} (P : A → Prop) `{!∀ x, Decision (P x)} (l : list A) :
  filter P l = [] ↔ ∀ x, x ∈ l → ¬ P x.
Proof.
  induction l as [|x l IH].
  - split; [by intros _ ? ?%elem_of_nil | done].
  - rewrite filter_cons. case_decide as Hx.
    + split; [done|]. intros Hall. destruct (Hall x); [by left | done].
    + rewrite IH. split.
      * intros Hall y [->|Hy]%elem_of_cons; [done | by apply Hall].
      * intros Hall y Hy. apply Hall. by right.
Qed.

Lemma concat_nil_iff {A : Type} (ls : list (list A)) :
  concat ls = [] ↔ ∀ l, l ∈ ls → l = [].
Proof.
  induction ls as [|l ls IH]; simpl.
  - split; [by intros _ ? ?%elem_of_nil | done].
  - split.
    + intros [-> Hrest]%app_eq_nil k [->|Hk]%elem_of_cons; [done|]. by apply IH.
    + intros Hall. rewrite (Hall l) by (by left). apply IH. intros k Hk. apply Hall. by right.
Qed.

Lemma constraintViolations_nil resource rule constraint :
  spec.constraintViolations resource rule constraint = []
  ↔ ∀ value, parser.Tags resource !! config.ctTag constraint = Some value →
             value ∈ config.AllowedValues constraint.
Proof.
  unfold spec.constraintViolations.
  destruct (parser.Tags resource !! config.ctTag constraint) as [value|]; [|done].
  destruct (validator.isValueAllowed value (config.AllowedValues constraint)) eqn:Hallowed.
  - apply isValueAllowed_elem_of in Hallowed. split; [by intros _ ? [= <-] | done].
  - apply isValueAllowed_false in Hallowed. split; [done|].
    intros Hall. by destruct Hallowed; apply Hall.
Qed.

Lemma patternViolations_nil resource rule name :
  spec.patternViolations resource rule name = []
  ↔ ∀ pattern, pattern ∈ config.TagPatterns rule → config.Validate pattern name = true.
Proof.
  unfold spec.patternViolations. rewrite fmap_nil_iff, filter_nil_iff.
  split; intros Hall pattern Hp; specialize (Hall pattern Hp);
    by destruct (config.Validate pattern name).
Qed.

Lemma checkRule_nil_compliant keys resource rule :
  spec.applicable resource rule →
  golang.is_range_order (parser.Tags resource) keys →
  validator.checkRule keys resource rule = [] ↔ props.compliant resource rule.
Proof.
  intros Happ Hkeys. rewrite checkRule_applicable by done.
  unfold spec.beforePatterns.
  rewrite checkTagConstraints_concat, checkForbiddenTags_filter, checkRequiredTags_filter.
  rewrite (range_order_present _ keys) by done. rewrite app_nil_l.
  assert (∀ name, name ∈ keys ↔ is_Some (parser.Tags resource !! name)) as Hdom.
  { intros name. destruct Hkeys as [_ Hset].
    rewrite <- elem_of_dom, <- Hset. by rewrite elem_of_list_to_set. }
  rewrite !app_nil, !fmap_nil_iff, !filter_nil_iff, !concat_nil_iff.
  unfold props.compliant. split.
  - intros (((Hreq & Hforb) & Hcons) & Hpat). split; [|split; [|split]].
    + intros name Hname. specialize (Hreq name Hname).
      by destruct (parser.Tags resource !! name).
    + intros name Hname. specialize (Hforb name Hname).
      destruct (parser.Tags resource !! name) eqn:E; [|done]. by destruct Hforb.
    + intros constraint value Hc. revert value.
      apply (constraintViolations_nil resource rule constraint), Hcons, list_elem_of_fmap.
      by exists constraint.
    + intros name pattern Hname. revert pattern.
      apply (patternViolations_nil resource rule name), Hpat, list_elem_of_fmap. exists name.
      split; [done | by apply Hdom].
  - intros (Hreq & Hforb & Hcons & Hpat). split; [split; [split|]|].
    + intros name Hname Hnone. destruct (Hreq name Hname) as [value Hvalue]. congruence.
    + intros name Hname [value Hvalue]. rewrite (Hforb name Hname) in Hvalue. done.
    + intros block (constraint & -> & Hc)%list_elem_of_fmap.
      apply constraintViolations_nil. intros value. by apply Hcons.
    + intros block (name & -> & Hname)%list_elem_of_fmap.
      apply patternViolations_nil. intros pattern. apply Hpat. by apply Hdom.
Qed.

(** X2. For an applicable rule, [checkRule] reports nothing exactly when
    the resource is compliant: every required tag is a key of its tags
    (whatever its value), no forbidden tag is, every constraint whose tag
    is present has one of the allowed values, and every pattern of the
    rule matches every tag name of the resource. *)
Theorem checkRule_clean_iff keys resource rule :
  spec.applicable resource rule →
  golang.is_range_order (parser.Tags resource) keys →
  validator.checkRule keys resource rule = [] ↔ props.compliant resource rule.
Proof. apply checkRule_nil_compliant. Qed.

Lemma checkRule_clean_iff_witness :
  spec.applicable (examples.tagged {["Environment" := "prod"]})
    (examples.constraintRule examples.environmentConstraint)
  ∧ golang.is_range_order (parser.Tags (examples.tagged {["Environment" := "prod"]}))
      ["Environment"]
  ∧ (validator.checkRule ["Environment"] (examples.tagged {["Environment" := "prod"]})
       (examples.constraintRule examples.environmentConstraint) = []
     ↔ props.compliant (examples.tagged {["Environment" := "prod"]})
         (examples.constraintRule examples.environmentConstraint)).
Proof.
  assert (spec.applicable (examples.tagged {["Environment" := "prod"]})
            (examples.constraintRule examples.environmentConstraint)) as Happ
    by (vm_compute; auto).
  assert (golang.is_range_order (parser.Tags (examples.tagged {["Environment" := "prod"]}))
            ["Environment"]) as Hkeys
    by (apply (bool_decide_unpack _); vm_compute; exact I).
  split; [exact Happ|]. split; [exact Hkeys|].
  exact (checkRule_clean_iff _ _ _ Happ Hkeys).
Defined.

Lemma checkRules_nil resource rules :
  ∀ order : nat → list string,
    (∀ j, golang.is_range_order (parser.Tags resource) (order j)) →
    concat (imap (λ j rule, validator.checkRule (order j) resource rule) rules) = []
    ↔ ∀ rule, rule ∈ rules → spec.applicable resource rule → props.compliant resource rule.
Proof.
  induction rules as [|rule rules IH]; intros order Horder.
  - split; [by intros _ ? ?%elem_of_nil | done].
  - rewrite imap_cons. csimpl. rewrite app_nil.
    rewrite (IH (λ j, order (S j))) by (intros j; apply Horder).
    split.
    + intros [Hrule Hrest] rule' [->|Hin]%elem_of_cons Happ; [|by apply Hrest].
      by apply (checkRule_nil_compliant (order 0%nat)).
    + intros Hall. split.
      * destruct (decide (spec.applicable resource rule)) as [Happ|Hnot].
        -- apply checkRule_nil_compliant; [done..|]. apply Hall; [by left | done].
        -- by apply checkRule_not_applicable.
      * intros rule' Hin. apply Hall. by right.
Qed.

Lemma resourceViolations_nil order cfg resource :
  (∀ j, golang.is_range_order (parser.Tags resource) (order j)) →
  spec.resourceViolations order cfg resource = [] ↔ props.passes cfg resource.
Proof.
  intros Horder. unfold spec.resourceViolations, props.passes.
  case_decide as Hignored; [by split; [left|]|].
  rewrite app_nil, fmap_nil_iff, filter_nil_iff, checkRules_nil by done.
  split.
  - intros [Hglobal Hrules]. right. split; [|done].
    intros name Hname. specialize (Hglobal name Hname).
    by destruct (parser.Tags resource !! name).
  - intros [?|[Hglobal Hrules]]; [done|]. split; [|done].
    intros name Hname Hnone. destruct (Hglobal name Hname) as [value Hvalue]. congruence.
Qed.

Lemma Validate_nil_passes cfg resources :
  ∀ order,
    validator.valid_orders order resources →
    validator.Validate order cfg resources = [] ↔ Forall (props.passes cfg) resources.
Proof.
  intros order. rewrite Validate_concat. revert order.
  induction resources as [|resource resources IH]; intros order Hvalid.
  - by split.
  - rewrite imap_cons. csimpl. rewrite app_nil, Forall_cons.
    rewrite (IH (λ i, order (S i))) by (intros i r Hr j; by apply (Hvalid (S i))).
    by rewrite resourceViolations_nil by (intros j; by apply (Hvalid 0%nat)).
Qed.

(** X3. A run of [Validate] returns no violation exactly when every
    resource passes: its type is listed in [IgnoreResourceTypes], or it
    carries every tag of [AlwaysRequiredTags] and is compliant with every
    rule that applies to it. *)
Theorem Validate_clean_iff order cfg resources :
  validator.valid_orders order resources →
  validator.Validate order cfg resources = [] ↔ Forall (props.passes cfg) resources.
Proof. apply Validate_nil_passes. Qed.

Lemma lowercaseResource_orders order :
  (∀ i j, golang.is_range_order (parser.Tags examples.lowercaseResource) (order i j)) →
  validator.valid_orders order [examples.lowercaseResource].
Proof.
  intros Horder i resource Hlookup j.
  destruct i as [|i]; simpl in Hlookup; [|done].
  injection Hlookup as Heq. rewrite <- Heq. apply Horder.
Defined.

Lemma envFirst_valid : validator.valid_orders examples.envFirst [examples.lowercaseResource].
Proof.
  apply lowercaseResource_orders. intros i j.
  apply (bool_decide_unpack _). vm_compute. exact I.
Defined.

Lemma ownerFirst_valid : validator.valid_orders examples.ownerFirst [examples.lowercaseResource].
Proof.
  apply lowercaseResource_orders. intros i j.
  apply (bool_decide_unpack _). vm_compute. exact I.
Defined.

Lemma Validate_clean_iff_witness :
  validator.valid_orders examples.envFirst [examples.lowercaseResource]
  ∧ (validator.Validate examples.envFirst examples.namingConfig [examples.lowercaseResource] = []
     ↔ Forall (props.passes examples.namingConfig) [examples.lowercaseResource]).
Proof.
  split; [exact envFirst_valid|].
  exact (Validate_clean_iff _ examples.namingConfig _ envFirst_valid).
Defined.

(** X4. [Validate] treats the resources independently: the output for a
    concatenation of two lists is the output for the first followed by
    the output for the second. *)
Theorem Validate_app order cfg resources1 resources2 :
  validator.Validate order cfg (resources1 ++ resources2)
  = validator.Validate order cfg resources1
    ++ validator.Validate (λ i, order (length resources1 + i)%nat) cfg resources2.
Proof. by rewrite !Validate_concat, imap_app, concat_app. Qed.

Lemma elem_of_concat {A : Type} (x : A) (ls : list (list A)) :
  x ∈ concat ls ↔ ∃ l, x ∈ l ∧ l ∈ ls.
Proof.
  induction ls as [|l ls IH]; simpl.
  - split; [by intros ?%elem_of_nil | by intros (l & _ & ?%elem_of_nil)].
  - rewrite elem_of_app, IH. split.
    + intros [Hx|(k & Hx & Hk)]; [exists l; split; [done | by left]|].
      exists k. split; [done | by right].
    + intros (k & Hx & [->|Hk]%elem_of_cons); [by left|]. right. by exists k.
Qed.



(** X6. Two runs of [Validate] on the same input, whatever orders their
    range statements visit the tags in, return the same violations with
    the same multiplicities: one output is a permutation of the other,
    and both have the same length. *)
Theorem Validate_same_multiset order1 order2 cfg resources :
  validator.valid_orders order1 resources →
  validator.valid_orders order2 resources →
  validator.Validate order1 cfg resources ≡ₚ validator.Validate order2 cfg resources
  ∧ length (validator.Validate order1 cfg resources)
    = length (validator.Validate order2 cfg resources).
Proof.
  intros Hvalid1 Hvalid2.
  pose proof (Validate_Permutation cfg resources order1 order2 Hvalid1 Hvalid2) as Hperm.
  split; [done | by rewrite Hperm].
Qed.

Lemma Validate_same_multiset_witness :
  validator.valid_orders examples.envFirst [examples.lowercaseResource]
  ∧ validator.valid_orders examples.ownerFirst [examples.lowercaseResource]
  ∧ validator.Validate examples.envFirst examples.namingConfig [examples.lowercaseResource]
    ≡ₚ validator.Validate examples.ownerFirst examples.namingConfig [examples.lowercaseResource]
  ∧ length (validator.Validate examples.envFirst examples.namingConfig
              [examples.lowercaseResource])
    = length (validator.Validate examples.ownerFirst examples.namingConfig
                [examples.lowercaseResource]).
Proof.
  split; [exact envFirst_valid|]. split; [exact ownerFirst_valid|].
  exact (Validate_same_multiset _ _ examples.namingConfig _ envFirst_valid ownerFirst_valid).
Defined.

Lemma checkRules_without_patterns resource rules :
  Forall (λ rule, config.TagPatterns rule = []) rules →
  ∀ order1 order2 : nat → list string,
    imap (λ j rule, validator.checkRule (order1 j) resource rule) rules
    = imap (λ j rule, validator.checkRule (order2 j) resource rule) rules.
Proof.
  intros Hnone order1 order2. apply imap_ext. intros j rule Hrule.
  rewrite Forall_forall in Hnone.
  rewrite (checkRule_no_patterns (order1 j)), (checkRule_no_patterns (order2 j));
    [done|by eapply Hnone, list_elem_of_lookup_2..].
Qed.

(** X7. When no rule has tag patterns, the output of [Validate] does not
    depend on the order in which the range statements visit the tags:
    any two runs return the same sequence. *)
Theorem Validate_without_patterns order1 order2 cfg resources :
  Forall (λ rule, config.TagPatterns rule = []) (config.Rules cfg) →
  validator.Validate order1 cfg resources = validator.Validate order2 cfg resources.
Proof.
  intros Hnone. rewrite !Validate_concat. f_equal. apply imap_ext. intros i resource _.
  unfold spec.resourceViolations. case_decide; [done|]. do 2 f_equal.
  by apply checkRules_without_patterns.
Qed.

Lemma Validate_without_patterns_witness :
  Forall (λ rule, config.TagPatterns rule = []) (config.Rules examples.combinedConfig)
  ∧ validator.Validate (λ _ _, ["Test"]) examples.combinedConfig [examples.combinedResource]
    = validator.Validate (λ _ _, []) examples.combinedConfig [examples.combinedResource].
Proof.
  assert (Forall (λ rule, config.TagPatterns rule = [])
            (config.Rules examples.combinedConfig)) as Hnone
    by (repeat constructor).
  split; [exact Hnone|].
  exact (Validate_without_patterns _ _ examples.combinedConfig _ Hnone).
Defined.

(** ** The plan extractor: traversal, addresses, tags *)

Lemma omap_concat {A B : Type} (f : A → option B) (ls : list (list A)) :
  omap f (concat ls) = concat ((λ l : list A, omap f l) <$> ls).
Proof.
  induction ls as [|l ls IH]; [done|]. csimpl. by rewrite omap_app, IH.
Qed.

Lemma processResources_omap resources filename :
  ∀ result,
    plan.processResources resources filename result
    = {| parser.Resources :=
           parser.Resources result
           ++ omap (λ planned, plan.convertPlannedResource planned filename) resources;
         parser.Errors := parser.Errors result |}.
Proof.
  unfold plan.processResources.
  induction resources as [|planned rest IH]; intros result; simpl.
  - rewrite app_nil_r. by destruct result.
  - rewrite IH. destruct (plan.convertPlannedResource planned filename); simpl; [|done].
    by rewrite <- app_assoc.
Qed.

Lemma processChildModules_omap filename childModules :
  Forall (λ child,
            ∀ result,
              plan.processChildModule child filename result
              = {| parser.Resources :=
                     parser.Resources result
                     ++ omap (λ planned, plan.convertPlannedResource planned filename)
                             (props.moduleResources child);
                   parser.Errors := parser.Errors result |})
         childModules →
  ∀ result,
    fold_left (λ result child, plan.processChildModule child filename result)
              childModules result
    = {| parser.Resources :=
           parser.Resources result
           ++ omap (λ planned, plan.convertPlannedResource planned filename)
                   (concat (props.moduleResources <$> childModules));
         parser.Errors := parser.Errors result |}.
Proof.
  induction 1 as [|child rest Hchild _ IH]; intros result; simpl.
  - rewrite app_nil_r. by destruct result.
  - rewrite Hchild, IH. simpl. by rewrite omap_app, app_assoc.
Qed.

Lemma processChildModule_omap filename module :
  ∀ result,
    plan.processChildModule module filename result
    = {| parser.Resources :=
           parser.Resources result
           ++ omap (λ planned, plan.convertPlannedResource planned filename)
                   (props.moduleResources module);
         parser.Errors := parser.Errors result |}.
Proof.
  induction module as [address resources childModules IH] using ChildModule_nested_ind.
  intros result. simpl.
  rewrite processChildModules_omap, processResources_omap by done. simpl.
  by rewrite omap_app, app_assoc.
Qed.

(** X8. A decoded plan always gives a result without errors, and its
    resources follow the depth-first traversal of the modules: the
    resources of the root module, then module by module those of each
    child module followed by those of its own child modules; a planned
    resource that is not converted is left out without disturbing the
    others. *)
Theorem ParseTerraformPlan_traversal filename decoded :
  plan.ParseTerraformPlan filename (plan.Decoded decoded)
  = inr {| parser.Resources :=
             omap (λ planned, plan.convertPlannedResource planned filename)
                  (props.planResources (plan.RootModule_ (plan.PlannedValues_ decoded)));
           parser.Errors := [] |}.
Proof.
  simpl. f_equal. unfold plan.processModuleResources, props.planResources.
  rewrite processChildModules_omap, processResources_omap
    by (apply Forall_forall; intros child _; apply processChildModule_omap).
  simpl. by rewrite omap_app.
Qed.

Lemma Split_nonempty s sep : golang.Split s sep ≠ [].
Proof.
  intros Hnil. pose proof (Split_length s sep) as Hlen. rewrite Hnil in Hlen. simpl in Hlen. lia.
Qed.

Lemma Split_app a b sep :
  golang.Split (a +:+ String sep b) sep = golang.Split a sep ++ golang.Split b sep.
Proof.
  induction a as [|c a IH]; simpl.
  - by rewrite Ascii.eqb_refl.
  - rewrite IH. destruct (Ascii.eqb c sep); [done|].
    destruct (golang.Split a sep) as [|seg segs] eqn:Hsplit; [|done].
    by destruct (Split_nonempty a sep).
Qed.

Lemma Split_no_separator s sep :
  Forall (λ segment, ¬ props.occurs sep segment) (golang.Split s sep).
Proof.
  induction s as [|c s IH]; simpl.
  - constructor; [by intros [] | constructor].
  - destruct (Ascii.eqb_spec c sep) as [->|Hne].
    + constructor; [by intros [] | exact IH].
    + destruct (golang.Split s sep) as [|seg segs].
      * constructor; [|constructor]. simpl. by intros [?|[]].
      * apply Forall_cons in IH as [Hseg Hsegs]. constructor; [|done].
        simpl. by intros [?|?].
Qed.

Lemma Join_Split s sep : golang.Join (golang.Split s sep) (String sep "") = s.
Proof.
  induction s as [|c s IH]; [done|]. simpl.
  destruct (Ascii.eqb_spec c sep) as [->|Hne].
  - destruct (golang.Split s sep) as [|seg segs] eqn:Hsplit;
      [by destruct (Split_nonempty s sep)|].
    simpl in *. by rewrite IH.
  - destruct (golang.Split s sep) as [|seg segs] eqn:Hsplit;
      [by destruct (Split_nonempty s sep)|].
    simpl in *. destruct segs; simpl in *; by rewrite <- IH.
Qed.

Lemma chosenIdentity_elem segments :
  (2 ≤ length segments)%nat →
  (spec.chosenIdentity segments).1 ∈ segments ∧ (spec.chosenIdentity segments).2 ∈ segments.
Proof.
  intros Hlen. destruct (chosenIdentity_adjacent segments Hlen) as (before & after & Heq).
  rewrite Heq at 2 4. rewrite !elem_of_app, !elem_of_cons. auto.
Qed.

(** X9. The Type and Name of a resource extracted from a plan are two
    consecutive dot-separated components of its address: the address is
    the components before them, Type, Name and the components after them
    joined by dots, and neither Type nor Name contains a dot. *)
Theorem convertPlannedResource_components planned filename resource :
  plan.convertPlannedResource planned filename = Some resource →
  (∃ before after,
     plan.Address planned
     = golang.Join (before ++ parser.Type_ resource :: parser.Name resource :: after) ".")
  ∧ ¬ props.occurs "." (parser.Type_ resource)
  ∧ ¬ props.occurs "." (parser.Name resource).
Proof.
  rewrite convertPlannedResource_identity.
  destruct (_ <? 2)%nat eqn:Hshort; [done|]. apply Nat.ltb_ge in Hshort.
  intros [= <-]. simpl.
  pose proof (Split_no_separator (plan.Address planned) ".") as Hnodot.
  rewrite Forall_forall in Hnodot.
  destruct (chosenIdentity_elem _ Hshort) as [Htype Hname].
  split; [|split; by apply Hnodot].
  destruct (chosenIdentity_adjacent _ Hshort) as (before & after & Heq).
  exists before, after. rewrite <- Heq. symmetry. apply Join_Split.
Qed.

Lemma convertPlannedResource_components_witness :
  let resource :=
    {| parser.Type_ := "aws_vpc"; parser.Name := "main"; parser.Tags := ∅;
       parser.Location := spec.planLocation "plan.json"; parser.File := "plan.json" |} in
  plan.convertPlannedResource (examples.planned "module.vpc.aws_vpc.main") "plan.json"
  = Some resource
  ∧ (∃ before after,
       plan.Address (examples.planned "module.vpc.aws_vpc.main")
       = golang.Join (before ++ parser.Type_ resource :: parser.Name resource :: after) ".")
  ∧ ¬ props.occurs "." (parser.Type_ resource)
  ∧ ¬ props.occurs "." (parser.Name resource).
Proof.
  intros resource.
  assert (plan.convertPlannedResource (examples.planned "module.vpc.aws_vpc.main") "plan.json"
          = Some resource) as Hconv by (vm_compute; reflexivity).
  split; [exact Hconv|].
  exact (convertPlannedResource_components _ _ _ Hconv).
Defined.

Lemma firstTypeAndName_skip before segments :
  Forall spec.noMatch before → segments ≠ [] →
  spec.firstTypeAndName (before ++ segments) = spec.firstTypeAndName segments.
Proof.
  intros Hbefore Hsegments. induction Hbefore as [|segment before Hsegment _ IH]; [done|].
  simpl. rewrite Hsegment, IH.
  destruct (before ++ segments) eqn:Happ; [|done].
  apply app_eq_nil in Happ as [_ ?]. done.
Qed.

Lemma lastTwo_app before segments :
  (2 ≤ length segments)%nat → spec.lastTwo (before ++ segments) = spec.lastTwo segments.
Proof.
  intros Hlen. unfold spec.lastTwo, golang.index. rewrite length_app.
  rewrite !app_nth2 by lia. do 2 f_equal; lia.
Qed.

(** X10. Module and data-source prefixes do not change the identity: if
    a planned resource is extracted, then putting in front of its address
    any dotted prefix none of whose components starts with a provider
    prefix (such as "module.vpc" or "data") gives the same Type and
    Name. *)
Theorem identity_prefix_invariant prefix planned filename :
  Forall spec.noMatch (golang.Split prefix ".") →
  is_Some (plan.convertPlannedResource planned filename) →
  spec.identity (props.withAddress (prefix +:+ "." +:+ plan.Address planned) planned) filename
  = spec.identity planned filename.
Proof.
  intros Hprefix Hsome. unfold spec.identity.
  rewrite !convertPlannedResource_identity in *. simpl plan.Address.
  replace (prefix +:+ "." +:+ plan.Address planned)
    with (prefix +:+ String "." (plan.Address planned)) by done.
  rewrite Split_app.
  destruct (length (golang.Split (plan.Address planned) ".") <? 2)%nat eqn:Hshort;
    [by destruct Hsome|].
  apply Nat.ltb_ge in Hshort.
  replace (length (golang.Split prefix "." ++ golang.Split (plan.Address planned) ".") <? 2)%nat
    with false by (symmetry; apply Nat.ltb_ge; rewrite length_app; lia).
  simpl. unfold spec.chosenIdentity.
  rewrite firstTypeAndName_skip by (done || apply Split_nonempty).
  by rewrite lastTwo_app.
Qed.

Lemma identity_prefix_invariant_witness :
  Forall spec.noMatch (golang.Split "module.network.module.subnets" ".")
  ∧ is_Some (plan.convertPlannedResource (examples.planned "aws_subnet.private") "plan.json")
  ∧ spec.identity
      (props.withAddress ("module.network.module.subnets" +:+ "." +:+
                          plan.Address (examples.planned "aws_subnet.private"))
         (examples.planned "aws_subnet.private")) "plan.json"
    = spec.identity (examples.planned "aws_subnet.private") "plan.json".
Proof.
  assert (Forall spec.noMatch (golang.Split "module.network.module.subnets" ".")) as Hprefix.
  { replace (golang.Split "module.network.module.subnets" ".")
      with ["module"; "network"; "module"; "subnets"] by (vm_compute; reflexivity).
    repeat (constructor; [vm_compute; reflexivity|]). constructor. }
  assert (is_Some (plan.convertPlannedResource (examples.planned "aws_subnet.private")
                     "plan.json")) as Hsome
    by (vm_compute; eexists; reflexivity).
  split; [exact Hprefix|]. split; [exact Hsome|].
  exact (identity_prefix_invariant _ _ _ Hprefix Hsome).
Defined.

(** ** The source extractor: tags, blocks and walks *)

Lemma extractTagsFromExpression_items Items :
  ∀ tags,
    source.extractTagsFromExpression (hclsyntax.ObjectConsExpr Items) tags
    = list_to_map (reverse (props.staticEntries Items)) ∪ tags.
Proof.
  unfold props.staticEntries. simpl.
  induction Items as [|item Items IH]; intros tags; simpl.
  - by rewrite (left_id_L ∅ (∪)).
  - rewrite IH. unfold props.staticEntry at 2.
    destruct (source.keyOf item.1) as [key|]; [|done].
    destruct (source.getStringValue item.2) as [val|]; [|done].
    rewrite reverse_cons, list_to_map_app. simpl.
    rewrite insert_empty, <- (assoc_L (∪)). f_equal.
    by rewrite insert_union_singleton_l.
Qed.

Lemma extractTagsFromExpression_step Items tags :
  source.extractTagsFromExpression (hclsyntax.ObjectConsExpr Items) tags
  = fold_left (λ tags item,
                 match props.staticEntry item with
                 | Some (key, val) => <[key := val]> tags
                 | None => tags
                 end) Items tags.
Proof.
  simpl. apply fold_left_pointwise. intros acc item. unfold props.staticEntry.
  destruct (source.keyOf item.1); [|done]. by destruct (source.getStringValue item.2).
Qed.

Lemma extractTagsFromExpression_lookup Items key val :
  ∀ tags,
    source.extractTagsFromExpression (hclsyntax.ObjectConsExpr Items) tags !! key = Some val
    ↔ (∃ before after item,
         Items = before ++ item :: after
         ∧ props.staticEntry item = Some (key, val)
         ∧ Forall (λ later, ∀ val', props.staticEntry later ≠ Some (key, val')) after)
      ∨ (Forall (λ item, ∀ val', props.staticEntry item ≠ Some (key, val')) Items
         ∧ tags !! key = Some val).
Proof.
  intros tags. rewrite extractTagsFromExpression_step. revert tags.
  induction Items as [|item Items IH] using rev_ind; intros tags.
  - simpl. split.
    + intros Htags. right. by split; [constructor|].
    + intros [(before & after & item & Heq & _)|[_ Htags]]; [|done]. by destruct before.
  - rewrite fold_left_app. simpl.
    assert ((∃ val', props.staticEntry item = Some (key, val'))
            ∨ (∀ val', props.staticEntry item ≠ Some (key, val'))) as [[v Hitem]|Hnot].
    { destruct (props.staticEntry item) as [[k v]|]; [|by right].
      destruct (decide (k = key)) as [->|Hne]; [left; by exists v|].
      right. by intros val' [= ? ?]. }
    + rewrite Hitem, lookup_insert_eq. split.
      * intros [= <-]. left. exists Items, [], item. by repeat split; [|constructor].
      * intros [(before & after & it & Heq & Hit & Hafter)|[Hall _]].
        -- destruct after as [|last after _] using rev_ind.
           ++ apply app_inj_tail in Heq as [_ <-]. congruence.
           ++ rewrite app_comm_cons, app_assoc in Heq. apply app_inj_tail in Heq as [_ <-].
              apply Forall_app in Hafter as [_ Hlast].
              apply Forall_inv in Hlast. by destruct (Hlast v).
        -- apply Forall_app in Hall as [_ Hlast].
           apply Forall_inv in Hlast. by destruct (Hlast v).
    + assert (∀ acc : gmap string string,
                (match props.staticEntry item with
                 | Some (k, v) => <[k := v]> acc
                 | None => acc
                 end) !! key = acc !! key) as ->.
      { intros acc. destruct (props.staticEntry item) as [[k v]|] eqn:Hentry; [|done].
        apply lookup_insert_ne. intros ->. by destruct (Hnot v). }
      rewrite IH. split.
      * intros [(before & after & it & -> & Hit & Hafter)|[Hall Htags]].
        -- left. exists before, (after ++ [item]), it.
           split; [by rewrite <- app_assoc|]. split; [done|].
           apply Forall_app. split; [done | by constructor].
        -- right. split; [|done]. apply Forall_app. split; [done | by constructor].
      * intros [(before & after & it & Heq & Hit & Hafter)|[Hall Htags]].
        -- destruct after as [|last after _] using rev_ind.
           ++ apply app_inj_tail in Heq as [_ <-]. by destruct (Hnot val).
           ++ rewrite app_comm_cons, app_assoc in Heq. apply app_inj_tail in Heq as [-> <-].
              apply Forall_app in Hafter as [Hafter _].
              left. by exists before, after, it.
        -- right. apply Forall_app in Hall as [Hall _]. done.
Qed.

(** X11. From an object constructor [extractTagsFromExpression] takes
    the entries with a static key and a literal string value and leaves
    out the others; where a key occurs more than once the last entry
    wins, and the entries taken override the tags collected before. An
    expression that is not an object constructor leaves the tags
    unchanged. *)
Theorem extractTagsFromExpression_entries :
  (∀ Items tags,
     source.extractTagsFromExpression (hclsyntax.ObjectConsExpr Items) tags
     = list_to_map (reverse (props.staticEntries Items)) ∪ tags)
  ∧ (∀ Items tags key val,
       source.extractTagsFromExpression (hclsyntax.ObjectConsExpr Items) tags !! key = Some val
       ↔ (∃ before after item,
            Items = before ++ item :: after
            ∧ props.staticEntry item = Some (key, val)
            ∧ Forall (λ later, ∀ val', props.staticEntry later ≠ Some (key, val')) after)
         ∨ (Forall (λ item, ∀ val', props.staticEntry item ≠ Some (key, val')) Items
            ∧ tags !! key = Some val))
  ∧ (∀ expr tags,
       (∀ Items, expr ≠ hclsyntax.ObjectConsExpr Items) →
       source.extractTagsFromExpression expr tags = tags).
Proof.
  split; [exact extractTagsFromExpression_items|].
  split; [intros Items tags key val; apply extractTagsFromExpression_lookup|].
  intros expr tags Hexpr. destruct expr; try done. by destruct (Hexpr Items).
Qed.

Lemma extractTagsFromExpression_entries_witness :
  source.extractTagsFromExpression hclsyntax.OtherExpr {[ "Name" := "web" ]}
  = {[ "Name" := "web" ]}.
Proof.
  apply (proj2 (proj2 extractTagsFromExpression_entries)). intros Items. discriminate.
Defined.


(** X13. When [parseFile] succeeds, it returns one resource for each
    "resource" block with at least two labels, in the order of the
    blocks; each carries the name of the parsed file and the defining
    range of its block. Blocks of another type and resource blocks with
    fewer than two labels are passed over. *)
Theorem parseFile_resources files filename resources :
  source.parseFile files filename = inr resources →
  ∃ body,
    hclsyntax.FileBody_ (files filename) = hclsyntax.SyntaxBody body
    ∧ length resources = length (filter spec.resource_block (hclsyntax.Blocks body))
    ∧ parser.Location <$> resources
      = hclsyntax.DefRange <$> filter spec.resource_block (hclsyntax.Blocks body)
    ∧ parser.Tags <$> resources
      = (λ block, source.extractTags (hclsyntax.Body_ block)) <$>
          filter spec.resource_block (hclsyntax.Blocks body)
    ∧ Forall (λ resource, parser.File resource = filename) resources.
Proof.
  rewrite parseFile_blocks.
  destruct (hclsyntax.HasErrors (files filename)); [done|].
  destruct (hclsyntax.FileBody_ (files filename)) as [body|]; [|done].
  intros [= <-]. exists body. split; [done|].
  split; [by rewrite length_fmap|].
  split; [by rewrite <- list_fmap_compose|].
  split; [by rewrite <- list_fmap_compose|].
  by apply Forall_fmap, Forall_forall.
Qed.

Lemma parseFile_resources_witness :
  let resources :=
    [ {| parser.Type_ := "aws_instance"; parser.Name := "good";
         parser.Tags := {["Name" := "valid"]};
         parser.Location := examples.blockRange "dir/a.tf";
         parser.File := "dir/a.tf" |} ] in
  source.parseFile examples.threeFiles "dir/a.tf" = inr resources
  ∧ ∃ body,
      hclsyntax.FileBody_ (examples.threeFiles "dir/a.tf") = hclsyntax.SyntaxBody body
      ∧ length resources = length (filter spec.resource_block (hclsyntax.Blocks body))
      ∧ parser.Location <$> resources
        = hclsyntax.DefRange <$> filter spec.resource_block (hclsyntax.Blocks body)
      ∧ parser.Tags <$> resources
        = (λ block, source.extractTags (hclsyntax.Body_ block)) <$>
            filter spec.resource_block (hclsyntax.Blocks body)
      ∧ Forall (λ resource, parser.File resource = "dir/a.tf") resources.
Proof.
  intros resources.
  assert (source.parseFile examples.threeFiles "dir/a.tf" = inr resources) as Hparse
    by (vm_compute; reflexivity).
  split; [exact Hparse|].
  exact (parseFile_resources examples.threeFiles "dir/a.tf" resources Hparse).
Defined.

Lemma walkPaths_concat files walks :
  ∀ result, source.walkPaths files walks result = source.Walk files (concat walks) result.
Proof.
  induction walks as [|entries walks IH]; intros result; [done|]. simpl.
  revert result. induction entries as [|entry entries IHentries]; intros result; simpl.
  - apply IH.
  - destruct (source.walkFn files entry result); [done | apply IHentries].
Qed.

Lemma Walk_first_error files before entry after e :
  Forall (λ entry, source.err entry = None) before →
  source.err entry = Some e →
  ∀ result, source.Walk files (before ++ entry :: after) result = inl e.
Proof.
  intros Hbefore Herr. induction Hbefore as [|first before Hfirst _ IH]; intros result; simpl.
  - unfold source.walkFn. by rewrite Herr.
  - rewrite walkFn_file by done. apply IH.
Qed.

(** X14. An error that the walk itself meets ends the whole run: when an
    entry of the walk carries an error and no earlier entry does,
    [ParseTerraformFiles] returns that error and no result, whatever was
    parsed before and whatever paths follow. *)
Theorem ParseTerraformFiles_walk_error files walks before entry after e :
  concat walks = before ++ entry :: after →
  Forall (λ entry, source.err entry = None) before →
  source.err entry = Some e →
  source.ParseTerraformFiles files walks = inl e.
Proof.
  intros Hwalks Hbefore Herr. unfold source.ParseTerraformFiles.
  rewrite walkPaths_concat, Hwalks. by apply Walk_first_error.
Qed.

Lemma ParseTerraformFiles_walk_error_witness :
  let before :=
    [ {| source.filePath := "dir"; source.IsDir := true; source.err := None |};
      {| source.filePath := "dir/a.tf"; source.IsDir := false; source.err := None |} ] in
  let entry :=
    {| source.filePath := "dir/private"; source.IsDir := true;
       source.err := Some examples.permissionDenied |} in
  let after :=
    [ {| source.filePath := "dir/z.tf"; source.IsDir := false; source.err := None |};
      {| source.filePath := "other/z.tf"; source.IsDir := false; source.err := None |} ] in
  concat examples.brokenWalk = before ++ entry :: after
  ∧ Forall (λ entry, source.err entry = None) before
  ∧ source.err entry = Some examples.permissionDenied
  ∧ source.ParseTerraformFiles examples.threeFiles examples.brokenWalk
    = inl examples.permissionDenied.
Proof.
  intros before entry after.
  assert (concat examples.brokenWalk = before ++ entry :: after) as Hwalks by reflexivity.
  assert (Forall (λ entry, source.err entry = None) before) as Hbefore
    by (repeat constructor).
  assert (source.err entry = Some examples.permissionDenied) as Herr by reflexivity.
  split; [exact Hwalks|]. split; [exact Hbefore|]. split; [exact Herr|].
  exact (ParseTerraformFiles_walk_error examples.threeFiles _ _ _ _ _ Hwalks Hbefore Herr).
Defined.

Lemma walkFn_agree files1 files2 entry result :
  (spec.tf_file entry → files1 (source.filePath entry) = files2 (source.filePath entry)) →
  source.walkFn files1 entry result = source.walkFn files2 entry result.
Proof.
  intros Hagree. unfold source.walkFn.
  destruct (source.err entry); [done|].
  destruct (golang.HasSuffix (source.filePath entry) ".tf") eqn:Hsuffix; [|done].
  destruct (source.IsDir entry) eqn:Hdir; [done|]. simpl.
  unfold source.parseFile. by rewrite Hagree.
Qed.

Lemma Walk_agree files1 files2 entries :
  Forall (λ entry, spec.tf_file entry →
                   files1 (source.filePath entry) = files2 (source.filePath entry)) entries →
  ∀ result, source.Walk files1 entries result = source.Walk files2 entries result.
Proof.
  induction 1 as [|entry entries Hentry _ IH]; intros result; [done|]. simpl.
  rewrite (walkFn_agree files1 files2) by done.
  destruct (source.walkFn files2 entry result); [done | apply IH].
Qed.

(** X15. [ParseTerraformFiles] reads only the walked paths that end in
    ".tf" and are not directories: two file systems that agree on these
    paths give the same outcome, whatever the other files contain. *)
Theorem ParseTerraformFiles_only_tf files1 files2 walks :
  (∀ entry, entry ∈ concat walks → spec.tf_file entry →
            files1 (source.filePath entry) = files2 (source.filePath entry)) →
  source.ParseTerraformFiles files1 walks = source.ParseTerraformFiles files2 walks.
Proof.
  intros Hagree. unfold source.ParseTerraformFiles. rewrite !walkPaths_concat.
  by apply Walk_agree, Forall_forall.
Qed.

Lemma ParseTerraformFiles_only_tf_witness :
  (∀ entry, entry ∈ concat examples.threeFilesWalk → spec.tf_file entry →
            examples.threeFiles (source.filePath entry)
            = examples.threeFilesOther (source.filePath entry))
  ∧ source.ParseTerraformFiles examples.threeFiles examples.threeFilesWalk
    = source.ParseTerraformFiles examples.threeFilesOther examples.threeFilesWalk.
Proof.
  assert (∀ entry, entry ∈ concat examples.threeFilesWalk → spec.tf_file entry →
                   examples.threeFiles (source.filePath entry)
                   = examples.threeFilesOther (source.filePath entry)) as Hagree.
  { intros entry Hin Htf. simpl in Hin.
    repeat (apply elem_of_cons in Hin as [->|Hin]);
      [by destruct Htf as [_ [=]] | by destruct Htf as [[=] _] | reflexivity..
      | by apply elem_of_nil in Hin]. }
  split; [exact Hagree|].
  exact (ParseTerraformFiles_only_tf _ _ _ Hagree).
Defined.

Lemma fileResources_elem files path resource :
  resource ∈ spec.fileResources files path →
  parser.File resource = path ∧ props.parseFails files path = false.
Proof.
  unfold spec.fileResources, props.parseFails.
  destruct (source.parseFile files path) as [e|resources] eqn:Hparse;
    [by intros ?%elem_of_nil|].
  intros Hin. split; [|done].
  rewrite parseFile_blocks in Hparse.
  destruct (hclsyntax.HasErrors (files path)); [done|].
  destruct (hclsyntax.FileBody_ (files path)) as [body|]; [|done].
  injection Hparse as <-. by apply list_elem_of_fmap in Hin as (block & -> & _).
Qed.

Lemma fileErrors_length files paths :
  length (concat (spec.fileErrors files <$> paths))
  = length (filter (λ path, props.parseFails files path = true) paths).
Proof.
  induction paths as [|path paths IH]; [done|]. csimpl.
  rewrite length_app, IH, filter_cons. unfold spec.fileErrors, props.parseFails.
  destruct (source.parseFile files path); by case_decide.
Qed.

(** X16. When the walk meets no error, the result accounts for every
    walked source file: there is one recorded error for each file whose
    parse fails, and every resource of the result names as its [File] a
    walked source file whose parse succeeded. *)
Theorem ParseTerraformFiles_accounting files walks :
  Forall (λ entry, source.err entry = None) (concat walks) →
  ∃ result,
    source.ParseTerraformFiles files walks = inr result
    ∧ length (parser.Errors result)
      = length (filter (λ path, props.parseFails files path = true) (spec.tfFiles walks))
    ∧ Forall (λ resource,
                parser.File resource ∈ spec.tfFiles walks
                ∧ props.parseFails files (parser.File resource) = false)
             (parser.Resources result).
Proof.
  intros Hwalks. eexists. split; [by apply walkPaths_files|]. simpl.
  split; [apply fileErrors_length|].
  apply Forall_forall. intros resource Hin.
  apply elem_of_concat in Hin as (block & Hin & (path & -> & Hpath)%list_elem_of_fmap).
  apply fileResources_elem in Hin as [-> Hparsed]. done.
Qed.

Lemma ParseTerraformFiles_accounting_witness :
  Forall (λ entry, source.err entry = None) (concat examples.threeFilesWalk)
  ∧ ∃ result,
      source.ParseTerraformFiles examples.threeFiles examples.threeFilesWalk = inr result
      ∧ length (parser.Errors result)
        = length (filter (λ path, props.parseFails examples.threeFiles path = true)
                    (spec.tfFiles examples.threeFilesWalk))
      ∧ Forall (λ resource,
                  parser.File resource ∈ spec.tfFiles examples.threeFilesWalk
                  ∧ props.parseFails examples.threeFiles (parser.File resource) = false)
               (parser.Resources result).
Proof.
  assert (Forall (λ entry, source.err entry = None) (concat examples.threeFilesWalk))
    as Hwalks by (repeat constructor).
  split; [exact Hwalks|].
  exact (ParseTerraformFiles_accounting examples.threeFiles examples.threeFilesWalk Hwalks).
Defined.

(** ** Loading the configuration *)

Lemma compilePatterns_inr Compile ruleName patterns :
  ∀ loaded,
    config.compilePatterns Compile ruleName patterns = inr loaded →
    Forall2 (props.compiled Compile) patterns loaded.
Proof.
  induction patterns as [|pattern rest IH]; intros loaded; simpl.
  - intros [= <-]. constructor.
  - destruct (Compile (config.Pattern pattern)) as [e|matcher] eqn:Hcompile; [done|].
    destruct (config.compilePatterns Compile ruleName rest) as [e|rest']; [done|].
    intros [= <-]. constructor; [|by apply IH].
    repeat split; try done. exists matcher. by repeat split.
Qed.

Lemma compileRules_inr Compile rules :
  ∀ loaded,
    config.compileRules Compile rules = inr loaded →
    Forall2 (props.loadedRule Compile) rules loaded.
Proof.
  induction rules as [|rule rest IH]; intros loaded; simpl.
  - intros [= <-]. constructor.
  - destruct (config.compilePatterns Compile (config.Name rule) (config.TagPatterns rule))
      as [e|patterns] eqn:Hpatterns; [done|].
    destruct (config.compileRules Compile rest) as [e|rest']; [done|].
    intros [= <-]. constructor; [|by apply IH].
    repeat split; try done. simpl. by eapply compilePatterns_inr.
Qed.

(** X17. A configuration that [LoadConfig] returns is the decoded one
    with every tag pattern compiled: the global policy and all other
    fields of the rules are unchanged, the rules and patterns keep their
    order, and every pattern carries the compiled form of its own
    expression, so that its [Validate] is the match of that expression
    and never the vacuous acceptance of an uncompiled pattern. *)
Theorem LoadConfig_loaded Compile decoded loaded :
  config.LoadConfig Compile (config.Decoded decoded) = inr loaded →
  config.Global_ loaded = config.Global_ decoded
  ∧ Forall2 (props.loadedRule Compile) (config.Rules decoded) (config.Rules loaded).
Proof.
  simpl.
  destruct (config.compileRules Compile (config.Rules decoded)) as [e|rules] eqn:Hrules;
    [done|].
  intros [= <-]. simpl. split; [done|]. by apply compileRules_inr.
Qed.

Lemma LoadConfig_loaded_witness :
  let decoded := {| config.Rules := [examples.decodedNamingRule];
                    config.Global_ := examples.noGlobal |} in
  config.LoadConfig examples.sampleCompile (config.Decoded decoded)
  = inr examples.namingConfig
  ∧ config.Global_ examples.namingConfig = config.Global_ decoded
  ∧ Forall2 (props.loadedRule examples.sampleCompile)
            (config.Rules decoded) (config.Rules examples.namingConfig).
Proof.
  intros decoded.
  assert (config.LoadConfig examples.sampleCompile (config.Decoded decoded)
          = inr examples.namingConfig) as Hload by reflexivity.
  split; [exact Hload|].
  exact (LoadConfig_loaded _ _ _ Hload).
Defined.

Lemma compilePatterns_all Compile ruleName patterns :
  Forall (props.compiles Compile) patterns →
  ∃ loaded, config.compilePatterns Compile ruleName patterns = inr loaded.
Proof.
  induction 1 as [|pattern rest [matcher Hcompile] _ [loaded IH]]; simpl; [by eexists|].
  rewrite Hcompile, IH. by eexists.
Qed.

Lemma compilePatterns_first_error Compile ruleName before pattern after e :
  Forall (props.compiles Compile) before →
  Compile (config.Pattern pattern) = inl e →
  config.compilePatterns Compile ruleName (before ++ pattern :: after)
  = inl (golang.wrapError
           ("invalid regex pattern in rule " +:+ ruleName +:+ ": " +:+ golang.Error e) e).
Proof.
  intros Hbefore Hpattern.
  induction Hbefore as [|first before [matcher Hfirst] _ IH]; simpl.
  - by rewrite Hpattern.
  - by rewrite Hfirst, IH.
Qed.

(** X18. [LoadConfig] fails on the first pattern that does not compile,
    going through the rules in order and through the patterns of a rule
    in order: the error names the rule of that pattern and wraps the
    compiler's error; no configuration is returned, even if every other
    pattern is valid. *)
Theorem LoadConfig_invalid_pattern Compile decoded before rule after
    patternsBefore pattern patternsAfter e :
  config.Rules decoded = before ++ rule :: after →
  Forall (λ earlier, Forall (props.compiles Compile) (config.TagPatterns earlier)) before →
  config.TagPatterns rule = patternsBefore ++ pattern :: patternsAfter →
  Forall (props.compiles Compile) patternsBefore →
  Compile (config.Pattern pattern) = inl e →
  config.LoadConfig Compile (config.Decoded decoded)
  = inl (golang.wrapError
           ("invalid regex pattern in rule " +:+ config.Name rule +:+ ": " +:+ golang.Error e)
           e).
Proof.
  intros Hrules Hbefore Hpatterns HpatternsBefore Hpattern. simpl. rewrite Hrules.
  clear Hrules. induction Hbefore as [|earlier before Hearlier _ IH]; simpl.
  - rewrite Hpatterns.
    by rewrite (compilePatterns_first_error _ _ _ _ _ e HpatternsBefore Hpattern).
  - destruct (compilePatterns_all Compile (config.Name earlier) _ Hearlier) as [loaded ->].
    destruct (config.compileRules Compile (before ++ rule :: after)); [|done].
    by injection IH as ->.
Qed.

Lemma LoadConfig_invalid_pattern_witness :
  let decoded := {| config.Rules := [examples.decodedNamingRule; examples.brokenRule];
                    config.Global_ := examples.noGlobal |} in
  let e := golang.errorString "error parsing regexp: missing closing ]: `[`" in
  config.Rules decoded = [examples.decodedNamingRule] ++ examples.brokenRule :: []
  ∧ Forall (λ earlier, Forall (props.compiles examples.sampleCompile)
                              (config.TagPatterns earlier)) [examples.decodedNamingRule]
  ∧ config.TagPatterns examples.brokenRule
    = [ {| config.Pattern := "^x"; config.Message := "first"; config.regex := None |} ]
      ++ {| config.Pattern := "["; config.Message := "second"; config.regex := None |}
      :: [ {| config.Pattern := "^y"; config.Message := "third"; config.regex := None |} ]
  ∧ Forall (props.compiles examples.sampleCompile)
           [ {| config.Pattern := "^x"; config.Message := "first"; config.regex := None |} ]
  ∧ examples.sampleCompile "[" = inl e
  ∧ config.LoadConfig examples.sampleCompile (config.Decoded decoded)
    = inl (golang.wrapError
             ("invalid regex pattern in rule " +:+ "broken" +:+ ": " +:+ golang.Error e) e).
Proof.
  intros decoded e.
  assert (Forall (λ earlier, Forall (props.compiles examples.sampleCompile)
                                    (config.TagPatterns earlier))
                 [examples.decodedNamingRule]) as Hbefore
    by (repeat constructor; eexists; reflexivity).
  assert (Forall (props.compiles examples.sampleCompile)
            [ {| config.Pattern := "^x"; config.Message := "first";
                 config.regex := None |} ]) as HpatternsBefore
    by (repeat constructor; eexists; reflexivity).
  split; [reflexivity|]. split; [exact Hbefore|]. split; [reflexivity|].
  split; [exact HpatternsBefore|]. split; [reflexivity|].
  exact (LoadConfig_invalid_pattern examples.sampleCompile decoded
           [examples.decodedNamingRule] examples.brokenRule []
           [ {| config.Pattern := "^x"; config.Message := "first"; config.regex := None |} ]
           {| config.Pattern := "["; config.Message := "second"; config.regex := None |}
           [ {| config.Pattern := "^y"; config.Message := "third"; config.regex := None |} ]
           e eq_refl Hbefore eq_refl HpatternsBefore eq_refl).
Defined.

Lemma compilePatterns_inr_all Compile ruleName patterns loaded :
  config.compilePatterns Compile ruleName patterns = inr loaded →
  Forall (props.compiles Compile) patterns.
Proof.
  intros Hloaded. apply compilePatterns_inr in Hloaded.
  induction Hloaded as [|pattern pattern' rest rest' (_ & _ & matcher & Hm & _) _ IH];
    constructor; [by exists matcher | done].
Qed.

(** X19. A decoded configuration loads exactly when every pattern of
    every rule compiles. *)
Theorem LoadConfig_succeeds_iff Compile decoded :
  (∃ loaded, config.LoadConfig Compile (config.Decoded decoded) = inr loaded)
  ↔ Forall (λ rule, Forall (props.compiles Compile) (config.TagPatterns rule))
           (config.Rules decoded).
Proof.
  simpl. generalize (config.Global_ decoded). intros global.
  induction (config.Rules decoded) as [|rule rules IH]; simpl.
  - split; [constructor | by eexists].
  - rewrite Forall_cons. split.
    + intros [loaded Hloaded].
      destruct (config.compilePatterns Compile (config.Name rule) (config.TagPatterns rule))
        as [e|patterns] eqn:Hpatterns; [done|].
      split; [by eapply compilePatterns_inr_all|]. apply IH.
      destruct (config.compileRules Compile rules); [done | by eexists].
    + intros [Hrule Hrules].
      destruct (compilePatterns_all Compile (config.Name rule) _ Hrule) as [patterns ->].
      apply IH in Hrules as [loaded Hloaded].
      destruct (config.compileRules Compile rules); [done | by eexists].
Qed.

(** ** Reports *)

Lemma append_assoc (a b c : string) : (a +:+ b) +:+ c = a +:+ (b +:+ c).
Proof.
  induction a as [|x a IH]; [done|].
  change (String x ((a +:+ b) +:+ c) = String x (a +:+ (b +:+ c))). by f_equal.
Qed.

Lemma append_empty_r (a : string) : a +:+ "" = a.
Proof.
  induction a as [|x a IH]; [done|].
  change (String x (a +:+ "") = String x a). by f_equal.
Qed.

Lemma joined_app texts1 texts2 :
  props.joined (texts1 ++ texts2) = props.joined texts1 +:+ props.joined texts2.
Proof.
  induction texts1 as [|text texts1 IH]; [done|].
  change (props.joined ((text :: texts1) ++ texts2))
    with (text +:+ props.joined (texts1 ++ texts2)).
  change (props.joined (text :: texts1)) with (text +:+ props.joined texts1).
  by rewrite IH, append_assoc.
Qed.

Lemma joined_singleton text : props.joined [text] = text.
Proof. apply append_empty_r. Qed.

Lemma fold_left_Fprint {A : Type} (text : A → string) (l : list A) :
  ∀ w, fold_left (λ w x, reporter.Fprint w (text x)) l w = w +:+ props.joined (text <$> l).
Proof.
  induction l as [|x l IH]; intros w.
  - apply eq_sym, append_empty_r.
  - cbn [fold_left]. rewrite IH. unfold reporter.Fprint.
    change (props.joined (text <$> x :: l)) with (text x +:+ props.joined (text <$> l)).
    by rewrite append_assoc.
Qed.

(** *** The order of [sort.Strings] *)

Lemma string_compare_le_trans a :
  ∀ b c, String.compare a b ≠ Gt → String.compare b c ≠ Gt → String.compare a c ≠ Gt.
Proof.
  induction a as [|x a IH]; intros [|y b] [|z c]; simpl; try done.
  unfold Ascii.compare.
  destruct (N.compare_spec (N_of_ascii x) (N_of_ascii y)) as [Hxy|Hxy|Hxy];
    destruct (N.compare_spec (N_of_ascii y) (N_of_ascii z)) as [Hyz|Hyz|Hyz];
    destruct (N.compare_spec (N_of_ascii x) (N_of_ascii z)) as [Hxz|Hxz|Hxz];
    try done; try lia.
  apply IH.
Qed.

#[global] Instance string_le_trans : Transitive golang.string_le.
Proof.
  intros a b c. unfold golang.string_le, String.leb. intros Hab Hbc.
  pose proof (string_compare_le_trans a b c) as Htrans.
  destruct (String.compare a b), (String.compare b c), (String.compare a c);
    try done; by destruct Htrans.
Qed.

#[global] Instance string_le_total : Total golang.string_le.
Proof. intros a b. apply String.leb_total. Qed.

#[global] Instance string_le_antisym : AntiSymm eq golang.string_le.
Proof. intros a b. apply String.leb_antisym. Qed.

Lemma Strings_sorted x : StronglySorted golang.string_le (golang.Strings x).
Proof. apply StronglySorted_merge_sort; apply _. Qed.

Lemma Strings_Permutation x : golang.Strings x ≡ₚ x.
Proof. apply merge_sort_Permutation. Qed.

(** The sorted slice depends on the elements alone. *)
Lemma Strings_unique x y : x ≡ₚ y → golang.Strings x = golang.Strings y.
Proof.
  intros Hperm. apply (StronglySorted_unique golang.string_le); try apply Strings_sorted.
  by rewrite !Strings_Permutation.
Qed.

(** *** Collecting the keys of a map *)

Lemma rangeMap_keys {V : Type} (m : gmap string V) keys :
  golang.is_range_order m keys →
  golang.rangeMap keys m (λ key _ collected, collected ++ [key]) [] = keys.
Proof.
  intros Hkeys. rewrite (rangeMap_append m (λ key, [key])). simpl.
  rewrite range_order_present by done.
  induction keys as [|key keys' IH]; [done|]. csimpl. f_equal.
  clear IH Hkeys. induction keys' as [|k ks IH]; [done|]. csimpl. by rewrite IH.
Qed.

(** *** Partition of a list by a key *)

Lemma partition_skip {A : Type} (key : A → string) (x : A) (l : list A)
    (keys : list string) :
  key x ∉ keys →
  (λ k, filter (λ y, key y = k) (x :: l)) <$> keys
  = (λ k, filter (λ y, key y = k) l) <$> keys.
Proof.
  intros Hnotin. apply list_fmap_ext. intros i k Hk.
  rewrite filter_cons. case_decide as Heq; [|done].
  destruct Hnotin. rewrite Heq. by eapply list_elem_of_lookup_2.
Qed.

Lemma partition_cons {A : Type} (key : A → string) (x : A) (l : list A)
    (keys : list string) :
  NoDup keys → key x ∈ keys →
  concat ((λ k, filter (λ y, key y = k) (x :: l)) <$> keys)
  ≡ₚ x :: concat ((λ k, filter (λ y, key y = k) l) <$> keys).
Proof.
  induction 1 as [|k keys Hk Hnodup IH]; intros Hin; [by apply elem_of_nil in Hin|].
  csimpl. rewrite filter_cons. case_decide as Heq.
  - subst k. by rewrite partition_skip.
  - apply elem_of_cons in Hin as [Hin|Hin]; [congruence|].
    rewrite IH by done. by rewrite Permutation_middle.
Qed.

Lemma partition_Permutation {A : Type} (key : A → string) (l : list A)
    (keys : list string) :
  NoDup keys → (∀ x, x ∈ l → key x ∈ keys) →
  concat ((λ k, filter (λ y, key y = k) l) <$> keys) ≡ₚ l.
Proof.
  intros Hnodup. induction l as [|x l IH]; intros Hcover.
  - clear Hnodup Hcover. induction keys as [|k keys IH]; [done|]. csimpl. apply IH.
  - rewrite partition_cons by (done || apply Hcover; by left).
    f_equiv. apply IH. intros y Hy. apply Hcover. by right.
Qed.

(** *** The summary *)

Lemma violationsByRule_lookup violations rule :
  reporter.violationsByRule violations !! rule
  = if decide (filter (λ v, validator.Rule v = rule) violations = []) then None
    else Some (props.ruleCount violations rule).
Proof.
  unfold reporter.violationsByRule, props.ruleCount.
  induction violations as [|v violations IH] using rev_ind; [done|].
  rewrite fold_left_app, filter_app. simpl.
  destruct (decide (validator.Rule v = rule)) as [Hv|Hv].
  - rewrite Hv, lookup_insert_eq. rewrite filter_cons_True by done.
    rewrite decide_False by (by intros [_ ?]%app_eq_nil).
    rewrite IH, length_app. simpl. case_decide as Hnone.
    + rewrite Hnone. by simpl.
    + simpl. f_equal. lia.
  - rewrite lookup_insert_ne by done. rewrite IH.
    rewrite filter_cons_False by done. rewrite filter_nil. by rewrite app_nil_r.
Qed.

Lemma violationsByRule_default violations rule :
  default 0%Z (reporter.violationsByRule violations !! rule)
  = props.ruleCount violations rule.
Proof.
  rewrite violationsByRule_lookup. case_decide as Hnone; [|done].
  unfold props.ruleCount. by rewrite Hnone.
Qed.

Lemma violationsByRule_dom violations rule :
  rule ∈ dom (reporter.violationsByRule violations)
  ↔ ∃ v, v ∈ violations ∧ validator.Rule v = rule.
Proof.
  rewrite elem_of_dom, violationsByRule_lookup. case_decide as Hnone.
  - split; [by intros [? ?]|]. intros (v & Hv & Hrule).
    assert (v ∈ filter (λ v, validator.Rule v = rule) violations) as Hin
      by (by apply list_elem_of_filter).
    rewrite Hnone in Hin. by apply elem_of_nil in Hin.
  - split; [|by eexists]. intros _.
    destruct (filter (λ v, validator.Rule v = rule) violations) as [|v rest] eqn:Hfilter;
      [done|].
    assert (v ∈ filter (λ v, validator.Rule v = rule) violations) as Hin
      by (rewrite Hfilter; by left).
    apply list_elem_of_filter in Hin as [Hrule Hin]. by exists v.
Qed.

Lemma range_order_sorted {V : Type} (m : gmap string V) keys :
  golang.is_range_order m keys →
  NoDup (golang.Strings keys) ∧ ∀ key, key ∈ golang.Strings keys ↔ key ∈ dom m.
Proof.
  intros [Hnodup Hset]. split.
  - by rewrite Strings_Permutation.
  - intros key. rewrite Strings_Permutation, <- Hset. by rewrite elem_of_list_to_set.
Qed.

Lemma length_concat_fmap {A B : Type} (f : A → list B) (l : list A) :
  Z.of_nat (length (concat (f <$> l)))
  = foldr Z.add 0%Z ((λ x, Z.of_nat (length (f x))) <$> l).
Proof.
  induction l as [|x l IH]; [done|]. csimpl. rewrite length_app, <- IH. lia.
Qed.

(** X20. For a non-empty list of violations, and whatever order the
    range statement visits the rules in, [ReportSummary] writes the head
    of the summary with the total, and then one line for each rule name
    that occurs among the violations: the names are in increasing order
    without repetition, each line carries the number of violations of
    its rule, and these numbers add up to the total. *)
Theorem ReportSummary_lines keys violations w :
  violations ≠ [] →
  golang.is_range_order (reporter.violationsByRule violations) keys →
  ∃ rules,
    reporter.ReportSummary keys violations w
    = w +:+ props.summaryHeader violations
        +:+ props.joined (props.summaryLine violations <$> rules)
    ∧ StronglySorted golang.string_le rules
    ∧ NoDup rules
    ∧ (∀ rule, rule ∈ rules ↔ ∃ v, v ∈ violations ∧ validator.Rule v = rule)
    ∧ foldr Z.add 0%Z (props.ruleCount violations <$> rules)
      = Z.of_nat (length violations).
Proof.
  intros Hsome Hkeys. exists (golang.Strings keys).
  destruct (range_order_sorted _ _ Hkeys) as [Hnodup Hdom].
  assert (∀ rule, rule ∈ golang.Strings keys
                  ↔ ∃ v, v ∈ violations ∧ validator.Rule v = rule) as Hrules
    by (intros rule; by rewrite Hdom, violationsByRule_dom).
  split; [|split; [apply Strings_sorted|split; [done|split; [done|]]]].
  - unfold reporter.ReportSummary.
    destruct violations as [|v violations]; [done|].
    cbn [length Nat.eqb]. cbv zeta. rewrite rangeMap_keys by done.
    rewrite (fold_left_pointwise _
      (λ w rule, reporter.Fprint w (props.summaryLine (v :: violations) rule)))
      by (intros acc rule; unfold props.summaryLine; by rewrite violationsByRule_default).
    rewrite fold_left_Fprint. unfold reporter.Fprint, props.summaryHeader, props.joined.
    cbn [fold_right]. by rewrite !append_assoc.
  - unfold props.ruleCount.
    rewrite <- (length_concat_fmap (λ rule, filter (λ v, validator.Rule v = rule) violations)).
    f_equal. apply Permutation_length, partition_Permutation; [done|].
    intros v Hv. apply Hrules. by exists v.
Qed.

Lemma ReportSummary_lines_witness :
  examples.sampleViolations ≠ []
  ∧ golang.is_range_order (reporter.violationsByRule examples.sampleViolations)
      ["z-rule"; "a-rule"]
  ∧ ∃ rules,
      reporter.ReportSummary ["z-rule"; "a-rule"] examples.sampleViolations ""
      = "" +:+ props.summaryHeader examples.sampleViolations
           +:+ props.joined (props.summaryLine examples.sampleViolations <$> rules)
      ∧ StronglySorted golang.string_le rules
      ∧ NoDup rules
      ∧ (∀ rule, rule ∈ rules
                 ↔ ∃ v, v ∈ examples.sampleViolations ∧ validator.Rule v = rule)
      ∧ foldr Z.add 0%Z (props.ruleCount examples.sampleViolations <$> rules)
        = Z.of_nat (length examples.sampleViolations).
Proof.
  assert (examples.sampleViolations ≠ []) as Hsome by discriminate.
  assert (golang.is_range_order (reporter.violationsByRule examples.sampleViolations)
            ["z-rule"; "a-rule"]) as Hkeys
    by (apply (bool_decide_unpack _); vm_compute; exact I).
  split; [exact Hsome|]. split; [exact Hkeys|].
  exact (ReportSummary_lines _ _ "" Hsome Hkeys).
Defined.

(** *** The report *)

Lemma StronglySorted_weaken {A : Type} (R1 R2 : relation A) (l : list A) :
  (∀ a b, R1 a b → R2 a b) → StronglySorted R1 l → StronglySorted R2 l.
Proof.
  intros Himpl. induction 1 as [|x l _ IH Hall]; constructor; [done|].
  eapply Forall_impl; [exact Hall | apply Himpl].
Qed.

Lemma violationsByFile_lookup violations file :
  reporter.violationsByFile violations !! file
  = if decide (props.inFile violations file = []) then None
    else Some (props.inFile violations file).
Proof.
  unfold reporter.violationsByFile, props.inFile.
  induction violations as [|v violations IH] using rev_ind; [done|].
  rewrite fold_left_app, filter_app. simpl.
  destruct (decide (parser.File (validator.Resource v) = file)) as [Hv|Hv].
  - rewrite Hv, lookup_insert_eq. rewrite filter_cons_True by done.
    rewrite decide_False by (by intros [_ ?]%app_eq_nil).
    rewrite IH, filter_nil. case_decide as Hnone; [by rewrite Hnone | done].
  - rewrite lookup_insert_ne by done. rewrite IH.
    rewrite filter_cons_False by done. rewrite filter_nil. by rewrite app_nil_r.
Qed.

Lemma violationsByFile_default violations file :
  default [] (reporter.violationsByFile violations !! file) = props.inFile violations file.
Proof. rewrite violationsByFile_lookup. by case_decide as Hnone; [rewrite Hnone|]. Qed.

Lemma violationsByFile_dom violations file :
  file ∈ dom (reporter.violationsByFile violations)
  ↔ ∃ v, v ∈ violations ∧ parser.File (validator.Resource v) = file.
Proof.
  rewrite elem_of_dom, violationsByFile_lookup. unfold props.inFile. case_decide as Hnone.
  - split; [by intros [? ?]|]. intros (v & Hv & Hfile).
    assert (v ∈ filter (λ v, parser.File (validator.Resource v) = file) violations) as Hin
      by (by apply list_elem_of_filter).
    rewrite Hnone in Hin. by apply elem_of_nil in Hin.
  - split; [|by eexists]. intros _.
    destruct (filter (λ v, parser.File (validator.Resource v) = file) violations)
      as [|v rest] eqn:Hfilter; [done|].
    assert (v ∈ filter (λ v, parser.File (validator.Resource v) = file) violations) as Hin
      by (rewrite Hfilter; by left).
    apply list_elem_of_filter in Hin as [Hfile Hin]. by exists v.
Qed.

Lemma reportViolation_text v w :
  reporter.reportViolation v w = w +:+ props.violationText v.
Proof.
  unfold reporter.reportViolation, props.violationText, props.line, reporter.Fprint.
  destruct (String.eqb_spec (validator.Description v) "") as [Hnone|Hsome].
  - rewrite decide_True by done. unfold props.joined. cbn [negb app fold_right].
    by rewrite !append_assoc.
  - rewrite decide_False by done. unfold props.joined. cbn [negb app fold_right].
    by rewrite !append_assoc.
Qed.

Lemma fold_left_reportViolation group :
  ∀ w, fold_left (λ w v, reporter.reportViolation v w) group w
       = w +:+ props.joined (props.violationText <$> group).
Proof.
  intros w.
  rewrite (fold_left_pointwise _ (λ w v, reporter.Fprint w (props.violationText v)))
    by (intros; apply reportViolation_text).
  apply fold_left_Fprint.
Qed.

(** X21. For a non-empty list of violations, whatever order the range
    statement visits the files in, and for any [sort.Slice] that meets
    its contract, [Report] writes the head with the total and then one
    block for each file that has a violation: the files are in increasing
    order without repetition, the block of a file lists the violations of
    that file, each exactly once, in non-decreasing order of line; so
    every violation of the input is reported exactly once. *)
Theorem Report_blocks keys Slice violations w :
  violations ≠ [] →
  golang.is_range_order (reporter.violationsByFile violations) keys →
  props.sorts_by_line Slice →
  ∃ files,
    reporter.Report keys Slice violations w
    = w +:+ props.reportHeader violations
        +:+ props.joined
              ((λ file, props.fileBlock file (Slice (props.inFile violations file))) <$> files)
    ∧ StronglySorted golang.string_le files
    ∧ NoDup files
    ∧ (∀ file, file ∈ files
               ↔ ∃ v, v ∈ violations ∧ parser.File (validator.Resource v) = file)
    ∧ Forall (λ file,
                Slice (props.inFile violations file) ≡ₚ props.inFile violations file
                ∧ StronglySorted (λ a b, (props.line a ≤ props.line b)%Z)
                                 (Slice (props.inFile violations file)))
             files
    ∧ concat ((λ file, Slice (props.inFile violations file)) <$> files) ≡ₚ violations.
Proof.
  intros Hsome Hkeys Hslice. exists (golang.Strings keys).
  destruct (range_order_sorted _ _ Hkeys) as [Hnodup Hdom].
  assert (∀ file, file ∈ golang.Strings keys
                  ↔ ∃ v, v ∈ violations ∧ parser.File (validator.Resource v) = file)
    as Hfiles by (intros file; by rewrite Hdom, violationsByFile_dom).
  split; [|split; [apply Strings_sorted|split; [done|split; [done|split]]]].
  - unfold reporter.Report.
    destruct violations as [|v violations]; [done|].
    cbn [length Nat.eqb]. cbv zeta. rewrite rangeMap_keys by done.
    rewrite (fold_left_pointwise _
      (λ w file, reporter.Fprint w
                   (props.fileBlock file (Slice (props.inFile (v :: violations) file))))).
    + rewrite fold_left_Fprint. unfold reporter.Fprint, props.reportHeader.
      by rewrite !append_assoc.
    + intros acc file. rewrite violationsByFile_default, fold_left_reportViolation.
      unfold reporter.Fprint, props.fileBlock.
      rewrite !joined_app, !joined_singleton. by rewrite !append_assoc.
  - apply Forall_forall. intros file _. destruct (Hslice (props.inFile violations file))
      as [Hperm Hsorted]. split; [done|].
    eapply StronglySorted_weaken; [|exact Hsorted].
    intros a b Hab. unfold reporter.less in Hab. unfold props.line. lia.
  - transitivity (concat ((λ file, props.inFile violations file) <$> golang.Strings keys)).
    + clear Hnodup Hdom Hfiles. induction (golang.Strings keys) as [|file files IH]; [done|].
      csimpl. f_equiv; [apply Hslice | apply IH].
    + apply (partition_Permutation (λ v, parser.File (validator.Resource v))); [done|].
      intros v Hv. apply Hfiles. by exists v.
Qed.

Lemma lineSort_sorts : props.sorts_by_line examples.lineSort.
Proof.
  intros l. unfold examples.lineSort.
  set (le := λ a b : validator.Violation, Is_true (props.line a <=? props.line b)%Z).
  assert (Transitive le) as Htrans.
  { intros a b c Hab Hbc. unfold le in *.
    apply Is_true_true in Hab, Hbc. apply Is_true_true. lia. }
  assert (Total le) as Htotal.
  { intros a b. unfold le. destruct (Z.leb_spec (props.line a) (props.line b)) as [H|H].
    - by left.
    - right. apply Is_true_true. lia. }
  split; [apply merge_sort_Permutation|].
  eapply StronglySorted_weaken; [|apply (StronglySorted_merge_sort le)].
  intros a b Hab. unfold le in Hab. apply Is_true_true in Hab.
  unfold reporter.less. unfold props.line in Hab. lia.
Defined.

Lemma Report_blocks_witness :
  ∃ files,
    reporter.Report ["b.tf"; "a.tf"] examples.lineSort examples.sampleViolations ""
    = "" +:+ props.reportHeader examples.sampleViolations
        +:+ props.joined
              ((λ file, props.fileBlock file
                          (examples.lineSort (props.inFile examples.sampleViolations file)))
                 <$> files)
    ∧ StronglySorted golang.string_le files
    ∧ NoDup files
    ∧ (∀ file, file ∈ files
               ↔ ∃ v, v ∈ examples.sampleViolations
                      ∧ parser.File (validator.Resource v) = file)
    ∧ Forall (λ file,
                examples.lineSort (props.inFile examples.sampleViolations file)
                ≡ₚ props.inFile examples.sampleViolations file
                ∧ StronglySorted (λ a b, (props.line a ≤ props.line b)%Z)
                    (examples.lineSort (props.inFile examples.sampleViolations file)))
             files
    ∧ concat ((λ file, examples.lineSort (props.inFile examples.sampleViolations file))
                <$> files)
      ≡ₚ examples.sampleViolations.
Proof.
  apply (Report_blocks ["b.tf"; "a.tf"] examples.lineSort examples.sampleViolations "").
  - done.
  - apply (bool_decide_unpack _). vm_compute. exact I.
  - apply lineSort_sorts.
Defined.

(** ** The command *)

Lemma runValidate_loaded flags world args cfg result :
  config.LoadConfig (main.Compile world) (main.readConfig world (main.configFile flags))
  = inr cfg →
  main.parse flags world args = inr result →
  main.err (main.runValidate flags world args) = None
  ↔ validator.Validate (main.tagOrders world) cfg (parser.Resources result) = [].
Proof.
  intros Hcfg Hparse. unfold main.runValidate. rewrite Hcfg, Hparse. cbv zeta.
  destruct (validator.Validate _ _ _) as [|v violations]; by cbn.
Qed.

(** X22. The command succeeds exactly when the configuration loads, the
    extraction returns a result, and every extracted resource passes the
    configuration: no other outcome of a run returns a nil error. *)
Theorem runValidate_succeeds_iff flags world args :
  (∀ result, main.parse flags world args = inr result →
             validator.valid_orders (main.tagOrders world) (parser.Resources result)) →
  main.err (main.runValidate flags world args) = None
  ↔ ∃ cfg result,
      config.LoadConfig (main.Compile world)
                        (main.readConfig world (main.configFile flags)) = inr cfg
      ∧ main.parse flags world args = inr result
      ∧ Forall (props.passes cfg) (parser.Resources result).
Proof.
  intros Hvalid. split.
  - intros Herr.
    destruct (config.LoadConfig (main.Compile world)
                (main.readConfig world (main.configFile flags))) as [e|cfg] eqn:Hcfg.
    { unfold main.runValidate in Herr. by rewrite Hcfg in Herr. }
    destruct (main.parse flags world args) as [e|result] eqn:Hparse.
    { unfold main.runValidate in Herr. by rewrite Hcfg, Hparse in Herr. }
    exists cfg, result. split; [done|split; [done|]].
    apply (Validate_nil_passes _ _ (main.tagOrders world)); [by apply Hvalid|].
    by apply (runValidate_loaded flags world args cfg result).
  - intros (cfg & result & Hcfg & Hparse & Hpass).
    apply (runValidate_loaded flags world args cfg result); [done..|].
    apply Validate_nil_passes; [by apply Hvalid | done].
Qed.

Lemma planWorld_orders result :
  main.parse examples.planFlags examples.planWorld ["x"] = inr result →
  validator.valid_orders (main.tagOrders examples.planWorld) (parser.Resources result).
Proof.
  intros Hparse. vm_compute in Hparse. injection Hparse as <-.
  intros i resource Hlookup j.
  do 4 (destruct i as [|i]; [injection Hlookup as <-; apply (bool_decide_unpack _);
                             vm_compute; exact I|]).
  done.
Defined.

Lemma runValidate_succeeds_iff_witness :
  main.err (main.runValidate examples.planFlags examples.planWorld ["x"]) = None
  ↔ ∃ cfg result,
      config.LoadConfig (main.Compile examples.planWorld)
        (main.readConfig examples.planWorld (main.configFile examples.planFlags)) = inr cfg
      ∧ main.parse examples.planFlags examples.planWorld ["x"] = inr result
      ∧ Forall (props.passes cfg) (parser.Resources result).
Proof.
  apply (runValidate_succeeds_iff examples.planFlags examples.planWorld ["x"]).
  apply planWorld_orders.
Defined.

(** X23. With [--plan], the paths on the command line, the source files
    and the walks of the file system play no part: two runs that differ
    only in them leave the same output and return the same error. *)
Theorem runValidate_plan_only flags world1 world2 args1 args2 :
  main.planFile flags ≠ "" →
  props.same_but_sources world1 world2 →
  main.runValidate flags world1 args1 = main.runValidate flags world2 args2.
Proof.
  intros Hplan (Hconfig & Hcompile & Hread & Htags & Hfiles & Hrules & Hslice).
  assert (main.parse flags world1 args1 = main.parse flags world2 args2) as Hparse.
  { unfold main.parse. apply String.eqb_neq in Hplan. rewrite Hplan. cbn [negb].
    by rewrite Hread. }
  unfold main.runValidate.
  by rewrite Hconfig, Hcompile, Hparse, Htags, Hfiles, Hrules, Hslice.
Qed.

Lemma runValidate_plan_only_witness :
  main.runValidate examples.planFlags examples.planWorld ["modules"]
  = main.runValidate examples.planFlags examples.otherPlanWorld [].
Proof.
  apply (runValidate_plan_only examples.planFlags examples.planWorld examples.otherPlanWorld).
  - done.
  - by repeat split.
Defined.

(** X24. Files that fail to parse do not make the command fail: when the
    configuration loads and the resources that were extracted raise no
    violation, the command returns a nil error and reports that there is
    no violation, after listing on the standard error, under one warning
    line, the recorded errors in their order. *)
Theorem runValidate_tolerates_parse_errors flags world args cfg result :
  config.LoadConfig (main.Compile world) (main.readConfig world (main.configFile flags))
  = inr cfg →
  main.parse flags world args = inr result →
  parser.Errors result ≠ [] →
  validator.Validate (main.tagOrders world) cfg (parser.Resources result) = [] →
  main.runValidate flags world args
  = {| main.stdout := props.allClear;
       main.stderr := props.errorsText (parser.Errors result);
       main.err := None |}.
Proof.
  intros Hcfg Hparse Herrors Hclean. unfold main.runValidate.
  rewrite Hcfg, Hparse. cbv zeta. rewrite Hclean.
  destruct (parser.Errors result) as [|e errors]; [done|].
  cbn [length Nat.ltb Nat.leb andb]. rewrite andb_false_r.
  f_equal.
  rewrite (fold_left_Fprint (λ e, "  - " +:+ golang.Error e +:+ golang.newline)).
  unfold reporter.Fprint, props.errorsText.
  rewrite !joined_app, !joined_singleton. by rewrite !append_assoc.
Qed.

Lemma runValidate_tolerates_parse_errors_witness :
  ∃ result,
    main.parse examples.sourceFlags examples.sourceWorld ["dir"] = inr result
    ∧ length (parser.Errors result) = 1%nat
    ∧ main.runValidate examples.sourceFlags examples.sourceWorld ["dir"]
      = {| main.stdout := props.allClear;
           main.stderr := props.errorsText (parser.Errors result);
           main.err := None |}.
Proof.
  eexists. split; [vm_compute; reflexivity|]. split; [reflexivity|].
  apply (runValidate_tolerates_parse_errors examples.sourceFlags examples.sourceWorld ["dir"]
           examples.emptyConfig).
  - reflexivity.
  - vm_compute. reflexivity.
  - done.
  - reflexivity.
Defined.
